(** * rocALUTION: host 2D Laplace stencil, multigrid hierarchy setters and
      the HIP accelerator vector

    A shallow embedding of
      - [src/base/host/host_stencil_laplace2d.cpp]  (module [HostStencilLaplace2D]),
      - [src/solvers/multigrid/multigrid.cpp]       (module [MultiGrid]),
      - [src/base/hip/hip_vector.cpp]               (module [HIPAcceleratorVector]),
    followed by the properties proved about them.

    Conventions of the embedding.
      - C [int] values are integers of [Z]; vector sizes are [int], so every
        index computed below stays within the range of [int] whenever the
        vector it indexes exists.  The partial [CopyFrom] adds two [int]
        parameters before it compares them with a size: these sums wrap
        around ([int_wrap]).  The number of grid points of the stencil,
        [size_ * size_], is taken in [Z]: what is proved of the
        stencil's assertions is stated for a product that is an [int].
      - [ValueType] is a real type of the primary templates and its
        arithmetic is exact, that of [Z]: rounding is not modelled.
      - [assert] is live (a debug build): a failed assertion ends the
        process, which is the outcome [Fatal AssertionFailed].
      - An access outside an array is the outcome [Undefined].
      - Loops run their iterations in order (a build without OpenMP);
        kernels are run cell after cell.  With OpenMP the iterations of
        a stencil loop share the variable [idx]: what is stated for
        every grid size holds of a build without OpenMP, and what is
        meant for both builds is stated for the grids on which no loop
        has two iterations.
      - The index-of-max of the math library counts positions from 1, as
        the BLAS function does. *)

From stdpp Require Import gmap list.
From Stdlib Require Import ZArith Lia.

Local Open Scope Z_scope.

(** ** Outcomes of a call *)

Inductive fatal_kind : Type :=
  | AssertionFailed   (* assert(...) does not hold *)
  | FatalError        (* FATAL_ERROR(__FILE__, __LINE__) *)
  | HipError.         (* CHECK_HIP_ERROR / CHECK_HIPBLAS_ERROR: exit(1) *)

Inductive outcome (A : Type) : Type :=
  | Done (a : A)
  | Fatal (k : fatal_kind)
  | Undefined.

Arguments Done {A} a.
Arguments Fatal {A} k.
Arguments Undefined {A}.

Definition bind {A B : Type} (m : outcome A) (f : A -> outcome B) : outcome B :=
  match m with
  | Done a => f a
  | Fatal k => Fatal k
  | Undefined => Undefined
  end.

Notation "x <- m ;; k" := (bind m (fun x => k))
  (at level 100, m at next level, right associativity).
Notation "m ;;; k" := (bind m (fun _ => k))
  (at level 100, right associativity).

Definition assert (b : bool) : outcome unit :=
  if b then Done tt else Fatal AssertionFailed.

(** [for (int i = lo; i < hi; ++i) body], threading the state [st]. *)
Fixpoint for_iter {S : Type} (n : nat) (i : Z) (body : Z -> S -> outcome S)
    (st : S) : outcome S :=
  match n with
  | O => Done st
  | Datatypes.S n' => st' <- body i st ;; for_iter n' (i + 1) body st'
  end.

Definition for_range {S : Type} (lo hi : Z) (body : Z -> S -> outcome S)
    (st : S) : outcome S :=
  for_iter (Z.to_nat (hi - lo)) lo body st.

(** Raw arrays: [a[idx]] as an rvalue and [a[idx] = x]. *)
Definition load {A : Type} (a : list A) (idx : Z) : outcome A :=
  if 0 <=? idx then
    match a !! Z.to_nat idx with
    | Some x => Done x
    | None => Undefined
    end
  else Undefined.

Definition store {A : Type} (a : list A) (idx : Z) (x : A) : outcome (list A) :=
  if (0 <=? idx) && (idx <? Z.of_nat (length a))
  then Done (<[Z.to_nat idx := x]> a)
  else Undefined.

(** [a[idx]] for an index known to lie inside [a]. *)
Definition cell (a : list Z) (idx : Z) : Z := default 0 (a !! Z.to_nat idx).

(** The largest [int], and the [int] that an arithmetic result becomes
    when it is stored in 32 bits (two's complement, wrapping around). *)
Definition INT_MAX : Z := 2147483647.

Definition int_wrap (z : Z) : Z :=
  (z + 2147483648) mod 4294967296 - 2147483648.

(** ** The host 2D Laplace stencil *)

Module HostStencilLaplace2D.

(** The stencil object: [ndim_] is set to 2 by the constructor, [size_]
    is the number of grid points along each axis. *)
Record t : Type := { ndim_ : Z; size_ : Z }.

Definition get_nnz (_ : t) : Z := 5.

(** Modelled from the spec: [get_nrow] is declared by the stencil base
    class, which is not among the sources; the operator acts on the
    [size_] x [size_] grid, a vector of [size_ * size_] entries. *)
Definition get_nrow (st : t) : Z := size_ st * size_ st.

Definition get_size (v : list Z) : Z := Z.of_nat (length v).

(** The two member functions have the same text up to the assignment
    operator of each statement: [=] in [Apply], [+=] in [ApplyAdd]. *)
Definition assign (out : list Z) (idx v : Z) : outcome (list Z) :=
  store out idx v.

Definition add_assign (out : list Z) (idx v : Z) : outcome (list Z) :=
  old <- load out idx ;; store out idx (old + v).

Section Sweep.
Variable upd : list Z -> Z -> Z -> outcome (list Z).
Variable s : Z.          (* this->size_ *)
Variable inp : list Z.   (* cast_in->vec_ *)

Definition interior (i j : Z) (out : list Z) : outcome (list Z) :=
  let idx := i * s + j in
  a <- load inp (idx - s) ;;
  b <- load inp (idx - 1) ;;
  c <- load inp idx ;;
  d <- load inp (idx + 1) ;;
  e <- load inp (idx + s) ;;
  upd out idx ((-1) * a + (-1) * b + 4 * c + (-1) * d + (-1) * e).

Definition layer_j (j : Z) (out : list Z) : outcome (list Z) :=
  let idx := 0 * s + j in
  b <- load inp (idx - 1) ;;
  c <- load inp idx ;;
  d <- load inp (idx + 1) ;;
  e <- load inp (idx + s) ;;
  out <- upd out idx ((-1) * b + 4 * c + (-1) * d + (-1) * e) ;;
  let idx := (s - 1) * s + j in
  a <- load inp (idx - s) ;;
  b <- load inp (idx - 1) ;;
  c <- load inp idx ;;
  d <- load inp (idx + 1) ;;
  upd out idx ((-1) * a + (-1) * b + 4 * c + (-1) * d).

Definition layer_i (i : Z) (out : list Z) : outcome (list Z) :=
  let idx := i * s + 0 in
  a <- load inp (idx - s) ;;
  c <- load inp idx ;;
  d <- load inp (idx + 1) ;;
  e <- load inp (idx + s) ;;
  out <- upd out idx ((-1) * a + 4 * c + (-1) * d + (-1) * e) ;;
  let idx := i * s + s - 1 in
  a <- load inp (idx - s) ;;
  b <- load inp (idx - 1) ;;
  c <- load inp idx ;;
  e <- load inp (idx + s) ;;
  upd out idx ((-1) * a + (-1) * b + 4 * c + (-1) * e).

Definition corners (out : list Z) : outcome (list Z) :=
  let idx := 0 * s + 0 in
  c <- load inp idx ;;
  d <- load inp (idx + 1) ;;
  e <- load inp (idx + s) ;;
  out <- upd out idx (4 * c + (-1) * d + (-1) * e) ;;
  let idx := 0 * s + s - 1 in
  b <- load inp (idx - 1) ;;
  c <- load inp idx ;;
  e <- load inp (idx + s) ;;
  out <- upd out idx ((-1) * b + 4 * c + (-1) * e) ;;
  let idx := (s - 1) * s + 0 in
  a <- load inp (idx - s) ;;
  c <- load inp idx ;;
  d <- load inp (idx + 1) ;;
  out <- upd out idx ((-1) * a + 4 * c + (-1) * d) ;;
  let idx := (s - 1) * s + s - 1 in
  a <- load inp (idx - s) ;;
  b <- load inp (idx - 1) ;;
  c <- load inp idx ;;
  upd out idx ((-1) * a + (-1) * b + 4 * c).

(** The body guarded by [(ndim_ > 0) && (size_ > 0)]: the interior
    loop nest, the two boundary-layer loops, the four corner points. *)
Definition sweep (out : list Z) : outcome (list Z) :=
  out <- for_range 1 (s - 1)
           (fun i out => for_range 1 (s - 1) (fun j out => interior i j out) out)
           out ;;
  out <- for_range 1 (s - 1) layer_j out ;;
  out <- for_range 1 (s - 1) layer_i out ;;
  corners out.
End Sweep.

Definition guarded (upd : list Z -> Z -> Z -> outcome (list Z))
    (st : t) (inp out : list Z) : outcome (list Z) :=
  if (0 <? ndim_ st) && (0 <? size_ st) then
    assert (0 <=? get_size inp) ;;;
    assert (0 <=? get_size out) ;;;
    let nrow := get_nrow st in
    assert (get_size inp =? nrow) ;;;
    assert (get_size out =? nrow) ;;;
    assert (get_size out =? get_size inp) ;;;
    sweep upd (size_ st) inp out
  else Done out.

(** [Apply(in, out)]; [in] and [out] are two host vectors. *)
Definition Apply (st : t) (inp out : list Z) : outcome (list Z) :=
  guarded assign st inp out.

(** [ApplyAdd(in, scalar, out)]: the parameter [scalar] does not occur
    in the body of the function. *)
Definition ApplyAdd (st : t) (inp : list Z) (scalar : Z) (out : list Z)
    : outcome (list Z) :=
  guarded add_assign st inp out.

(** The stencil of grid size [s], as the constructor and [SetGrid] leave it. *)
Definition laplace2d (s : Z) : t := {| ndim_ := 2; size_ := s |}.

(** The 5-point Laplacian with the stencil truncated at the boundary of
    the [s] x [s] grid: a neighbour outside the grid contributes nothing. *)
Definition at_grid (s : Z) (v : list Z) (i j : Z) : Z :=
  if (0 <=? i) && (i <? s) && (0 <=? j) && (j <? s)
  then default 0 (v !! Z.to_nat (i * s + j))
  else 0.

Definition laplacian (s : Z) (v : list Z) (i j : Z) : Z :=
  4 * at_grid s v i j
  - (at_grid s v (i - 1) j + at_grid s v (i + 1) j
     + at_grid s v i (j - 1) + at_grid s v i (j + 1)).

(** The grid, and the progress of a sweep over it: the cells [done] hold
    [f] of their first value and of the Laplacian there, the others
    their first value. *)
Definition on_grid (s i j : Z) : Prop := 0 <= i < s /\ 0 <= j < s.

Definition swept (s : Z) (inp out0 : list Z) (f : Z -> Z -> Z)
    (done : Z -> Z -> Prop) (out : list Z) : Prop :=
  length out = length out0 /\
  forall i j, on_grid s i j ->
    (done i j -> cell out (i * s + j)
                 = f (cell out0 (i * s + j)) (laplacian s inp i j)) /\
    (~ done i j -> cell out (i * s + j) = cell out0 (i * s + j)).

(** The cells of the interior loop nest and of the two layer loops. *)
Definition inner (s i j : Z) : Prop := 1 <= i < s - 1 /\ 1 <= j < s - 1.
Definition rows (s i j : Z) : Prop := (i = 0 \/ i = s - 1) /\ 1 <= j < s - 1.
Definition columns (s i j : Z) : Prop := 1 <= i < s - 1 /\ (j = 0 \/ j = s - 1).

End HostStencilLaplace2D.

(** ** The multigrid hierarchy setters *)

Module MultiGrid.

(** An [Operator<ValueType>*]: the address of an operator the caller owns. *)
Definition Operator : Type := Z.

(** The members the setters touch.  [op_level_] is the caller's array
    itself ([None] is the null pointer); [restrict_op_level_] and
    [prolong_op_level_] are arrays the solver allocates, a slot being
    [None] until a pointer is assigned to it. *)
Record t : Type := {
  build_ : bool;
  levels_ : Z;
  scaling_ : bool;
  op_level_ : option (list Operator);
  restrict_op_level_ : option (list (option Operator));
  prolong_op_level_ : option (list (option Operator))
}.

(** An array of [levels] slots that holds the first [levels - 1]
    pointers of [op], the last slot not being assigned. *)
Definition first_pointers (levels : Z) (op : list Operator)
    : list (option Operator) :=
  (Some <$> take (Z.to_nat (levels - 1)) op) ++ [None].

Definition with_op_level_ (op : option (list Operator)) (mg : t) : t :=
  {| build_ := build_ mg; levels_ := levels_ mg; scaling_ := scaling_ mg;
     op_level_ := op; restrict_op_level_ := restrict_op_level_ mg;
     prolong_op_level_ := prolong_op_level_ mg |}.

Definition with_restrict_op_level_ (arr : list (option Operator)) (mg : t) : t :=
  {| build_ := build_ mg; levels_ := levels_ mg; scaling_ := scaling_ mg;
     op_level_ := op_level_ mg; restrict_op_level_ := Some arr;
     prolong_op_level_ := prolong_op_level_ mg |}.

Definition with_prolong_op_level_ (arr : list (option Operator)) (mg : t) : t :=
  {| build_ := build_ mg; levels_ := levels_ mg; scaling_ := scaling_ mg;
     op_level_ := op_level_ mg; restrict_op_level_ := restrict_op_level_ mg;
     prolong_op_level_ := Some arr |}.

Definition is_null {A : Type} (p : option A) : bool :=
  match p with None => true | Some _ => false end.

(** [new Operator<ValueType>*[n]] *)
Definition new_array (n : Z) : list (option Operator) :=
  replicate (Z.to_nat n) None.

(** [for (int i=0; i<levels_-1; ++i) dst[i] = op[i];] *)
Definition copy_pointers (levels : Z) (op : list Operator)
    (dst : list (option Operator)) : outcome (list (option Operator)) :=
  for_range 0 (levels - 1)
    (fun i dst => p <- load op i ;; store dst i (Some p)) dst.

Definition SetRestrictOperator (mg : t) (op : option (list Operator))
    : outcome t :=
  assert (negb (build_ mg)) ;;;
  assert (negb (is_null op)) ;;;
  assert (0 <? levels_ mg) ;;;
  match op with
  | None => Undefined
  | Some a =>
      arr <- copy_pointers (levels_ mg) a (new_array (levels_ mg)) ;;
      Done (with_restrict_op_level_ arr mg)
  end.

Definition SetProlongOperator (mg : t) (op : option (list Operator))
    : outcome t :=
  assert (negb (build_ mg)) ;;;
  assert (negb (is_null op)) ;;;
  assert (0 <? levels_ mg) ;;;
  match op with
  | None => Undefined
  | Some a =>
      arr <- copy_pointers (levels_ mg) a (new_array (levels_ mg)) ;;
      Done (with_prolong_op_level_ arr mg)
  end.

Definition SetOperatorHierarchy (mg : t) (op : option (list Operator))
    : outcome t :=
  assert (negb (build_ mg)) ;;;
  assert (negb (is_null op)) ;;;
  Done (with_op_level_ op mg).

End MultiGrid.

(** ** Device and host memory *)

(** A pointer to an array: [None] is [NULL], [Some cells] the block it
    points to. *)
Definition buffer : Type := option (list Z).

Definition free (_ : buffer) : buffer := None.

(** Modelled from the spec: [hipMemcpy(dst, src, count * sizeof(T), kind)]
    followed by [CHECK_HIP_ERROR], a transfer primitive of the HIP runtime.
    Nothing is transferred for a count of zero; otherwise the first [count]
    cells of [src] replace those of [dst], and a null pointer is reported
    by the runtime, which [CHECK_HIP_ERROR] turns into [exit(1)]. *)
Definition hipMemcpy (dst src : buffer) (count : Z) : outcome buffer :=
  if count =? 0 then Done dst
  else
    match dst, src with
    | Some d, Some s =>
        if (0 <? count) && (count <=? Z.of_nat (length d))
           && (count <=? Z.of_nat (length s))
        then Done (Some (take (Z.to_nat count) s ++ drop (Z.to_nat count) d))
        else Undefined
    | _, _ => Fatal HipError
    end.

(** ** The host vector, as far as the accelerator vector uses it *)

Module HostVector.

Record t : Type := {
  size_ : Z;
  index_size_ : Z;
  vec_ : buffer;
  index_array_ : buffer
}.

(** Modelled from the spec: [allocate_host(n, &ptr)] of
    utils/allocate_free.hpp, which is not among the sources; the
    contents of the new block are those of [garbage]. *)
Definition allocate_host (garbage : nat -> Z) (n : Z) : buffer :=
  Some (garbage <$> seq 0 (Z.to_nat n)).

(** Modelled from the spec: [HostVector::Allocate(n)] of
    base/host/host_vector.cpp, which is not among the sources: "clears
    any existing state, then allocates a zero-initialized buffer";
    "fails (fatal) if called with negative size"; [Allocate(0)] leaves
    the vector empty. *)
Definition Allocate (v : t) (n : Z) : outcome t :=
  assert (0 <=? n) ;;;
  if 0 <? n then
    Done {| size_ := n; index_size_ := 0;
            vec_ := Some (replicate (Z.to_nat n) 0); index_array_ := None |}
  else
    Done {| size_ := 0; index_size_ := 0; vec_ := None; index_array_ := None |}.

End HostVector.

(** ** The HIP accelerator vector *)

Module HIPAcceleratorVector.

Record Rocalution_Backend_Descriptor : Type := {
  HIP_block_size : Z;
  HIP_max_threads : Z;
  HIP_warp : Z
}.

Record t : Type := {
  size_ : Z;
  index_size_ : Z;
  vec_ : buffer;
  index_array_ : buffer;
  index_buffer_ : buffer;
  host_buffer_ : buffer;
  device_buffer_ : buffer;
  local_backend_ : Rocalution_Backend_Descriptor
}.

(** Assignments to one member. *)
Definition set_size_ (n : Z) (v : t) : t :=
  {| size_ := n; index_size_ := index_size_ v; vec_ := vec_ v;
     index_array_ := index_array_ v; index_buffer_ := index_buffer_ v;
     host_buffer_ := host_buffer_ v; device_buffer_ := device_buffer_ v;
     local_backend_ := local_backend_ v |}.
Definition set_index_size_ (n : Z) (v : t) : t :=
  {| size_ := size_ v; index_size_ := n; vec_ := vec_ v;
     index_array_ := index_array_ v; index_buffer_ := index_buffer_ v;
     host_buffer_ := host_buffer_ v; device_buffer_ := device_buffer_ v;
     local_backend_ := local_backend_ v |}.
Definition set_vec_ (b : buffer) (v : t) : t :=
  {| size_ := size_ v; index_size_ := index_size_ v; vec_ := b;
     index_array_ := index_array_ v; index_buffer_ := index_buffer_ v;
     host_buffer_ := host_buffer_ v; device_buffer_ := device_buffer_ v;
     local_backend_ := local_backend_ v |}.
Definition set_index_array_ (b : buffer) (v : t) : t :=
  {| size_ := size_ v; index_size_ := index_size_ v; vec_ := vec_ v;
     index_array_ := b; index_buffer_ := index_buffer_ v;
     host_buffer_ := host_buffer_ v; device_buffer_ := device_buffer_ v;
     local_backend_ := local_backend_ v |}.
Definition set_index_buffer_ (b : buffer) (v : t) : t :=
  {| size_ := size_ v; index_size_ := index_size_ v; vec_ := vec_ v;
     index_array_ := index_array_ v; index_buffer_ := b;
     host_buffer_ := host_buffer_ v; device_buffer_ := device_buffer_ v;
     local_backend_ := local_backend_ v |}.
Definition set_host_buffer_ (b : buffer) (v : t) : t :=
  {| size_ := size_ v; index_size_ := index_size_ v; vec_ := vec_ v;
     index_array_ := index_array_ v; index_buffer_ := index_buffer_ v;
     host_buffer_ := b; device_buffer_ := device_buffer_ v;
     local_backend_ := local_backend_ v |}.
Definition set_device_buffer_ (b : buffer) (v : t) : t :=
  {| size_ := size_ v; index_size_ := index_size_ v; vec_ := vec_ v;
     index_array_ := index_array_ v; index_buffer_ := index_buffer_ v;
     host_buffer_ := host_buffer_ v; device_buffer_ := b;
     local_backend_ := local_backend_ v |}.

(** The objects a [BaseVector<ValueType>&] can refer to: a host vector,
    a HIP vector, or a vector of another backend, of which only the
    size is seen. *)
Inductive object : Type :=
  | Host (v : HostVector.t)
  | Hip (v : t)
  | Foreign (size : Z).

(** Objects live at addresses; two references denote the same object
    exactly when the addresses are equal. *)
Abbreviation heap := (gmap nat object).

(** Code that reads and writes objects: a state and error monad. *)
Definition M (A : Type) : Type := heap -> outcome (A * heap).

Definition ret {A : Type} (a : A) : M A := fun h => Done (a, h).

Definition bindM {A B : Type} (m : M A) (f : A -> M B) : M B :=
  fun h =>
    match m h with
    | Done (a, h') => f a h'
    | Fatal k => Fatal k
    | Undefined => Undefined
    end.

Definition lift {A : Type} (o : outcome A) : M A :=
  fun h => match o with
           | Done a => Done (a, h)
           | Fatal k => Fatal k
           | Undefined => Undefined
           end.

Definition fatal {A : Type} (k : fatal_kind) : M A := fun _ => Fatal k.

Notation "x <~ m ;; k" := (bindM m (fun x => k))
  (at level 100, m at next level, right associativity).
Notation "m ~;; k" := (bindM m (fun _ => k))
  (at level 100, right associativity).

(** [*p] for a reference [p] to some vector. *)
Definition deref (p : nat) : M object :=
  fun h => match h !! p with
           | Some o => Done (o, h)
           | None => Undefined
           end.

(** The members of a reference whose static type is the HIP vector,
    respectively the host vector. *)
Definition the_hip (p : nat) : M t :=
  o <~ deref p ;;
  match o with Hip v => ret v | _ => lift Undefined end.

Definition the_host (p : nat) : M HostVector.t :=
  o <~ deref p ;;
  match o with Host v => ret v | _ => lift Undefined end.

Definition put (p : nat) (o : object) : M unit :=
  fun h => Done (tt, <[p := o]> h).

Definition modify (p : nat) (f : t -> t) : M unit :=
  v <~ the_hip p ;; put p (Hip (f v)).

Definition modify_host (p : nat) (f : HostVector.t -> HostVector.t) : M unit :=
  v <~ the_host p ;; put p (Host (f v)).

(** The virtual [get_size()] of [BaseVector]. *)
Definition get_size (p : nat) : M Z :=
  o <~ deref p ;;
  match o with
  | Host v => ret (HostVector.size_ v)
  | Hip v => ret (size_ v)
  | Foreign n => ret n
  end.

Definition index_size_of (p : nat) : M Z :=
  v <~ the_hip p ;; ret (index_size_ v).

Definition same_object (p q : nat) : bool := bool_decide (p = q).

(** The state the constructor leaves.  Modelled from the spec: the
    constructor of the base class [BaseVector], which is not among the
    sources, leaves the empty state, both sizes 0; the constructor of the
    HIP vector nulls every pointer. *)
Definition constructed (backend : Rocalution_Backend_Descriptor) : t :=
  {| size_ := 0; index_size_ := 0; vec_ := None; index_array_ := None;
     index_buffer_ := None; host_buffer_ := None; device_buffer_ := None;
     local_backend_ := backend |}.


(** *** Kernels and BLAS calls

    The kernels of hip_kernels_vector.hpp and the wrappers of hip_blas.hpp
    are not among the sources.  A kernel that dereferences a null pointer
    or leaves its arrays has no defined outcome. *)

(** [out[i] = f(x[i], out[i])] for [i < n]. *)
Definition kernel_map2 (f : Z -> Z -> Z) (n : Z) (x out : buffer)
    : outcome buffer :=
  match x, out with
  | Some xs, Some os =>
      if (0 <=? n) && (n <=? Z.of_nat (length xs))
         && (n <=? Z.of_nat (length os))
      then Done (Some (zip_with f (take (Z.to_nat n) xs) (take (Z.to_nat n) os)
                       ++ drop (Z.to_nat n) os))
      else Undefined
  | _, _ => Undefined
  end.

(** [out[i] = f(x[i], y[i], out[i])] for [i < n]. *)
Definition kernel_map3 (f : Z -> Z -> Z -> Z) (n : Z) (x y out : buffer)
    : outcome buffer :=
  match x, y, out with
  | Some xs, Some ys, Some os =>
      if (0 <=? n) && (n <=? Z.of_nat (length xs))
         && (n <=? Z.of_nat (length ys)) && (n <=? Z.of_nat (length os))
      then Done (Some (zip_with (fun a bc => f a bc.1 bc.2)
                         (take (Z.to_nat n) xs)
                         (zip (take (Z.to_nat n) ys) (take (Z.to_nat n) os))
                       ++ drop (Z.to_nat n) os))
      else Undefined
  | _, _, _ => Undefined
  end.

(** Modelled from the spec: [hipblasTaxpy(handle, n, &alpha, x, 1, y, 1)],
    "axpy": [y += alpha * x] ("this += alpha·x"). *)
Definition hipblasTaxpy (n alpha : Z) (x y : buffer) : outcome buffer :=
  kernel_map2 (fun xi yi => alpha * xi + yi) n x y.

(** Modelled from the spec: [kernel_scaleadd], "this = alpha·this + x". *)
Definition kernel_scaleadd (n alpha : Z) (x out : buffer) : outcome buffer :=
  kernel_map2 (fun xi oi => alpha * oi + xi) n x out.

(** Modelled from the spec: [kernel_scaleaddscale],
    "this = alpha·this + beta·x". *)
Definition kernel_scaleaddscale (n alpha beta : Z) (x out : buffer)
    : outcome buffer :=
  kernel_map2 (fun xi oi => alpha * oi + beta * xi) n x out.

(** Modelled from the spec: [kernel_scaleadd2],
    "this = alpha·this + beta·x + gamma·y". *)
Definition kernel_scaleadd2 (n alpha beta gamma : Z) (x y out : buffer)
    : outcome buffer :=
  kernel_map3 (fun xi yi oi => alpha * oi + beta * xi + gamma * yi) n x y out.

(** Modelled from the spec: [kernel_pointwisemult], the element-wise
    product of [this] with [x], and [kernel_pointwisemult2], that of [x]
    with [y]. *)
Definition kernel_pointwisemult (n : Z) (x out : buffer) : outcome buffer :=
  kernel_map2 (fun xi oi => oi * xi) n x out.

Definition kernel_pointwisemult2 (n : Z) (x y out : buffer) : outcome buffer :=
  kernel_map3 (fun xi yi _ => yi * xi) n x y out.

(** Modelled from the spec: [hipblasTdot] and [hipblasTdotc], "dot": the
    inner product of the first [n] cells; the two agree on real values. *)
Definition hipblasTdot (n : Z) (x y : buffer) : outcome Z :=
  match x, y with
  | Some xs, Some ys =>
      if (0 <=? n) && (n <=? Z.of_nat (length xs))
         && (n <=? Z.of_nat (length ys))
      then Done (foldr Z.add 0
                   (zip_with Z.mul (take (Z.to_nat n) xs) (take (Z.to_nat n) ys)))
      else Undefined
  | _, _ => Undefined
  end.

Definition hipblasTdotc : Z -> buffer -> buffer -> outcome Z := hipblasTdot.

(** Modelled from the spec: [hipblasTamax] of hip_blas.hpp, which is not
    among the sources, the "index-of-max" of the "device-side
    BLAS-equivalent" math library: as the BLAS function of that name
    (i?amax), it gives the position, counted from 1, of the first cell of
    largest magnitude among the first [n].  [amax_scan] is the scan, the
    first cell of the rest having the position [i]. *)
Fixpoint amax_scan (best_i best i : Z) (cells : list Z) : Z :=
  match cells with
  | [] => best_i
  | x :: rest =>
      if Z.abs best <? Z.abs x then amax_scan i x (i + 1) rest
      else amax_scan best_i best (i + 1) rest
  end.

Definition hipblasTamax (n : Z) (x : buffer) : outcome Z :=
  match x with
  | Some xs =>
      if (0 <? n) && (n <=? Z.of_nat (length xs))
      then match take (Z.to_nat n) xs with
           | [] => Undefined
           | x0 :: rest => Done (amax_scan 1 x0 2 rest)
           end
      else Undefined
  | None => Undefined
  end.

(** Modelled from the spec: [rocalution_abs] of utils/math_functions.hpp,
    the absolute value. *)
Definition rocalution_abs (x : Z) : Z := Z.abs x.

(** Modelled from the spec: [kernel_permute(n, perm, in, out)],
    "out[perm[i]] = in[i]", and [kernel_permute_backward(n, perm, in, out)],
    "out[i] = in[perm[i]]", for [i < n]. *)
Definition kernel_permute (n : Z) (perm inp out : buffer) : outcome buffer :=
  match perm, inp, out with
  | Some p, Some a, Some o =>
      o' <- for_range 0 n
              (fun i o => pi <- load p i ;; x <- load a i ;; store o pi x) o ;;
      Done (Some o')
  | _, _, _ => Undefined
  end.

Definition kernel_permute_backward (n : Z) (perm inp out : buffer)
    : outcome buffer :=
  match perm, inp, out with
  | Some p, Some a, Some o =>
      o' <- for_range 0 n
              (fun i o => pi <- load p i ;; x <- load a pi ;; store o i x) o ;;
      Done (Some o')
  | _, _, _ => Undefined
  end.

(** [hipMemcpy(&value, ptr + index, sizeof(ValueType), ...)] followed by
    [CHECK_HIP_ERROR]: one cell, read back to the host. *)
Definition read_cell (ptr : buffer) (index : Z) : outcome Z :=
  match ptr with
  | Some cells => load cells index
  | None => Fatal HipError
  end.

Section Model.

(** The contents of memory that was allocated and not yet written:
    any function will do, nothing below depends on which. *)
Variable garbage : nat -> Z.

(** The asynchronous transfer primitive [hipMemcpyAsync] followed by
    [CHECK_HIP_ERROR]: what the destination holds when the call
    returns is left open. *)
Variable hipMemcpyAsync : buffer -> buffer -> Z -> outcome buffer.

(** Modelled from the spec: [allocate_hip(n, &ptr)] of
    hip_allocate_free.hpp, which is not among the sources: [ptr] is
    made to point to a new block of [n] cells. *)
Definition allocate_hip (n : Z) : buffer :=
  Some (garbage <$> seq 0 (Z.to_nat n)).

Definition allocate_host (n : Z) : buffer :=
  HostVector.allocate_host garbage n.

(** Modelled from the spec: [set_to_zero_hip(block, threads, n, ptr)]
    of hip_allocate_free.hpp, which is not among the sources ("zero()"):
    the first [n] cells of [ptr] become 0. *)
Definition set_to_zero_hip (n : Z) (ptr : buffer) : outcome buffer :=
  match ptr with
  | Some cells =>
      if n <=? Z.of_nat (length cells)
      then Done (Some (replicate (Z.to_nat n) 0 ++ drop (Z.to_nat n) cells))
      else Undefined
  | None => if n <=? 0 then Done None else Undefined
  end.

Definition Clear (this : nat) : M unit :=
  sz <~ get_size this ;;
  (if 0 <? sz then
     modify this (fun v => set_vec_ (free (vec_ v)) v) ~;;
     modify this (set_size_ 0)
   else ret tt) ~;;
  isz <~ index_size_of this ;;
  if 0 <? isz then
    modify this (fun v => set_index_buffer_ (free (index_buffer_ v)) v) ~;;
    modify this (fun v => set_index_array_ (free (index_array_ v)) v) ~;;
    modify this (set_index_size_ 0) ~;;
    modify this (fun v => set_host_buffer_ (free (host_buffer_ v)) v) ~;;
    modify this (fun v => set_device_buffer_ (free (device_buffer_ v)) v)
  else ret tt.

Definition Allocate (this : nat) (n : Z) : M unit :=
  lift (assert (0 <=? n)) ~;;
  sz <~ get_size this ;;
  (if 0 <? sz then Clear this else ret tt) ~;;
  if 0 <? n then
    modify this (set_vec_ (allocate_hip n)) ~;;
    v <~ the_hip this ;;
    zeroed <~ lift (set_to_zero_hip n (vec_ v)) ;;
    modify this (set_vec_ zeroed) ~;;
    modify this (fun v => set_host_buffer_
                            (allocate_host (HIP_warp (local_backend_ v))) v) ~;;
    modify this (fun v => set_device_buffer_
                            (allocate_hip (HIP_warp (local_backend_ v))) v) ~;;
    modify this (set_size_ n)
  else ret tt.

(** A transfer whose status the source does not check: an error stays
    pending in the runtime, and what follows is not modelled. *)
Definition unchecked {A : Type} (o : outcome A) : outcome A :=
  match o with
  | Fatal HipError => Undefined
  | _ => o
  end.

(** [SetIndexArray(size, index)], [index] being an array of the host. *)
Definition SetIndexArray (this : nat) (size : Z) (index : buffer) : M unit :=
  lift (assert (0 <? size)) ~;;
  sz <~ get_size this ;;
  lift (assert (size <=? sz)) ~;;
  modify this (set_index_size_ size) ~;;
  modify this (fun v => set_index_array_ (allocate_hip (index_size_ v)) v) ~;;
  modify this (fun v => set_index_buffer_ (allocate_hip (index_size_ v)) v) ~;;
  v <~ the_hip this ;;
  b <~ lift (unchecked (hipMemcpy (index_array_ v) index (index_size_ v))) ;;
  modify this (set_index_array_ b).

(** [CopyFromHost] and [CopyFromHostAsync] have the same text up to the
    transfer primitive, [hipMemcpy] or [hipMemcpyAsync]; so have
    [CopyToHost] and [CopyToHostAsync]. *)

(** [CopyFromHost(src)]: host to device. *)
Definition CopyFromHost_with (memcpy : buffer -> buffer -> Z -> outcome buffer)
    (this src : nat) : M unit :=
  o <~ deref src ;;
  match o with
  | Host _ =>
      sz <~ get_size this ;;
      (if sz =? 0 then
         n <~ get_size src ;;
         Allocate this n ~;;
         isz <~ index_size_of this ;;
         lift (assert (isz =? 0)) ~;;
         cast_vec <~ the_host src ;;
         if 0 <? HostVector.index_size_ cast_vec then
           modify this (set_index_size_ (HostVector.index_size_ cast_vec)) ~;;
           modify this (fun v => set_index_array_ (allocate_hip (index_size_ v)) v) ~;;
           modify this (fun v => set_index_buffer_ (allocate_hip (index_size_ v)) v)
         else ret tt
       else ret tt) ~;;
      n <~ get_size src ;;
      sz <~ get_size this ;;
      lift (assert (n =? sz)) ~;;
      cast_vec <~ the_host src ;;
      isz <~ index_size_of this ;;
      lift (assert (HostVector.index_size_ cast_vec =? isz)) ~;;
      sz <~ get_size this ;;
      if 0 <? sz then
        v <~ the_hip this ;;
        cast_vec <~ the_host src ;;
        b <~ lift (memcpy (vec_ v) (HostVector.vec_ cast_vec) (size_ v)) ;;
        modify this (set_vec_ b) ~;;
        v <~ the_hip this ;;
        cast_vec <~ the_host src ;;
        b <~ lift (memcpy (index_array_ v) (HostVector.index_array_ cast_vec)
                     (index_size_ v)) ;;
        modify this (set_index_array_ b)
      else ret tt
  | _ => fatal FatalError
  end.

Definition CopyFromHost : nat -> nat -> M unit := CopyFromHost_with hipMemcpy.
Definition CopyFromHostAsync : nat -> nat -> M unit :=
  CopyFromHost_with hipMemcpyAsync.

(** [CopyToHost(dst)]: device to host. *)
Definition CopyToHost_with (memcpy : buffer -> buffer -> Z -> outcome buffer)
    (this dst : nat) : M unit :=
  o <~ deref dst ;;
  match o with
  | Host _ =>
      n <~ get_size dst ;;
      (if n =? 0 then
         sz <~ get_size this ;;
         cast_vec <~ the_host dst ;;
         allocated <~ lift (HostVector.Allocate cast_vec sz) ;;
         put dst (Host allocated) ~;;
         cast_vec <~ the_host dst ;;
         lift (assert (HostVector.index_size_ cast_vec =? 0)) ~;;
         isz <~ index_size_of this ;;
         if 0 <? isz then
           modify_host dst (fun c =>
             {| HostVector.size_ := HostVector.size_ c;
                HostVector.index_size_ := isz;
                HostVector.vec_ := HostVector.vec_ c;
                HostVector.index_array_ := HostVector.index_array_ c |}) ~;;
           modify_host dst (fun c =>
             {| HostVector.size_ := HostVector.size_ c;
                HostVector.index_size_ := HostVector.index_size_ c;
                HostVector.vec_ := HostVector.vec_ c;
                HostVector.index_array_ := allocate_host isz |})
         else ret tt
       else ret tt) ~;;
      n <~ get_size dst ;;
      sz <~ get_size this ;;
      lift (assert (n =? sz)) ~;;
      cast_vec <~ the_host dst ;;
      isz <~ index_size_of this ;;
      lift (assert (HostVector.index_size_ cast_vec =? isz)) ~;;
      sz <~ get_size this ;;
      if 0 <? sz then
        v <~ the_hip this ;;
        cast_vec <~ the_host dst ;;
        b <~ lift (memcpy (HostVector.vec_ cast_vec) (vec_ v) (size_ v)) ;;
        modify_host dst (fun c =>
          {| HostVector.size_ := HostVector.size_ c;
             HostVector.index_size_ := HostVector.index_size_ c;
             HostVector.vec_ := b;
             HostVector.index_array_ := HostVector.index_array_ c |}) ~;;
        v <~ the_hip this ;;
        cast_vec <~ the_host dst ;;
        b <~ lift (memcpy (HostVector.index_array_ cast_vec) (index_array_ v)
                     (index_size_ v)) ;;
        modify_host dst (fun c =>
          {| HostVector.size_ := HostVector.size_ c;
             HostVector.index_size_ := HostVector.index_size_ c;
             HostVector.vec_ := HostVector.vec_ c;
             HostVector.index_array_ := b |})
      else ret tt
  | _ => fatal FatalError
  end.

Definition CopyToHost : nat -> nat -> M unit := CopyToHost_with hipMemcpy.
Definition CopyToHostAsync : nat -> nat -> M unit :=
  CopyToHost_with hipMemcpyAsync.

(** [CopyFrom(src)]: device to device when [src] is a HIP vector. *)
Definition CopyFrom (this src : nat) : M unit :=
  o <~ deref src ;;
  match o with
  | Hip _ =>
      sz <~ get_size this ;;
      (if sz =? 0 then
         n <~ get_size src ;;
         Allocate this n ~;;
         isz <~ index_size_of this ;;
         lift (assert (isz =? 0)) ~;;
         src_isz <~ index_size_of src ;;
         if 0 <? src_isz then
           src_isz <~ index_size_of src ;;
           modify this (set_index_size_ src_isz) ~;;
           modify this (fun v => set_index_array_ (allocate_hip (index_size_ v)) v) ~;;
           modify this (fun v => set_index_buffer_ (allocate_hip (index_size_ v)) v)
         else ret tt
       else ret tt) ~;;
      n <~ get_size src ;;
      sz <~ get_size this ;;
      lift (assert (n =? sz)) ~;;
      src_isz <~ index_size_of src ;;
      isz <~ index_size_of this ;;
      lift (assert (src_isz =? isz)) ~;;
      if negb (same_object this src) then
        sz <~ get_size this ;;
        if 0 <? sz then
          v <~ the_hip this ;;
          hip_cast_vec <~ the_hip src ;;
          b <~ lift (hipMemcpy (vec_ v) (vec_ hip_cast_vec) (size_ v)) ;;
          modify this (set_vec_ b) ~;;
          v <~ the_hip this ;;
          hip_cast_vec <~ the_hip src ;;
          b <~ lift (hipMemcpy (index_array_ v) (index_array_ hip_cast_vec)
                       (index_size_ v)) ;;
          modify this (set_index_array_ b)
        else ret tt
      else ret tt
  | Host _ => CopyFromHost this src
  | Foreign _ => fatal FatalError
  end.

(** [CopyFromAsync(src)]. *)
Definition CopyFromAsync (this src : nat) : M unit :=
  o <~ deref src ;;
  match o with
  | Hip _ =>
      sz <~ get_size this ;;
      (if sz =? 0 then
         n <~ get_size src ;;
         Allocate this n ~;;
         isz <~ index_size_of this ;;
         lift (assert (isz =? 0)) ~;;
         src_isz <~ index_size_of src ;;
         if 0 <? src_isz then
           src_isz <~ index_size_of src ;;
           modify this (set_index_size_ src_isz) ~;;
           modify this (fun v => set_index_array_ (allocate_hip (index_size_ v)) v) ~;;
           modify this (fun v => set_index_buffer_ (allocate_hip (index_size_ v)) v)
         else ret tt
       else ret tt) ~;;
      n <~ get_size src ;;
      sz <~ get_size this ;;
      lift (assert (n =? sz)) ~;;
      src_isz <~ index_size_of src ;;
      isz <~ index_size_of this ;;
      lift (assert (src_isz =? isz)) ~;;
      if negb (same_object this src) then
        sz <~ get_size this ;;
        if 0 <? sz then
          v <~ the_hip this ;;
          hip_cast_vec <~ the_hip src ;;
          b <~ lift (hipMemcpy (vec_ v) (vec_ hip_cast_vec) (size_ v)) ;;
          modify this (set_vec_ b) ~;;
          v <~ the_hip this ;;
          hip_cast_vec <~ the_hip src ;;
          b <~ lift (hipMemcpy (index_array_ v) (index_array_ hip_cast_vec)
                       (index_size_ v)) ;;
          modify this (set_index_array_ b)
        else ret tt
      else ret tt
  | Host _ => CopyFromHostAsync this src
  | Foreign _ => fatal FatalError
  end.

(** [CopyTo(dst)]: [this] is the source and is not modified, unless
    [dst] is [this]. *)
Definition CopyTo (this dst : nat) : M unit :=
  o <~ deref dst ;;
  match o with
  | Hip _ =>
      n <~ get_size dst ;;
      (if n =? 0 then
         sz <~ get_size this ;;
         Allocate dst sz ~;;
         dst_isz <~ index_size_of dst ;;
         lift (assert (dst_isz =? 0)) ~;;
         isz <~ index_size_of this ;;
         if 0 <? isz then
           isz <~ index_size_of this ;;
           modify dst (set_index_size_ isz) ~;;
           isz <~ index_size_of this ;;
           modify dst (set_index_array_ (allocate_hip isz)) ~;;
           isz <~ index_size_of this ;;
           modify dst (set_index_buffer_ (allocate_hip isz))
         else ret tt
       else ret tt) ~;;
      n <~ get_size dst ;;
      sz <~ get_size this ;;
      lift (assert (n =? sz)) ~;;
      dst_isz <~ index_size_of dst ;;
      isz <~ index_size_of this ;;
      lift (assert (dst_isz =? isz)) ~;;
      if negb (same_object this dst) then
        sz <~ get_size this ;;
        if 0 <? sz then
          hip_cast_vec <~ the_hip dst ;;
          v <~ the_hip this ;;
          b <~ lift (hipMemcpy (vec_ hip_cast_vec) (vec_ v) (size_ v)) ;;
          modify dst (set_vec_ b) ~;;
          hip_cast_vec <~ the_hip dst ;;
          v <~ the_hip this ;;
          b <~ lift (hipMemcpy (index_array_ hip_cast_vec) (index_array_ v)
                       (index_size_ v)) ;;
          modify dst (set_index_array_ b)
        else ret tt
      else ret tt
  | Host _ => CopyToHost this dst
  | Foreign _ => fatal FatalError
  end.

(** [CopyToAsync(dst)]. *)
Definition CopyToAsync (this dst : nat) : M unit :=
  o <~ deref dst ;;
  match o with
  | Hip _ =>
      n <~ get_size dst ;;
      (if n =? 0 then
         sz <~ get_size this ;;
         Allocate dst sz ~;;
         dst_isz <~ index_size_of dst ;;
         lift (assert (dst_isz =? 0)) ~;;
         isz <~ index_size_of this ;;
         if 0 <? isz then
           isz <~ index_size_of this ;;
           modify dst (set_index_size_ isz) ~;;
           isz <~ index_size_of this ;;
           modify dst (set_index_array_ (allocate_hip isz)) ~;;
           isz <~ index_size_of this ;;
           modify dst (set_index_buffer_ (allocate_hip isz))
         else ret tt
       else ret tt) ~;;
      n <~ get_size dst ;;
      sz <~ get_size this ;;
      lift (assert (n =? sz)) ~;;
      dst_isz <~ index_size_of dst ;;
      isz <~ index_size_of this ;;
      lift (assert (dst_isz =? isz)) ~;;
      if negb (same_object this dst) then
        sz <~ get_size this ;;
        if 0 <? sz then
          hip_cast_vec <~ the_hip dst ;;
          v <~ the_hip this ;;
          b <~ lift (hipMemcpy (vec_ hip_cast_vec) (vec_ v) (size_ v)) ;;
          modify dst (set_vec_ b) ~;;
          hip_cast_vec <~ the_hip dst ;;
          v <~ the_hip this ;;
          b <~ lift (hipMemcpy (index_array_ hip_cast_vec) (index_array_ v)
                       (index_size_ v)) ;;
          modify dst (set_index_array_ b)
        else ret tt
      else ret tt
  | Host _ => CopyToHostAsync this dst
  | Foreign _ => fatal FatalError
  end.

(** [cast_x = dynamic_cast<const HIPAcceleratorVector*>(&x);
    assert(cast_x != NULL);] *)
Definition assert_hip (x : nat) : M unit :=
  o <~ deref x ;;
  match o with Hip _ => ret tt | _ => fatal AssertionFailed end.

(** [assert(this->get_size() == x.get_size());] *)
Definition assert_same_size (this x : nat) : M unit :=
  sz <~ get_size this ;;
  n <~ get_size x ;;
  lift (assert (sz =? n)).

Definition AddScale (this x : nat) (alpha : Z) : M unit :=
  sz <~ get_size this ;;
  if 0 <? sz then
    assert_same_size this x ~;;
    assert_hip x ~;;
    v <~ the_hip this ;;
    cast_x <~ the_hip x ;;
    b <~ lift (hipblasTaxpy (size_ v) alpha (vec_ cast_x) (vec_ v)) ;;
    modify this (set_vec_ b)
  else ret tt.

(** The specialisation [HIPAcceleratorVector<int>::AddScale]. *)
Definition AddScale_int (this x : nat) (alpha : Z) : M unit :=
  fatal FatalError.

Definition ScaleAdd (this : nat) (alpha : Z) (x : nat) : M unit :=
  sz <~ get_size this ;;
  if 0 <? sz then
    assert_same_size this x ~;;
    assert_hip x ~;;
    size <~ get_size this ;;
    v <~ the_hip this ;;
    cast_x <~ the_hip x ;;
    b <~ lift (kernel_scaleadd size alpha (vec_ cast_x) (vec_ v)) ;;
    modify this (set_vec_ b)
  else ret tt.

Definition ScaleAddScale (this : nat) (alpha : Z) (x : nat) (beta : Z)
    : M unit :=
  sz <~ get_size this ;;
  if 0 <? sz then
    assert_same_size this x ~;;
    assert_hip x ~;;
    size <~ get_size this ;;
    v <~ the_hip this ;;
    cast_x <~ the_hip x ;;
    b <~ lift (kernel_scaleaddscale size alpha beta (vec_ cast_x) (vec_ v)) ;;
    modify this (set_vec_ b)
  else ret tt.

Definition ScaleAdd2 (this : nat) (alpha : Z) (x : nat) (beta : Z) (y : nat)
    (gamma : Z) : M unit :=
  sz <~ get_size this ;;
  if 0 <? sz then
    assert_same_size this x ~;;
    assert_same_size this y ~;;
    assert_hip x ~;;
    assert_hip y ~;;
    size <~ get_size this ;;
    v <~ the_hip this ;;
    cast_x <~ the_hip x ;;
    cast_y <~ the_hip y ;;
    b <~ lift (kernel_scaleadd2 size alpha beta gamma
                 (vec_ cast_x) (vec_ cast_y) (vec_ v)) ;;
    modify this (set_vec_ b)
  else ret tt.

Definition PointWiseMult (this x : nat) : M unit :=
  sz <~ get_size this ;;
  if 0 <? sz then
    assert_same_size this x ~;;
    assert_hip x ~;;
    size <~ get_size this ;;
    v <~ the_hip this ;;
    cast_x <~ the_hip x ;;
    b <~ lift (kernel_pointwisemult size (vec_ cast_x) (vec_ v)) ;;
    modify this (set_vec_ b)
  else ret tt.

Definition PointWiseMult2 (this x y : nat) : M unit :=
  sz <~ get_size this ;;
  if 0 <? sz then
    assert_same_size this x ~;;
    assert_same_size this y ~;;
    assert_hip x ~;;
    assert_hip y ~;;
    size <~ get_size this ;;
    v <~ the_hip this ;;
    cast_x <~ the_hip x ;;
    cast_y <~ the_hip y ;;
    b <~ lift (kernel_pointwisemult2 size (vec_ cast_x) (vec_ cast_y) (vec_ v)) ;;
    modify this (set_vec_ b)
  else ret tt.

Definition Dot (this x : nat) : M Z :=
  assert_same_size this x ~;;
  assert_hip x ~;;
  let res := 0 in
  sz <~ get_size this ;;
  if 0 <? sz then
    v <~ the_hip this ;;
    cast_x <~ the_hip x ;;
    lift (hipblasTdot (size_ v) (vec_ v) (vec_ cast_x))
  else ret res.

(** The specialisations [HIPAcceleratorVector<int>::Dot] and
    [HIPAcceleratorVector<int>::DotNonConj]. *)
Definition Dot_int (this x : nat) : M Z := fatal FatalError.

Definition DotNonConj (this x : nat) : M Z :=
  assert_same_size this x ~;;
  assert_hip x ~;;
  let res := 0 in
  sz <~ get_size this ;;
  if 0 <? sz then
    v <~ the_hip this ;;
    cast_x <~ the_hip x ;;
    lift (hipblasTdotc (size_ v) (vec_ v) (vec_ cast_x))
  else ret res.

Definition DotNonConj_int (this x : nat) : M Z := fatal FatalError.

(** [Amax(value)]: the result is the pair of the returned index and of
    what [value] holds on return. *)
Definition Amax (this : nat) : M (Z * Z) :=
  let index := 0 in
  let value := 0 in
  sz <~ get_size this ;;
  iv <~ (if 0 <? sz then
           v <~ the_hip this ;;
           index <~ lift (hipblasTamax (size_ v) (vec_ v)) ;;
           v <~ the_hip this ;;
           value <~ lift (read_cell (vec_ v) index) ;;
           ret (index, value)
         else ret (index, value)) ;;
  ret (iv.1, rocalution_abs iv.2).

(** The specialisation [HIPAcceleratorVector<int>::Amax]. *)
Definition Amax_int (this : nat) : M (Z * Z) := fatal FatalError.

(** A local object [HIPAcceleratorVector vec_tmp(backend)]: it gets an
    address no object has, and its destructor, which calls [Clear],
    runs when the scope is left. *)
Definition new_local (backend : Rocalution_Backend_Descriptor) : M nat :=
  fun h => let p := fresh (dom h) in
           Done (p, <[p := Hip (constructed backend)]> h).

Definition end_local (p : nat) : M unit :=
  Clear p ~;; (fun h => Done (tt, delete p h)).

Definition Permute (this permutation : nat) : M unit :=
  sz <~ get_size this ;;
  if 0 <? sz then
    assert_same_size this permutation ~;;
    assert_hip permutation ~;;
    v <~ the_hip this ;;
    vec_tmp <~ new_local (local_backend_ v) ;;
    sz <~ get_size this ;;
    Allocate vec_tmp sz ~;;
    CopyFrom vec_tmp this ~;;
    size <~ get_size this ;;
    v <~ the_hip this ;;
    cast_perm <~ the_hip permutation ;;
    tmp <~ the_hip vec_tmp ;;
    b <~ lift (kernel_permute size (vec_ cast_perm) (vec_ tmp) (vec_ v)) ;;
    modify this (set_vec_ b) ~;;
    end_local vec_tmp
  else ret tt.

Definition PermuteBackward (this permutation : nat) : M unit :=
  sz <~ get_size this ;;
  if 0 <? sz then
    assert_same_size this permutation ~;;
    assert_hip permutation ~;;
    v <~ the_hip this ;;
    vec_tmp <~ new_local (local_backend_ v) ;;
    sz <~ get_size this ;;
    Allocate vec_tmp sz ~;;
    CopyFrom vec_tmp this ~;;
    size <~ get_size this ;;
    v <~ the_hip this ;;
    cast_perm <~ the_hip permutation ;;
    tmp <~ the_hip vec_tmp ;;
    b <~ lift (kernel_permute_backward size (vec_ cast_perm) (vec_ tmp) (vec_ v)) ;;
    modify this (set_vec_ b) ~;;
    end_local vec_tmp
  else ret tt.

End Model.

(** The state [Clear] leaves a vector in. *)
Definition cleared (v : t) : t :=
  let v := if 0 <? size_ v then set_size_ 0 (set_vec_ None v) else v in
  if 0 <? index_size_ v
  then set_device_buffer_ None (set_host_buffer_ None (set_index_size_ 0
         (set_index_array_ None (set_index_buffer_ None v))))
  else v.

(** The state [Allocate(n)] leaves a vector in, for [0 <= n]. *)
Definition allocated (garbage : nat -> Z) (n : Z) (v : t) : t :=
  let v := if 0 <? size_ v then cleared v else v in
  if 0 <? n then
    set_size_ n
      (set_device_buffer_ (allocate_hip garbage (HIP_warp (local_backend_ v)))
         (set_host_buffer_ (allocate_host garbage (HIP_warp (local_backend_ v)))
            (set_vec_ (Some (replicate (Z.to_nat n) 0)) v)))
  else v.

(** What every vector shows, whatever its backend. *)
Definition object_size (o : object) : Z :=
  match o with
  | Host v => HostVector.size_ v
  | Hip v => size_ v
  | Foreign n => n
  end.

Definition object_index_size (o : object) : Z :=
  match o with
  | Host v => HostVector.index_size_ v
  | Hip v => index_size_ v
  | Foreign _ => 0
  end.

Definition object_vec (o : object) : buffer :=
  match o with
  | Host v => HostVector.vec_ v
  | Hip v => vec_ v
  | Foreign _ => None
  end.

Definition object_index_array (o : object) : buffer :=
  match o with
  | Host v => HostVector.index_array_ v
  | Hip v => index_array_ v
  | Foreign _ => None
  end.

(** The invariant of the data model: "buffer is non-null iff logical
    size > 0; index buffer size <= logical size", a block having as many
    cells as the size that goes with it. *)
Definition holds (b : buffer) (n : Z) : Prop :=
  match b with
  | None => n = 0
  | Some cells => 0 < n /\ Z.of_nat (length cells) = n
  end.

Definition valid (v : t) : Prop :=
  0 <= index_size_ v <= size_ v
  /\ holds (vec_ v) (size_ v)
  /\ holds (index_array_ v) (index_size_ v)
  /\ holds (index_buffer_ v) (index_size_ v).

Definition valid_host (v : HostVector.t) : Prop :=
  0 <= HostVector.index_size_ v <= HostVector.size_ v
  /\ holds (HostVector.vec_ v) (HostVector.size_ v)
  /\ holds (HostVector.index_array_ v) (HostVector.index_size_ v).

Definition valid_object (o : object) : Prop :=
  match o with
  | Host v => valid_host v
  | Hip v => valid v
  | Foreign _ => False
  end.

(** The part of the data model that the constructor establishes and
    that [Clear], [Allocate], [SetDataPtr], [LeaveDataPtr] and
    [SetIndexArray] keep: each array of a vector is null when its size
    member is 0 and a block of that many cells otherwise.  [valid] is
    this and the bound [index_size_ <= size_], which [LeaveDataPtr] does
    not keep. *)
Definition wellformed (v : t) : Prop :=
  holds (vec_ v) (size_ v)
  /\ holds (index_array_ v) (index_size_ v)
  /\ holds (index_buffer_ v) (index_size_ v).

Definition wellformed_host (v : HostVector.t) : Prop :=
  holds (HostVector.vec_ v) (HostVector.size_ v)
  /\ holds (HostVector.index_array_ v) (HostVector.index_size_ v).

Definition wellformed_object (o : object) : Prop :=
  match o with
  | Host v => wellformed_host v
  | Hip v => wellformed v
  | Foreign _ => False
  end.

(** The contents of a vector: its cells, none for the empty vector. *)
Definition contents (b : buffer) : list Z :=
  match b with
  | Some c => c
  | None => []
  end.

(** [p] is a bijection on [0 .. n-1], given as an array of length [n]. *)
Definition bijection (n : Z) (p : list Z) : Prop :=
  Z.of_nat (length p) = n /\ NoDup p /\ Forall (fun x => 0 <= x < n) p.

(** *** Further member functions *)

Definition is_null (b : buffer) : bool :=
  match b with None => true | Some _ => false end.

(** Modelled from the spec: [hipMemcpy(dst + dst_offset, src + src_offset,
    count * sizeof(T), kind)] followed by [CHECK_HIP_ERROR], the transfer
    primitive of the HIP runtime on pointers into blocks.  Nothing is
    transferred for a count of zero. *)
Definition hipMemcpy_at (dst : buffer) (dst_offset : Z) (src : buffer)
    (src_offset count : Z) : outcome buffer :=
  if count =? 0 then Done dst
  else
    match dst, src with
    | Some d, Some s =>
        if (0 <? count)
           && (0 <=? dst_offset) && (dst_offset + count <=? Z.of_nat (length d))
           && (0 <=? src_offset) && (src_offset + count <=? Z.of_nat (length s))
        then Done (Some (take (Z.to_nat dst_offset) d
                         ++ take (Z.to_nat count) (drop (Z.to_nat src_offset) s)
                         ++ drop (Z.to_nat (dst_offset + count)) d))
        else Undefined
    | _, _ => Fatal HipError
    end.

(** Modelled from the spec: [kernel_copy_offset_from(size, src_offset,
    dst_offset, src, dst)] of hip_kernels_vector.hpp, which is not among
    the sources, "copies a contiguous window":
    [dst[i + dst_offset] = src[i + src_offset]] for [i < size]. *)
Definition kernel_copy_offset_from (size src_offset dst_offset : Z)
    (src dst : buffer) : outcome buffer :=
  match src, dst with
  | Some a, Some o =>
      o' <- for_range 0 size
              (fun i o => x <- load a (i + src_offset) ;;
                          store o (i + dst_offset) x) o ;;
      Done (Some o')
  | _, _ => Undefined
  end.

(** The three kernels on one array: what they do when the pointers [src]
    (respectively [in]) and [dst] (respectively [out]) are the same. *)
Definition kernel_copy_offset_from_in_place (size src_offset dst_offset : Z)
    (dst : buffer) : outcome buffer :=
  match dst with
  | Some o =>
      o' <- for_range 0 size
              (fun i o => x <- load o (i + src_offset) ;;
                          store o (i + dst_offset) x) o ;;
      Done (Some o')
  | None => Undefined
  end.

Definition kernel_permute_in_place (n : Z) (perm out : buffer) : outcome buffer :=
  match perm, out with
  | Some p, Some o =>
      o' <- for_range 0 n
              (fun i o => pi <- load p i ;; x <- load o i ;; store o pi x) o ;;
      Done (Some o')
  | _, _ => Undefined
  end.

Definition kernel_permute_backward_in_place (n : Z) (perm out : buffer)
    : outcome buffer :=
  match perm, out with
  | Some p, Some o =>
      o' <- for_range 0 n
              (fun i o => pi <- load p i ;; x <- load o pi ;; store o i x) o ;;
      Done (Some o')
  | _, _ => Undefined
  end.

Section Members.

Variable garbage : nat -> Z.

(** [SetDataPtr(ptr, size)]: the vector takes the block [*ptr] as its
    data; [*ptr] itself is left as it is. *)
Definition SetDataPtr (this : nat) (ptr : buffer) (size : Z) : M unit :=
  lift (assert (negb (is_null ptr))) ~;;
  lift (assert (0 <? size)) ~;;
  modify this (set_vec_ ptr) ~;;
  modify this (set_size_ size) ~;;
  modify this (fun v => set_host_buffer_
                          (allocate_host garbage (HIP_warp (local_backend_ v))) v) ~;;
  modify this (fun v => set_device_buffer_
                          (allocate_hip garbage (HIP_warp (local_backend_ v))) v).

(** [LeaveDataPtr(ptr)]: the result is what [*ptr] is set to. *)
Definition LeaveDataPtr (this : nat) : M buffer :=
  sz <~ get_size this ;;
  lift (assert (0 <? sz)) ~;;
  v <~ the_hip this ;;
  let ptr := vec_ v in
  modify this (set_vec_ None) ~;;
  modify this (fun v => set_host_buffer_ (free (host_buffer_ v)) v) ~;;
  modify this (fun v => set_device_buffer_ (free (device_buffer_ v)) v) ~;;
  modify this (set_size_ 0) ~;;
  ret ptr.

(** [CopyFromData(data)], [data] being an array of the device. *)
Definition CopyFromData (this : nat) (data : buffer) : M unit :=
  sz <~ get_size this ;;
  if 0 <? sz then
    v <~ the_hip this ;;
    sz <~ get_size this ;;
    b <~ lift (hipMemcpy (vec_ v) data sz) ;;
    modify this (set_vec_ b)
  else ret tt.

(** [CopyToData(data)]: the result is what the array [data] holds on
    return. *)
Definition CopyToData (this : nat) (data : buffer) : M buffer :=
  sz <~ get_size this ;;
  if 0 <? sz then
    v <~ the_hip this ;;
    sz <~ get_size this ;;
    lift (hipMemcpy data (vec_ v) sz)
  else ret data.

Definition Zeros (this : nat) : M unit :=
  sz <~ get_size this ;;
  if 0 <? sz then
    sz <~ get_size this ;;
    v <~ the_hip this ;;
    b <~ lift (set_to_zero_hip sz (vec_ v)) ;;
    modify this (set_vec_ b)
  else ret tt.

(** [CopyFrom(src, src_offset, dst_offset, size)].  The two sums of the
    assertions are sums of [int]s.  The source does not exclude
    [&src == this] (the assertion is a TODO comment): the kernel then
    gets one array twice.  So do [CopyFromPermute] and
    [CopyFromPermuteBackward]. *)
Definition CopyFrom_window (this src : nat) (src_offset dst_offset size : Z)
    : M unit :=
  sz <~ get_size this ;;
  lift (assert (0 <? sz)) ~;;
  n <~ get_size src ;;
  lift (assert (0 <? n)) ~;;
  lift (assert (0 <? size)) ~;;
  n <~ get_size src ;;
  lift (assert (int_wrap (src_offset + size) <=? n)) ~;;
  sz <~ get_size this ;;
  lift (assert (int_wrap (dst_offset + size) <=? sz)) ~;;
  assert_hip src ~;;
  cast_src <~ the_hip src ;;
  v <~ the_hip this ;;
  b <~ lift (if same_object this src
             then kernel_copy_offset_from_in_place size src_offset dst_offset
                    (vec_ v)
             else kernel_copy_offset_from size src_offset dst_offset
                    (vec_ cast_src) (vec_ v)) ;;
  modify this (set_vec_ b).

Definition CopyFromPermute (this src permutation : nat) : M unit :=
  sz <~ get_size this ;;
  if 0 <? sz then
    assert_hip permutation ~;;
    assert_hip src ~;;
    n <~ get_size src ;;
    sz <~ get_size this ;;
    lift (assert (n =? sz)) ~;;
    n <~ get_size permutation ;;
    sz <~ get_size this ;;
    lift (assert (n =? sz)) ~;;
    size <~ get_size this ;;
    cast_perm <~ the_hip permutation ;;
    cast_vec <~ the_hip src ;;
    v <~ the_hip this ;;
    b <~ lift (if same_object this src
               then kernel_permute_in_place size (vec_ cast_perm) (vec_ v)
               else kernel_permute size (vec_ cast_perm) (vec_ cast_vec)
                      (vec_ v)) ;;
    modify this (set_vec_ b)
  else ret tt.

Definition CopyFromPermuteBackward (this src permutation : nat) : M unit :=
  sz <~ get_size this ;;
  if 0 <? sz then
    assert_hip permutation ~;;
    assert_hip src ~;;
    n <~ get_size src ;;
    sz <~ get_size this ;;
    lift (assert (n =? sz)) ~;;
    n <~ get_size permutation ;;
    sz <~ get_size this ;;
    lift (assert (n =? sz)) ~;;
    size <~ get_size this ;;
    cast_perm <~ the_hip permutation ;;
    cast_vec <~ the_hip src ;;
    v <~ the_hip this ;;
    b <~ lift (if same_object this src
               then kernel_permute_backward_in_place size (vec_ cast_perm)
                      (vec_ v)
               else kernel_permute_backward size (vec_ cast_perm)
                      (vec_ cast_vec) (vec_ v)) ;;
    modify this (set_vec_ b)
  else ret tt.

(** [GetContinuousValues(start, end, values)], [values] being an array of
    the host: the result is what [values] holds on return. *)
Definition GetContinuousValues (this : nat) (start end_ : Z) (values : buffer)
    : M buffer :=
  lift (assert (0 <=? start)) ~;;
  lift (assert (start <=? end_)) ~;;
  sz <~ get_size this ;;
  lift (assert (end_ <=? sz)) ~;;
  lift (assert (negb (is_null values))) ~;;
  v <~ the_hip this ;;
  lift (hipMemcpy_at values 0 (vec_ v) start (end_ - start)).

Definition SetContinuousValues (this : nat) (start end_ : Z) (values : buffer)
    : M unit :=
  lift (assert (0 <=? start)) ~;;
  lift (assert (start <=? end_)) ~;;
  sz <~ get_size this ;;
  lift (assert (end_ <=? sz)) ~;;
  lift (assert (negb (is_null values))) ~;;
  v <~ the_hip this ;;
  b <~ lift (hipMemcpy_at (vec_ v) start values 0 (end_ - start)) ;;
  modify this (set_vec_ b).

End Members.

(** The state [LeaveDataPtr] leaves a vector in. *)
Definition left (v : t) : t :=
  set_size_ 0 (set_device_buffer_ None (set_host_buffer_ None (set_vec_ None v))).

(** The cells [start .. end - 1] of an array. *)
Definition window (a : list Z) (start end_ : Z) : list Z :=
  take (Z.to_nat (end_ - start)) (drop (Z.to_nat start) a).

End HIPAcceleratorVector.

(** ** Sample objects *)

Module Samples.
Import HIPAcceleratorVector.

(** A solver before [Build()], with no levels and with three levels. *)
Definition unbuilt_without_levels : MultiGrid.t :=
  {| MultiGrid.build_ := false; MultiGrid.levels_ := 0;
     MultiGrid.scaling_ := true; MultiGrid.op_level_ := None;
     MultiGrid.restrict_op_level_ := None;
     MultiGrid.prolong_op_level_ := None |}.

Definition three_levels : MultiGrid.t :=
  {| MultiGrid.build_ := false; MultiGrid.levels_ := 3;
     MultiGrid.scaling_ := true; MultiGrid.op_level_ := None;
     MultiGrid.restrict_op_level_ := None;
     MultiGrid.prolong_op_level_ := None |}.

Definition backend : Rocalution_Backend_Descriptor :=
  {| HIP_block_size := 256; HIP_max_threads := 65536; HIP_warp := 64 |}.

(** Memory that was not written holds what it held before. *)
Definition stale (k : nat) : Z := 1000 + Z.of_nat k.

(** An asynchronous transfer that has not started when the call returns. *)
Definition pending (dst src : buffer) (count : Z) : outcome buffer := Done dst.

Definition vector (data : list Z) : t :=
  {| size_ := Z.of_nat (length data); index_size_ := 0;
     vec_ := Some data; index_array_ := None; index_buffer_ := None;
     host_buffer_ := Some (stale <$> seq 0 64);
     device_buffer_ := Some (stale <$> seq 0 64);
     local_backend_ := backend |}.

(** The vector (10, 20) with the index array (1). *)
Definition indexed : t :=
  {| size_ := 2; index_size_ := 1;
     vec_ := Some [10; 20]; index_array_ := Some [1];
     index_buffer_ := Some [0];
     host_buffer_ := Some (stale <$> seq 0 64);
     device_buffer_ := Some (stale <$> seq 0 64);
     local_backend_ := backend |}.

Definition on_host : HostVector.t :=
  {| HostVector.size_ := 3; HostVector.index_size_ := 0;
     HostVector.vec_ := Some [1; 2; 3]; HostVector.index_array_ := None |}.

(** The objects of the samples, by address: an empty vector, a vector of
    three elements, a permutation of three indices, the indexed vector,
    a host vector, a permutation of two indices. *)
Definition objects : gmap nat object :=
  list_to_map
    [ (0%nat, Hip (constructed backend));
      (1%nat, Hip (vector [3; -7; 5]));
      (2%nat, Hip (vector [2; 0; 1]));
      (3%nat, Hip indexed);
      (4%nat, Host on_host);
      (5%nat, Hip (vector [1; 0])) ].

Definition empty_host : HostVector.t :=
  {| HostVector.size_ := 0; HostVector.index_size_ := 0;
     HostVector.vec_ := None; HostVector.index_array_ := None |}.

(** The same objects with an empty host vector and a device vector of two
    elements besides. *)
Definition more_objects : gmap nat object :=
  <[6%nat := Host empty_host]> (<[7%nat := Hip (vector [7; 8])]> objects).

(** The object at an address when a call has returned. *)
Definition object_after {A : Type} (p : nat) (o : outcome (A * gmap nat object))
    : option object :=
  match o with
  | Done (_, h) => h !! p
  | _ => None
  end.

End Samples.

(** * Properties *)

(** ** Arrays and loops *)

Lemma load_in_range {A : Type} (a : list A) (idx : Z) (x : A) :
  0 <= idx -> a !! Z.to_nat idx = Some x -> load a idx = Done x.
Proof.
  intros Hidx Hx. unfold load.
  destruct (Z.leb_spec 0 idx); [|lia]. now rewrite Hx.
Qed.

Lemma load_cell (a : list Z) (idx : Z) :
  0 <= idx < Z.of_nat (length a) -> load a idx = Done (cell a idx).
Proof.
  intros Hidx. unfold cell.
  destruct (lookup_lt_is_Some_2 a (Z.to_nat idx)) as [x Hx]; [lia|].
  rewrite Hx. now apply load_in_range.
Qed.

Lemma store_in_range {A : Type} (a : list A) (idx : Z) (x : A) :
  0 <= idx < Z.of_nat (length a) ->
  store a idx x = Done (<[Z.to_nat idx := x]> a).
Proof.
  intros Hidx. unfold store.
  destruct (Z.leb_spec 0 idx); [|lia].
  destruct (Z.ltb_spec idx (Z.of_nat (length a))); [|lia]. reflexivity.
Qed.

Lemma cell_insert_eq (a : list Z) (idx x : Z) :
  0 <= idx < Z.of_nat (length a) -> cell (<[Z.to_nat idx := x]> a) idx = x.
Proof.
  intros Hidx. unfold cell. rewrite list_lookup_insert_eq; [reflexivity | lia].
Qed.

Lemma cell_insert_ne (a : list Z) (idx idx' x : Z) :
  0 <= idx -> 0 <= idx' -> idx <> idx' ->
  cell (<[Z.to_nat idx := x]> a) idx' = cell a idx'.
Proof.
  intros H1 H2 Hne. unfold cell. rewrite list_lookup_insert_ne; [reflexivity | lia].
Qed.

(** A loop establishes what each of its iterations maintains. *)
Lemma for_iter_invariant {S : Type} (Inv : Z -> S -> Prop)
    (body : Z -> S -> outcome S) (n : nat) (lo : Z) (st : S) :
  (forall k st, lo <= k < lo + Z.of_nat n -> Inv k st ->
     exists st', body k st = Done st' /\ Inv (k + 1) st') ->
  Inv lo st ->
  exists st', for_iter n lo body st = Done st' /\ Inv (lo + Z.of_nat n) st'.
Proof.
  revert lo st. induction n as [|n IH]; intros lo st Hbody Hinv.
  - exists st. split; [reflexivity|]. now replace (lo + Z.of_nat 0) with lo by lia.
  - destruct (Hbody lo st) as (st1 & Hrun & Hinv1); [lia | assumption |].
    destruct (IH (lo + 1) st1) as (st2 & Hrest & Hinv2).
    + intros k st' Hk. apply Hbody. lia.
    + assumption.
    + exists st2. split.
      * simpl. rewrite Hrun. simpl. exact Hrest.
      * now replace (lo + Z.of_nat (Datatypes.S n)) with (lo + 1 + Z.of_nat n) by lia.
Qed.

Lemma for_range_invariant {S : Type} (Inv : Z -> S -> Prop)
    (body : Z -> S -> outcome S) (lo hi : Z) (st : S) :
  lo <= hi ->
  (forall k st, lo <= k < hi -> Inv k st ->
     exists st', body k st = Done st' /\ Inv (k + 1) st') ->
  Inv lo st ->
  exists st', for_range lo hi body st = Done st' /\ Inv hi st'.
Proof.
  intros Hle Hbody Hinv. unfold for_range.
  destruct (for_iter_invariant Inv body (Z.to_nat (hi - lo)) lo st)
    as (st' & Hrun & Hinv'); [ | assumption | ].
  - intros k st' Hk. apply Hbody. lia.
  - exists st'. split; [assumption|].
    now replace (lo + Z.of_nat (Z.to_nat (hi - lo))) with hi in Hinv' by lia.
Qed.

(** ** The stencil on grids of two points or more along each axis *)

Section StencilSweep.
Import HostStencilLaplace2D.

Variable s : Z.
Variable inp out0 : list Z.
Hypothesis s_ge_2 : 2 <= s.
Hypothesis inp_size : Z.of_nat (length inp) = s * s.
Hypothesis out0_size : Z.of_nat (length out0) = s * s.

(** The statement [out[idx] (op)= v] writes [f out[idx] v]. *)
Variable f : Z -> Z -> Z.
Variable upd : list Z -> Z -> Z -> outcome (list Z).
Hypothesis upd_in_range : forall out idx v,
  0 <= idx < Z.of_nat (length out) ->
  upd out idx v = Done (<[Z.to_nat idx := f (cell out idx) v]> out).

Local Abbreviation on_grid := (HostStencilLaplace2D.on_grid s).
Local Abbreviation swept := (HostStencilLaplace2D.swept s inp out0 f).
Local Abbreviation inner := (HostStencilLaplace2D.inner s).
Local Abbreviation rows := (HostStencilLaplace2D.rows s).
Local Abbreviation columns := (HostStencilLaplace2D.columns s).

Lemma grid_index_range i j : on_grid i j -> 0 <= i * s + j < s * s.
Proof. unfold HostStencilLaplace2D.on_grid. nia. Qed.

Lemma grid_index_inj i j i' j' :
  on_grid i j -> on_grid i' j' -> i * s + j = i' * s + j' -> i = i' /\ j = j'.
Proof.
  unfold HostStencilLaplace2D.on_grid. intros Hg Hg' Heq.
  destruct (Z.lt_trichotomy i i') as [Hlt|[->|Hgt]].
  - assert (s <= (i' - i) * s) by nia. lia.
  - lia.
  - assert (s <= (i - i') * s) by nia. lia.
Qed.

Lemma at_grid_on i j : on_grid i j -> at_grid s inp i j = cell inp (i * s + j).
Proof.
  unfold HostStencilLaplace2D.on_grid, at_grid. intros Hg.
  destruct (Z.leb_spec 0 i); [|lia]. destruct (Z.ltb_spec i s); [|lia].
  destruct (Z.leb_spec 0 j); [|lia]. destruct (Z.ltb_spec j s); [|lia].
  reflexivity.
Qed.

Lemma at_grid_off i j : ~ on_grid i j -> at_grid s inp i j = 0.
Proof.
  unfold HostStencilLaplace2D.on_grid, at_grid. intros Hg.
  destruct (Z.leb_spec 0 i); [|reflexivity].
  destruct (Z.ltb_spec i s); [|reflexivity].
  destruct (Z.leb_spec 0 j); [|reflexivity].
  destruct (Z.ltb_spec j s); [lia|reflexivity].
Qed.

Lemma swept_ext (done done' : Z -> Z -> Prop) out :
  (forall i j, on_grid i j -> (done i j <-> done' i j)) ->
  swept done out -> swept done' out.
Proof.
  intros Hiff [Hlen Hcells]. split; [assumption|].
  intros i j Hg. destruct (Hcells i j Hg) as [Hd Hn].
  split; intros H; [apply Hd | apply Hn]; rewrite (Hiff i j Hg); assumption.
Qed.

(** One statement [out[i0*s+j0] (op)= v], [v] being the value of the
    Laplacian there, on a cell that was not written yet. *)
Lemma swept_write (done : Z -> Z -> Prop) out i0 j0 idx v :
  swept done out -> on_grid i0 j0 -> ~ done i0 j0 ->
  idx = i0 * s + j0 -> v = laplacian s inp i0 j0 ->
  exists out', upd out idx v = Done out'
    /\ swept (fun i j => done i j \/ (i = i0 /\ j = j0)) out'.
Proof.
  intros [Hlen Hcells] Hg Hfresh -> ->.
  pose proof (grid_index_range _ _ Hg) as Hrange.
  eexists. split.
  { apply upd_in_range. rewrite Hlen. lia. }
  split.
  { rewrite length_insert. assumption. }
  intros i j Hij.
  destruct (decide (i = i0 /\ j = j0)) as [[-> ->]|Hne].
  - rewrite cell_insert_eq by (rewrite Hlen; lia).
    destruct (Hcells i0 j0 Hg) as [_ Hn]. rewrite (Hn Hfresh).
    split; [reflexivity | tauto].
  - rewrite cell_insert_ne.
    + destruct (Hcells i j Hij) as [Hd Hn]. split; intros H.
      * apply Hd. tauto.
      * apply Hn. tauto.
    + lia.
    + pose proof (grid_index_range _ _ Hij). lia.
    + intros Heq. apply Hne. symmetry in Heq.
      now apply grid_index_inj.
Qed.

Ltac read_input :=
  repeat (rewrite (load_cell inp) by (rewrite inp_size; unfold HostStencilLaplace2D.on_grid in *; nia);
          cbn [bind]).

Ltac laplacian_value :=
  unfold laplacian;
  repeat match goal with
  | |- context [at_grid s inp ?a ?b] =>
      first [ rewrite (at_grid_on a b) by (unfold HostStencilLaplace2D.on_grid; lia)
            | rewrite (at_grid_off a b) by (unfold HostStencilLaplace2D.on_grid; lia) ]
  end;
  repeat match goal with
  | |- context [cell inp ?e1] =>
      match goal with
      | |- context [cell inp ?e2] =>
          lazymatch e1 with e2 => fail | _ => idtac end;
          replace e1 with e2 by ring
      end
  end;
  ring.

Lemma interior_writes (done : Z -> Z -> Prop) out i j :
  1 <= i < s - 1 -> 1 <= j < s - 1 ->
  swept done out -> ~ done i j ->
  exists out', interior upd s inp i j out = Done out'
    /\ swept (fun i' j' => done i' j' \/ (i' = i /\ j' = j)) out'.
Proof.
  intros Hi Hj Hsw Hfresh. unfold interior. read_input.
  eapply swept_write; eauto.
  - unfold HostStencilLaplace2D.on_grid; lia.
  - laplacian_value.
Qed.

(** Run one more statement of a body: the cell [(i0, j0)] is written. *)
Ltac write_cell Hsw i0 j0 out' Hsw' :=
  cbv zeta; read_input;
  let Hrun := fresh "Hrun" in
  match goal with
  | |- context [upd ?o ?idx ?v] =>
      destruct (swept_write _ o i0 j0 idx v Hsw) as (out' & Hrun & Hsw')
  end;
  [ unfold HostStencilLaplace2D.on_grid; lia
  | intuition lia
  | reflexivity || ring
  | laplacian_value
  | rewrite Hrun; cbn [bind] ].

Lemma layer_j_writes (done : Z -> Z -> Prop) out j :
  1 <= j < s - 1 ->
  swept done out -> ~ done 0 j -> ~ done (s - 1) j ->
  exists out', layer_j upd s inp j out = Done out'
    /\ swept (fun i' j' => done i' j' \/ ((i' = 0 \/ i' = s - 1) /\ j' = j)) out'.
Proof.
  intros Hj Hsw Htop Hbot. unfold layer_j.
  write_cell Hsw 0 j out1 Hsw1.
  write_cell Hsw1 (s - 1) j out2 Hsw2.
  exists out2. split; [reflexivity|].
  eapply swept_ext; [|exact Hsw2]. intros i' j' _. simpl. tauto.
Qed.

Lemma layer_i_writes (done : Z -> Z -> Prop) out i :
  1 <= i < s - 1 ->
  swept done out -> ~ done i 0 -> ~ done i (s - 1) ->
  exists out', layer_i upd s inp i out = Done out'
    /\ swept (fun i' j' => done i' j' \/ (i' = i /\ (j' = 0 \/ j' = s - 1))) out'.
Proof.
  intros Hi Hsw Hleft Hright. unfold layer_i.
  write_cell Hsw i 0 out1 Hsw1.
  write_cell Hsw1 i (s - 1) out2 Hsw2.
  exists out2. split; [reflexivity|].
  eapply swept_ext; [|exact Hsw2]. intros i' j' _. simpl. tauto.
Qed.

Lemma corners_write (done : Z -> Z -> Prop) out :
  swept done out ->
  ~ done 0 0 -> ~ done 0 (s - 1) -> ~ done (s - 1) 0 -> ~ done (s - 1) (s - 1) ->
  exists out', corners upd s inp out = Done out'
    /\ swept (fun i' j' => done i' j'
               \/ ((i' = 0 \/ i' = s - 1) /\ (j' = 0 \/ j' = s - 1))) out'.
Proof.
  intros Hsw H00 H01 H10 H11. unfold corners.
  write_cell Hsw 0 0 out1 Hsw1.
  write_cell Hsw1 0 (s - 1) out2 Hsw2.
  write_cell Hsw2 (s - 1) 0 out3 Hsw3.
  write_cell Hsw3 (s - 1) (s - 1) out4 Hsw4.
  exists out4. split; [reflexivity|].
  eapply swept_ext; [|exact Hsw4]. intros i' j' _. simpl. tauto.
Qed.

Lemma interior_loops_sweep out :
  swept (fun _ _ => False) out ->
  exists out',
    for_range 1 (s - 1)
      (fun i out => for_range 1 (s - 1) (fun j out => interior upd s inp i j out) out)
      out = Done out'
    /\ swept inner out'.
Proof.
  intros Hsw.
  destruct (for_range_invariant
              (fun k out => swept (fun i j => 1 <= i < k /\ 1 <= j < s - 1) out)
              (fun i out => for_range 1 (s - 1)
                              (fun j out => interior upd s inp i j out) out)
              1 (s - 1) out) as (out' & Hrun & Hsw'); [lia | | | ].
  - intros k st Hk Hst.
    destruct (for_range_invariant
                (fun m out => swept (fun i j => (1 <= i < k /\ 1 <= j < s - 1)
                                                \/ (i = k /\ 1 <= j < m)) out)
                (fun j out => interior upd s inp k j out)
                1 (s - 1) st) as (st' & Hrun & Hst'); [lia | | | ].
    + intros m st1 Hm Hst1.
      destruct (interior_writes _ st1 k m Hk Hm Hst1) as (st2 & Hrun & Hst2);
        [lia|].
      exists st2. split; [assumption|].
      eapply swept_ext; [|exact Hst2]. intros i j _. simpl. lia.
    + eapply swept_ext; [|exact Hst]. intros i j _. simpl. lia.
    + exists st'. split; [assumption|].
      eapply swept_ext; [|exact Hst']. intros i j _. simpl. lia.
  - eapply swept_ext; [|exact Hsw]. intros i j _. simpl. lia.
  - exists out'. split; [assumption|]. exact Hsw'.
Qed.

Lemma layer_j_loop_sweep out :
  swept inner out ->
  exists out', for_range 1 (s - 1) (layer_j upd s inp) out = Done out'
    /\ swept (fun i j => inner i j \/ rows i j) out'.
Proof.
  intros Hsw.
  destruct (for_range_invariant
              (fun k out => swept (fun i j => inner i j
                              \/ ((i = 0 \/ i = s - 1) /\ 1 <= j < k)) out)
              (layer_j upd s inp) 1 (s - 1) out) as (out' & Hrun & Hsw');
    [lia | | | ].
  - intros k st Hk Hst.
    destruct (layer_j_writes _ st k Hk Hst) as (st' & Hrun & Hst');
      [unfold HostStencilLaplace2D.inner; lia | unfold HostStencilLaplace2D.inner; lia |].
    exists st'. split; [assumption|].
    eapply swept_ext; [|exact Hst']. intros i j _. unfold HostStencilLaplace2D.inner. simpl. lia.
  - eapply swept_ext; [|exact Hsw]. intros i j _. unfold HostStencilLaplace2D.inner. simpl. lia.
  - exists out'. split; [assumption|]. exact Hsw'.
Qed.

Lemma layer_i_loop_sweep out :
  swept (fun i j => inner i j \/ rows i j) out ->
  exists out', for_range 1 (s - 1) (layer_i upd s inp) out = Done out'
    /\ swept (fun i j => (inner i j \/ rows i j) \/ columns i j) out'.
Proof.
  intros Hsw.
  destruct (for_range_invariant
              (fun k out => swept (fun i j => (inner i j \/ rows i j)
                              \/ (1 <= i < k /\ (j = 0 \/ j = s - 1))) out)
              (layer_i upd s inp) 1 (s - 1) out) as (out' & Hrun & Hsw');
    [lia | | | ].
  - intros k st Hk Hst.
    destruct (layer_i_writes _ st k Hk Hst) as (st' & Hrun & Hst');
      [unfold HostStencilLaplace2D.inner, HostStencilLaplace2D.rows; lia | unfold HostStencilLaplace2D.inner, HostStencilLaplace2D.rows; lia |].
    exists st'. split; [assumption|].
    eapply swept_ext; [|exact Hst']. intros i j _. unfold HostStencilLaplace2D.inner, HostStencilLaplace2D.rows. simpl. lia.
  - eapply swept_ext; [|exact Hsw]. intros i j _. unfold HostStencilLaplace2D.inner, HostStencilLaplace2D.rows. simpl. lia.
  - exists out'. split; [assumption|]. exact Hsw'.
Qed.

(** The whole sweep: every cell of the grid is written exactly once. *)
Lemma sweep_writes_every_cell :
  exists out', sweep upd s inp out0 = Done out'
    /\ length out' = length out0
    /\ forall i j, on_grid i j ->
          out' !! Z.to_nat (i * s + j)
          = Some (f (cell out0 (i * s + j)) (laplacian s inp i j)).
Proof.
  assert (swept (fun _ _ => False) out0) as Hsw0.
  { split; [reflexivity|]. intros i j _. split; [tauto | reflexivity]. }
  unfold sweep.
  destruct (interior_loops_sweep out0 Hsw0) as (out1 & -> & Hsw1). cbn [bind].
  destruct (layer_j_loop_sweep out1 Hsw1) as (out2 & -> & Hsw2). cbn [bind].
  destruct (layer_i_loop_sweep out2 Hsw2) as (out3 & -> & Hsw3). cbn [bind].
  destruct (corners_write _ out3 Hsw3) as (out4 & -> & [Hlen Hcells]);
    try (unfold HostStencilLaplace2D.inner, HostStencilLaplace2D.rows, HostStencilLaplace2D.columns; lia).
  exists out4. split; [reflexivity|]. split; [assumption|].
  intros i j Hg.
  destruct (Hcells i j Hg) as [Hdone _].
  pose proof (grid_index_range i j Hg) as Hrange.
  destruct (lookup_lt_is_Some_2 out4 (Z.to_nat (i * s + j))) as [x Hx]; [lia|].
  rewrite Hx. f_equal. rewrite <- Hdone.
  - unfold cell. now rewrite Hx.
  - unfold HostStencilLaplace2D.inner, HostStencilLaplace2D.rows, HostStencilLaplace2D.columns, HostStencilLaplace2D.on_grid in *. lia.
Qed.

End StencilSweep.

Lemma assign_in_range (out : list Z) (idx v : Z) :
  0 <= idx < Z.of_nat (length out) ->
  HostStencilLaplace2D.assign out idx v
  = Done (<[Z.to_nat idx := (fun _ new => new) (cell out idx) v]> out).
Proof. apply store_in_range. Qed.

Lemma add_assign_in_range (out : list Z) (idx v : Z) :
  0 <= idx < Z.of_nat (length out) ->
  HostStencilLaplace2D.add_assign out idx v
  = Done (<[Z.to_nat idx := Z.add (cell out idx) v]> out).
Proof.
  intros Hidx. unfold HostStencilLaplace2D.add_assign.
  rewrite load_cell by assumption. cbn [bind]. now apply store_in_range.
Qed.

Lemma guarded_runs_sweep upd (s : Z) (inp out : list Z) :
  0 < s -> Z.of_nat (length inp) = s * s -> Z.of_nat (length out) = s * s ->
  HostStencilLaplace2D.guarded upd (HostStencilLaplace2D.laplace2d s) inp out
  = HostStencilLaplace2D.sweep upd s inp out.
Proof.
  intros Hs Hinp Hout.
  unfold HostStencilLaplace2D.guarded, HostStencilLaplace2D.get_nrow,
    HostStencilLaplace2D.get_size. cbn [HostStencilLaplace2D.ndim_
    HostStencilLaplace2D.size_ HostStencilLaplace2D.laplace2d].
  rewrite Hinp, Hout.
  destruct (Z.ltb_spec 0 s); [|lia].
  destruct (Z.leb_spec 0 (s * s)); [|nia].
  rewrite Z.eqb_refl. reflexivity.
Qed.

(** On a grid of at least two points along each axis, [Apply] returns and
    assigns to every entry of [out] the 5-point Laplacian of [in],
    truncated at the boundary of the grid. *)
Theorem Apply_is_laplacian_from_size_2 (s : Z) (inp out : list Z) :
  2 <= s -> Z.of_nat (length inp) = s * s -> Z.of_nat (length out) = s * s ->
  exists out',
    HostStencilLaplace2D.Apply (HostStencilLaplace2D.laplace2d s) inp out = Done out'
    /\ length out' = length out
    /\ forall i j, 0 <= i < s -> 0 <= j < s ->
         out' !! Z.to_nat (i * s + j)
         = Some (HostStencilLaplace2D.laplacian s inp i j).
Proof.
  intros Hs Hinp Hout. unfold HostStencilLaplace2D.Apply.
  rewrite guarded_runs_sweep by (assumption || lia).
  destruct (sweep_writes_every_cell s inp out Hs Hinp Hout (fun _ new => new)
              HostStencilLaplace2D.assign assign_in_range)
    as (out' & Hrun & Hlen & Hcells).
  exists out'. split; [assumption|]. split; [assumption|].
  intros i j Hi Hj. apply Hcells. split; assumption.
Qed.

(** On such a grid [ApplyAdd] returns and adds to every entry of [out] the
    Laplacian of [in] as it is, whatever [scalar] is. *)
Theorem ApplyAdd_adds_laplacian_from_size_2 (s : Z) (inp out : list Z) (scalar : Z) :
  2 <= s -> Z.of_nat (length inp) = s * s -> Z.of_nat (length out) = s * s ->
  exists out',
    HostStencilLaplace2D.ApplyAdd (HostStencilLaplace2D.laplace2d s) inp scalar out
    = Done out'
    /\ length out' = length out
    /\ forall i j, 0 <= i < s -> 0 <= j < s ->
         out' !! Z.to_nat (i * s + j)
         = Some (cell out (i * s + j) + HostStencilLaplace2D.laplacian s inp i j).
Proof.
  intros Hs Hinp Hout. unfold HostStencilLaplace2D.ApplyAdd.
  rewrite guarded_runs_sweep by (assumption || lia).
  destruct (sweep_writes_every_cell s inp out Hs Hinp Hout Z.add
              HostStencilLaplace2D.add_assign add_assign_in_range)
    as (out' & Hrun & Hlen & Hcells).
  exists out'. split; [assumption|]. split; [assumption|].
  intros i j Hi Hj. apply Hcells. split; assumption.
Qed.

(** C1.  [ApplyAdd] does not scale what it adds: on the 2 x 2 grid, with
    [in = (1, 0, 0, 0)], [scalar = 2] and [out = (0, 0, 0, 0)], it leaves
    [out = (4, -1, -1, 0)], which is [out + A·in], where
    [out + scalar * A·in] is [(8, -2, -2, 0)]. *)
Theorem ApplyAdd_leaves_scalar_out :
  HostStencilLaplace2D.ApplyAdd (HostStencilLaplace2D.laplace2d 2)
    [1; 0; 0; 0] 2 [0; 0; 0; 0] = Done [4; -1; -1; 0]
  /\ (fun k => cell [0; 0; 0; 0] k
               + 2 * HostStencilLaplace2D.laplacian 2 [1; 0; 0; 0] (k / 2) (k mod 2))
       <$> [0; 1; 2; 3] = [8; -2; -2; 0].
Proof. split; reflexivity. Qed.

(** C2.  On the grid of a single point, the vectors having one entry,
    [Apply] reads [in[1]] for the first corner, which lies outside [in];
    the Laplacian truncated to that grid is [4 * in[0]]. *)
Theorem Apply_size_1_reads_outside_input (x y : Z) :
  HostStencilLaplace2D.Apply (HostStencilLaplace2D.laplace2d 1) [x] [y] = Undefined
  /\ HostStencilLaplace2D.laplacian 1 [x] 0 0 = 4 * x.
Proof.
  split; [reflexivity|].
  unfold HostStencilLaplace2D.laplacian, HostStencilLaplace2D.at_grid. simpl. lia.
Qed.

(** ** The multigrid hierarchy setters *)

Lemma copy_pointers_first (levels : Z) (op : list MultiGrid.Operator) :
  0 < levels -> levels - 1 <= Z.of_nat (length op) ->
  MultiGrid.copy_pointers levels op (MultiGrid.new_array levels)
  = Done (MultiGrid.first_pointers levels op).
Proof.
  intros Hpos Hlen. unfold MultiGrid.copy_pointers.
  destruct (for_range_invariant
              (fun k dst => dst = (Some <$> take (Z.to_nat k) op)
                                  ++ replicate (Z.to_nat (levels - k)) None)
              (fun i dst => p <- load op i ;; store dst i (Some p))
              0 (levels - 1) (MultiGrid.new_array levels))
    as (dst & Hrun & ->); [lia | | | ].
  - intros k dst Hk ->.
    destruct (lookup_lt_is_Some_2 op (Z.to_nat k)) as [p Hp]; [lia|].
    rewrite (load_in_range op k p) by (lia || assumption). cbn [bind].
    rewrite store_in_range.
    2:{ rewrite length_app, length_fmap, length_take, length_replicate. lia. }
    eexists. split; [reflexivity|].
    replace (Z.to_nat (k + 1)) with (Datatypes.S (Z.to_nat k)) by lia.
    rewrite (take_S_r _ _ _ Hp), fmap_app, <- app_assoc. cbn [fmap list_fmap app].
    replace (Z.to_nat (levels - k)) with (Datatypes.S (Z.to_nat (levels - (k + 1))))
      by lia.
    cbn [replicate].
    rewrite insert_app_r_alt by (rewrite length_fmap, length_take; lia).
    replace (Z.to_nat k - length (Some <$> take (Z.to_nat k) op))%nat with 0%nat
      by (rewrite length_fmap, length_take; lia).
    reflexivity.
  - unfold MultiGrid.new_array. rewrite take_0. cbn [fmap list_fmap app].
    f_equal. lia.
  - rewrite Hrun. unfold MultiGrid.first_pointers.
    replace (levels - (levels - 1)) with 1 by lia. reflexivity.
Qed.

(** C3, as the code has it.  The caller's array, when there is one, holding
    at least [levels_ - 1] pointers:
    each of the three setters ends in a failed assertion after [Build()]
    and on a null array; [SetRestrictOperator] and [SetProlongOperator] do
    so too when [levels_] is not greater than 0, and otherwise record
    exactly the first [levels_ - 1] pointers of the caller;
    [SetOperatorHierarchy] does not look at [levels_] and keeps the
    caller's array. *)
Theorem hierarchy_setters_contract (mg : MultiGrid.t)
    (op : option (list MultiGrid.Operator)) :
  (forall a, op = Some a -> MultiGrid.levels_ mg - 1 <= Z.of_nat (length a)) ->
  MultiGrid.SetOperatorHierarchy mg op
  = (if MultiGrid.build_ mg || MultiGrid.is_null op
     then Fatal AssertionFailed
     else Done (MultiGrid.with_op_level_ op mg))
  /\ MultiGrid.SetRestrictOperator mg op
     = (if MultiGrid.build_ mg || MultiGrid.is_null op
           || (MultiGrid.levels_ mg <=? 0)
        then Fatal AssertionFailed
        else Done (MultiGrid.with_restrict_op_level_
                     (MultiGrid.first_pointers (MultiGrid.levels_ mg) (default [] op))
                     mg))
  /\ MultiGrid.SetProlongOperator mg op
     = (if MultiGrid.build_ mg || MultiGrid.is_null op
           || (MultiGrid.levels_ mg <=? 0)
        then Fatal AssertionFailed
        else Done (MultiGrid.with_prolong_op_level_
                     (MultiGrid.first_pointers (MultiGrid.levels_ mg) (default [] op))
                     mg)).
Proof.
  intros Hop.
  unfold MultiGrid.SetOperatorHierarchy, MultiGrid.SetRestrictOperator,
    MultiGrid.SetProlongOperator.
  destruct (MultiGrid.build_ mg); [repeat split; reflexivity|].
  destruct op as [a|]; [|repeat split; reflexivity].
  cbn [negb assert bind MultiGrid.is_null orb default].
  split; [reflexivity|].
  destruct (Z.ltb_spec 0 (MultiGrid.levels_ mg)) as [Hpos|Hneg];
    destruct (Z.leb_spec (MultiGrid.levels_ mg) 0); try lia;
    cbn [assert bind]; [|split; reflexivity].
  rewrite copy_pointers_first by (assumption || now apply Hop).
  split; reflexivity.
Qed.

(** With [levels_ = 3] and the array [(10, 20)], the three setters return,
    and the two transfer setters hold [(10, 20, -)]. *)
Lemma hierarchy_setters_contract_witness :
  MultiGrid.SetOperatorHierarchy Samples.three_levels (Some [10; 20])
  = Done (MultiGrid.with_op_level_ (Some [10; 20]) Samples.three_levels)
  /\ MultiGrid.SetRestrictOperator Samples.three_levels (Some [10; 20])
     = Done (MultiGrid.with_restrict_op_level_ [Some 10; Some 20; None] Samples.three_levels)
  /\ MultiGrid.SetProlongOperator Samples.three_levels (Some [10; 20])
     = Done (MultiGrid.with_prolong_op_level_ [Some 10; Some 20; None] Samples.three_levels).
Proof.
  apply (hierarchy_setters_contract Samples.three_levels (Some [10; 20])).
  intros a [= <-]. simpl. lia.
Defined.

(** [SetOperatorHierarchy] returns although [levels_] is 0. *)
Lemma SetOperatorHierarchy_without_levels :
  MultiGrid.levels_ Samples.unbuilt_without_levels <= 0
  /\ MultiGrid.SetOperatorHierarchy Samples.unbuilt_without_levels (Some [10])
     = Done (MultiGrid.with_op_level_ (Some [10]) Samples.unbuilt_without_levels).
Proof. split; [simpl; lia | reflexivity]. Qed.

(** ** Running code on the heap *)

Section HeapSteps.
Import HIPAcceleratorVector.

Lemma run_deref (h : gmap nat object) p o :
  h !! p = Some o -> deref p h = Done (o, h).
Proof. intros H. unfold deref. now rewrite H. Qed.

Lemma run_the_hip (h : gmap nat object) p v :
  h !! p = Some (Hip v) -> the_hip p h = Done (v, h).
Proof. intros H. unfold the_hip, bindM. now rewrite (run_deref _ _ _ H). Qed.

Lemma run_the_host (h : gmap nat object) p v :
  h !! p = Some (Host v) -> the_host p h = Done (v, h).
Proof. intros H. unfold the_host, bindM. now rewrite (run_deref _ _ _ H). Qed.

Lemma run_get_size (h : gmap nat object) p o :
  h !! p = Some o -> get_size p h = Done (object_size o, h).
Proof.
  intros H. unfold get_size, bindM. rewrite (run_deref _ _ _ H).
  now destruct o.
Qed.

Lemma run_index_size_of (h : gmap nat object) p v :
  h !! p = Some (Hip v) -> index_size_of p h = Done (index_size_ v, h).
Proof.
  intros H. unfold index_size_of, bindM. now rewrite (run_the_hip _ _ _ H).
Qed.

Lemma run_modify (h : gmap nat object) p v f :
  h !! p = Some (Hip v) -> modify p f h = Done (tt, <[p := Hip (f v)]> h).
Proof. intros H. unfold modify, bindM. now rewrite (run_the_hip _ _ _ H). Qed.

Lemma run_modify_host (h : gmap nat object) p v f :
  h !! p = Some (Host v) -> modify_host p f h = Done (tt, <[p := Host (f v)]> h).
Proof.
  intros H. unfold modify_host, bindM. now rewrite (run_the_host _ _ _ H).
Qed.

Lemma run_assert_hip (h : gmap nat object) p v :
  h !! p = Some (Hip v) -> assert_hip p h = Done (tt, h).
Proof. intros H. unfold assert_hip, bindM. now rewrite (run_deref _ _ _ H). Qed.

Lemma lift_Done {A : Type} (o : outcome A) (a : A) (h : gmap nat object) :
  o = Done a -> lift o h = Done (a, h).
Proof. now intros ->. Qed.

Lemma lift_assert_true (b : bool) (h : gmap nat object) :
  b = true -> lift (assert b) h = Done (tt, h).
Proof. now intros ->. Qed.

Lemma lift_assert_false (b : bool) (h : gmap nat object) :
  b = false -> lift (assert b) h = Fatal AssertionFailed.
Proof. now intros ->. Qed.

Lemma bindM_Done {A B : Type} (m : M A) (k : A -> M B) h a h' :
  m h = Done (a, h') -> bindM m k h = k a h'.
Proof. intros H. unfold bindM. now rewrite H. Qed.

Lemma bindM_Fatal {A B : Type} (m : M A) (k : A -> M B) h e :
  m h = Fatal e -> bindM m k h = Fatal e.
Proof. intros H. unfold bindM. now rewrite H. Qed.

Lemma bindM_assoc {A B C : Type} (m : M A) (k1 : A -> M B) (k2 : B -> M C) h :
  bindM (bindM m k1) k2 h = bindM m (fun a => bindM (k1 a) k2) h.
Proof. unfold bindM. destruct (m h) as [[a h']| |]; reflexivity. Qed.

Lemma bindM_ret {A B : Type} (a : A) (k : A -> M B) h :
  bindM (ret a) k h = k a h.
Proof. reflexivity. Qed.

End HeapSteps.

Ltac lookup_tac :=
  first [ eassumption
        | apply lookup_insert_eq
        | (rewrite lookup_insert_ne by congruence; lookup_tac) ].

(** A comparison that the hypotheses decide. *)
Ltac bool_eq :=
  first [ reflexivity
        | apply Z.eqb_refl
        | apply Z.eqb_eq; lia | apply Z.eqb_neq; lia
        | apply Z.ltb_lt; lia | apply Z.ltb_ge; lia
        | apply Z.leb_le; lia | apply Z.leb_gt; lia
        | apply bool_decide_eq_true_2; congruence
        | apply bool_decide_eq_false_2; congruence ].

Ltac primitive :=
  first [ apply run_get_size; lookup_tac
        | apply run_index_size_of; lookup_tac
        | apply run_the_hip; lookup_tac
        | apply run_the_host; lookup_tac
        | apply run_modify; lookup_tac
        | apply run_modify_host; lookup_tac
        | eapply run_assert_hip; lookup_tac
        | apply run_deref; lookup_tac
        | apply lift_assert_true; bool_eq
        | apply lift_Done; reflexivity
        | unfold HIPAcceleratorVector.put; reflexivity ].

Ltac tidy :=
  cbv beta;
  cbn [HIPAcceleratorVector.object_size HIPAcceleratorVector.object_index_size
       HIPAcceleratorVector.object_vec HIPAcceleratorVector.object_index_array
       HIPAcceleratorVector.size_ HIPAcceleratorVector.index_size_
       HIPAcceleratorVector.vec_ HIPAcceleratorVector.index_array_
       HIPAcceleratorVector.index_buffer_ HIPAcceleratorVector.host_buffer_
       HIPAcceleratorVector.device_buffer_ HIPAcceleratorVector.local_backend_
       HIPAcceleratorVector.set_size_ HIPAcceleratorVector.set_index_size_
       HIPAcceleratorVector.set_vec_ HIPAcceleratorVector.set_index_array_
       HIPAcceleratorVector.set_index_buffer_ HIPAcceleratorVector.set_host_buffer_
       HIPAcceleratorVector.set_device_buffer_
       HostVector.size_ HostVector.index_size_ HostVector.vec_
       HostVector.index_array_
       fst snd negb].

Ltac choose b :=
  first [ replace b with true by (symmetry; bool_eq)
        | replace b with false by (symmetry; bool_eq) ];
  cbv iota.

(** One statement of a method body. *)
Ltac step :=
  lazymatch goal with
  | |- HIPAcceleratorVector.bindM (HIPAcceleratorVector.bindM _ _) _ _ = _ =>
      rewrite bindM_assoc
  | |- HIPAcceleratorVector.bindM (HIPAcceleratorVector.ret _) _ _ = _ =>
      rewrite bindM_ret
  | |- HIPAcceleratorVector.bindM (if negb ?b then _ else _) _ _ = _ => choose b
  | |- HIPAcceleratorVector.bindM (if ?b then _ else _) _ _ = _ => choose b
  | |- (if negb ?b then _ else _) _ = _ => choose b
  | |- (if ?b then _ else _) _ = _ => choose b
  | |- HIPAcceleratorVector.bindM _ _ _ = _ => erewrite bindM_Done by primitive
  | |- HIPAcceleratorVector.modify _ _ _ = _ => erewrite run_modify by lookup_tac
  | |- HIPAcceleratorVector.modify_host _ _ _ = _ =>
      erewrite run_modify_host by lookup_tac
  | |- HIPAcceleratorVector.ret _ _ = _ => unfold HIPAcceleratorVector.ret
  end; tidy.

Section HIPVector.
Import HIPAcceleratorVector.

Variable garbage : nat -> Z.
Variable hipMemcpyAsync : buffer -> buffer -> Z -> outcome buffer.

Lemma Clear_leaves_cleared (h : gmap nat object) this v :
  h !! this = Some (Hip v) ->
  Clear this h = Done (tt, <[this := Hip (cleared v)]> h).
Proof.
  intros H. unfold Clear, cleared.
  step. cbv zeta. cbn [object_size].
  destruct (0 <? size_ v).
  - repeat step. cbn [index_size_ set_size_ set_vec_ free].
    destruct (0 <? index_size_ v).
    + repeat step. rewrite !insert_insert_eq. reflexivity.
    + unfold ret. rewrite !insert_insert_eq. reflexivity.
  - repeat step.
    destruct (0 <? index_size_ v).
    + repeat step. rewrite !insert_insert_eq. reflexivity.
    + unfold ret. rewrite insert_id by assumption. reflexivity.
Qed.

Lemma set_to_zero_allocated n :
  0 <= n ->
  set_to_zero_hip n (allocate_hip garbage n)
  = Done (Some (replicate (Z.to_nat n) 0)).
Proof.
  intros Hn. unfold set_to_zero_hip, allocate_hip.
  rewrite length_fmap, length_seq.
  destruct (Z.leb_spec n (Z.of_nat (Z.to_nat n))); [|lia].
  rewrite drop_ge by (rewrite length_fmap, length_seq; lia).
  now rewrite app_nil_r.
Qed.

Lemma Allocate_leaves_allocated (h : gmap nat object) this v n :
  h !! this = Some (Hip v) -> 0 <= n ->
  Allocate garbage this n h = Done (tt, <[this := Hip (allocated garbage n v)]> h).
Proof.
  intros H Hn. unfold Allocate.
  destruct (Z.leb_spec 0 n); [|lia]. cbn [assert].
  step. step. cbn [object_size].
  assert (exists h1, (if 0 <? size_ v then Clear this else ret tt) h
                     = Done (tt, h1)
                     /\ h1 !! this = Some (Hip (if 0 <? size_ v then cleared v else v))
                     /\ forall w, <[this := w]> h1 = <[this := w]> h)
    as (h1 & Hrun & Hthis & Hrest).
  { destruct (0 <? size_ v).
    - rewrite (Clear_leaves_cleared _ _ _ H). eexists. split; [reflexivity|].
      split; [apply lookup_insert_eq|]. intros w. apply insert_insert_eq.
    - exists h. split; [reflexivity|]. split; [assumption|reflexivity]. }
  rewrite (bindM_Done _ _ _ _ _ Hrun).
  unfold allocated. cbv zeta.
  set (v1 := if 0 <? size_ v then cleared v else v) in *.
  destruct (Z.ltb_spec 0 n).
  - step. step. cbn [vec_ set_vec_].
    erewrite bindM_Done by (apply lift_Done, set_to_zero_allocated; lia).
    repeat step.
    rewrite !insert_insert_eq, Hrest. reflexivity.
  - unfold ret. rewrite <- (insert_id h1 this _ Hthis), Hrest. reflexivity.
Qed.

Lemma holds_zero (b : buffer) : holds b 0 -> b = None.
Proof. destruct b as [c|]; simpl; [lia | reflexivity]. Qed.

Lemma holds_positive (b : buffer) (n : Z) :
  holds b n -> 0 < n -> exists c, b = Some c /\ Z.of_nat (length c) = n.
Proof. destruct b as [c|]; simpl; [|lia]. intros [_ H] _. now exists c. Qed.

Lemma valid_empty (v : t) :
  valid v -> size_ v <= 0 ->
  size_ v = 0 /\ index_size_ v = 0 /\ vec_ v = None
  /\ index_array_ v = None /\ index_buffer_ v = None.
Proof.
  intros (Hsz & Hvec & Harr & Hbuf) Hle.
  assert (size_ v = 0) as Hs by lia. assert (index_size_ v = 0) as Hi by lia.
  rewrite Hs in Hvec. rewrite Hi in Harr, Hbuf.
  repeat split; try assumption; now apply holds_zero.
Qed.

(** What a vector holds after [Allocate(n)], [0 < n]: nothing of its
    former state. *)
Lemma allocated_positive (n : Z) (v : t) :
  valid v -> 0 < n ->
  allocated garbage n v = allocated garbage n (constructed (local_backend_ v))
  /\ size_ (allocated garbage n v) = n
  /\ vec_ (allocated garbage n v) = Some (replicate (Z.to_nat n) 0)
  /\ index_size_ (allocated garbage n v) = 0
  /\ index_array_ (allocated garbage n v) = None
  /\ index_buffer_ (allocated garbage n v) = None
  /\ valid (allocated garbage n v).
Proof.
  intros Hv Hn.
  assert (allocated garbage n v
          = allocated garbage n (constructed (local_backend_ v))) as Heq.
  { unfold allocated, cleared. cbn [size_ constructed]. cbv zeta.
    destruct (Z.ltb_spec 0 n); [|lia].
    destruct (Z.ltb_spec 0 (size_ v)) as [Hpos|Hle].
    - cbn [index_size_ set_size_ set_vec_].
      destruct (Z.ltb_spec 0 (index_size_ v)) as [Hipos|Hile]; [reflexivity|].
      destruct Hv as (Hsz & _ & Harr & Hbuf).
      assert (index_size_ v = 0) as Hi by lia. rewrite Hi in Harr, Hbuf.
      apply holds_zero in Harr, Hbuf. destruct v; simpl in *. now subst.
    - destruct (valid_empty v Hv Hle) as (Hs & Hi & Hvec & Harr & Hbuf).
      destruct v; simpl in *. now subst. }
  split; [exact Heq|]. rewrite Heq.
  unfold allocated, constructed, valid, holds. cbn.
  destruct (Z.ltb_spec 0 n); [|lia]. cbn.
  rewrite length_replicate. repeat split; lia.
Qed.

Lemma allocated_zero (v : t) :
  valid v ->
  size_ (allocated garbage 0 v) = 0 /\ vec_ (allocated garbage 0 v) = None
  /\ valid (allocated garbage 0 v).
Proof.
  intros Hv. unfold allocated, cleared. cbv zeta. cbn [Z.ltb Z.compare].
  destruct (Z.ltb_spec 0 (size_ v)) as [Hpos|Hle].
  - cbn [index_size_ set_size_ set_vec_].
    destruct (Z.ltb_spec 0 (index_size_ v)); unfold valid, holds; cbn.
    + repeat split; lia.
    + destruct Hv as (Hsz & _ & Harr & Hbuf).
      assert (index_size_ v = 0) as Hi by lia. rewrite Hi in Harr, Hbuf.
      apply holds_zero in Harr, Hbuf. rewrite Harr, Hbuf.
      repeat split; lia.
  - destruct (valid_empty v Hv Hle) as (Hs & Hi & Hvec & Harr & Hbuf).
    split; [|split]; assumption.
Qed.

Lemma valid_wellformed (v : t) : valid v -> wellformed v.
Proof. intros (_ & Hvec & Harr & Hbuf). repeat split; assumption. Qed.

Lemma wellformed_valid (v : t) :
  wellformed v -> index_size_ v <= size_ v -> valid v.
Proof.
  intros (Hvec & Harr & Hbuf) Hle.
  assert (0 <= index_size_ v)
    by (destruct (index_array_ v); cbn [holds] in Harr; lia).
  repeat split; (assumption || lia).
Qed.

Lemma wellformed_sizes (v : t) :
  wellformed v -> 0 <= size_ v /\ 0 <= index_size_ v.
Proof.
  intros (Hvec & Harr & _).
  destruct (vec_ v), (index_array_ v); cbn [holds] in *; lia.
Qed.

(** What a vector holds after [Allocate(n)], [0 < n]: [n] zeros; nothing
    of its index array when it was not empty, and the index array it had
    when it was. *)
Lemma allocated_of_wellformed (n : Z) (v : t) :
  wellformed v -> 0 < n ->
  size_ (allocated garbage n v) = n
  /\ vec_ (allocated garbage n v) = Some (replicate (Z.to_nat n) 0)
  /\ (0 < size_ v ->
        index_size_ (allocated garbage n v) = 0
        /\ index_array_ (allocated garbage n v) = None
        /\ index_buffer_ (allocated garbage n v) = None)
  /\ (size_ v = 0 ->
        index_size_ (allocated garbage n v) = index_size_ v
        /\ index_array_ (allocated garbage n v) = index_array_ v
        /\ index_buffer_ (allocated garbage n v) = index_buffer_ v)
  /\ wellformed (allocated garbage n v).
Proof.
  intros Hv Hn. destruct (wellformed_sizes v Hv) as [Hsz Hisz].
  destruct Hv as (Hvec & Harr & Hbuf).
  unfold allocated, cleared, wellformed. cbv zeta.
  destruct (Z.ltb_spec 0 n); [|lia].
  destruct (Z.ltb_spec 0 (size_ v)) as [Hpos|Hle]; tidy.
  - destruct (Z.ltb_spec 0 (index_size_ v)) as [Hipos|Hile]; tidy.
    + cbn [holds]. rewrite length_replicate.
      repeat split; (reflexivity || lia).
    + assert (index_size_ v = 0) as H0 by lia. rewrite H0 in *.
      pose proof (holds_zero _ Harr) as ->. pose proof (holds_zero _ Hbuf) as ->.
      cbn [holds]. rewrite length_replicate.
      repeat split; (reflexivity || lia).
  - cbn [holds]. rewrite length_replicate.
    repeat split; (reflexivity || assumption || lia).
Qed.

Lemma allocated_zero_of_wellformed (v : t) :
  wellformed v ->
  size_ (allocated garbage 0 v) = 0 /\ vec_ (allocated garbage 0 v) = None
  /\ wellformed (allocated garbage 0 v).
Proof.
  intros Hv. destruct (wellformed_sizes v Hv) as [Hsz Hisz].
  destruct Hv as (Hvec & Harr & Hbuf).
  unfold allocated, cleared, wellformed. cbv zeta. cbn [Z.ltb Z.compare].
  destruct (Z.ltb_spec 0 (size_ v)) as [Hpos|Hle]; tidy.
  - destruct (Z.ltb_spec 0 (index_size_ v)) as [Hipos|Hile]; tidy.
    + cbn [holds]. repeat split; (reflexivity || lia).
    + assert (index_size_ v = 0) as H0 by lia. rewrite H0 in *.
      pose proof (holds_zero _ Harr) as ->. pose proof (holds_zero _ Hbuf) as ->.
      cbn [holds]. repeat split; (reflexivity || lia).
  - assert (size_ v = 0) as H0 by lia. rewrite H0 in *.
    pose proof (holds_zero _ Hvec) as Hnone. rewrite Hnone in *.
    repeat split; (reflexivity || assumption).
Qed.

(** What a vector holds after [Allocate(n)], whatever it held before. *)
Lemma allocated_members (n : Z) (v : t) :
  (0 < n ->
     size_ (allocated garbage n v) = n
     /\ vec_ (allocated garbage n v) = Some (replicate (Z.to_nat n) 0))
  /\ (n <= 0 -> 0 < size_ v ->
        size_ (allocated garbage n v) = 0 /\ vec_ (allocated garbage n v) = None)
  /\ (n <= 0 -> size_ v <= 0 -> allocated garbage n v = v)
  /\ (0 < size_ v -> 0 < index_size_ v ->
        index_size_ (allocated garbage n v) = 0
        /\ index_array_ (allocated garbage n v) = None
        /\ index_buffer_ (allocated garbage n v) = None)
  /\ (size_ v <= 0 \/ index_size_ v <= 0 ->
        index_size_ (allocated garbage n v) = index_size_ v
        /\ index_array_ (allocated garbage n v) = index_array_ v
        /\ index_buffer_ (allocated garbage n v) = index_buffer_ v).
Proof.
  unfold allocated, cleared. cbv zeta.
  destruct (Z.ltb_spec 0 n) as [Hn|Hn];
    destruct (Z.ltb_spec 0 (size_ v)) as [Hpos|Hle]; tidy;
    try (destruct (Z.ltb_spec 0 (index_size_ v)) as [Hipos|Hile]; tidy);
    repeat split; intros; try reflexivity; try lia;
    repeat match goal with H : _ \/ _ |- _ => destruct H end; lia.
Qed.

(** C8, as the code has it.  Whatever the state of the vector:
    [Allocate(n)] with a negative [n] ends in a failed assertion;
    [Allocate(0)] leaves a vector that was not empty with size 0 and
    without a data buffer, and an empty vector as it is, and an
    [Allocate] of a positive size returns after it; [Allocate(n)] with
    [0 < n] leaves a vector of size [n] whose [n] elements are 0.  It
    clears a vector that is not empty, its index array included; it does
    not clear an empty vector, which keeps the index array it has. *)
Theorem Allocate_contract (h : gmap nat object) (this : nat) (v : t) :
  h !! this = Some (Hip v) ->
  (forall n, n < 0 -> Allocate garbage this n h = Fatal AssertionFailed)
  /\ (exists v0,
        Allocate garbage this 0 h = Done (tt, <[this := Hip v0]> h)
        /\ (0 < size_ v -> size_ v0 = 0 /\ vec_ v0 = None)
        /\ (size_ v <= 0 -> v0 = v)
        /\ forall m, 0 < m ->
             exists v',
               Allocate garbage this m (<[this := Hip v0]> h)
               = Done (tt, <[this := Hip v']> h)
               /\ size_ v' = m
               /\ vec_ v' = Some (replicate (Z.to_nat m) 0))
  /\ (forall n, 0 < n ->
        exists v',
          Allocate garbage this n h = Done (tt, <[this := Hip v']> h)
          /\ size_ v' = n
          /\ vec_ v' = Some (replicate (Z.to_nat n) 0)
          /\ (0 < size_ v -> 0 < index_size_ v ->
                index_size_ v' = 0 /\ index_array_ v' = None
                /\ index_buffer_ v' = None)
          /\ (size_ v <= 0 \/ index_size_ v <= 0 ->
                index_size_ v' = index_size_ v
                /\ index_array_ v' = index_array_ v
                /\ index_buffer_ v' = index_buffer_ v)).
Proof.
  intros Hthis. split; [|split].
  - intros n Hn. unfold Allocate.
    destruct (Z.leb_spec 0 n); [lia|]. reflexivity.
  - exists (allocated garbage 0 v).
    destruct (allocated_members 0 v) as (_ & Hemptied & Hsame & _).
    split; [apply Allocate_leaves_allocated; [assumption|lia]|].
    split; [apply Hemptied; lia|]. split; [apply Hsame; lia|].
    intros m Hm. exists (allocated garbage m (allocated garbage 0 v)).
    destruct (allocated_members m (allocated garbage 0 v)) as (Hzeros & _).
    split; [|apply Hzeros; assumption].
    rewrite (Allocate_leaves_allocated _ this (allocated garbage 0 v) m);
      [ | apply lookup_insert_eq | lia ].
    now rewrite insert_insert_eq.
  - intros n Hn. exists (allocated garbage n v).
    destruct (allocated_members n v) as (Hzeros & _ & _ & Hcleared & Hkept).
    split; [apply Allocate_leaves_allocated; [assumption|lia]|].
    destruct (Hzeros Hn) as [Hs Hvec].
    repeat (split; [assumption|]). assumption.
Qed.

Lemma allocated_nothing (n : Z) (v : t) :
  n <= 0 -> size_ v <= 0 -> allocated garbage n v = v.
Proof.
  intros Hn H. unfold allocated. cbv zeta.
  destruct (Z.ltb_spec 0 (size_ v)); [lia|].
  destruct (Z.ltb_spec 0 n); [lia|]. reflexivity.
Qed.

(** Run a method body, calls of [Allocate] included. *)
Ltac run :=
  repeat first
    [ step
    | erewrite bindM_Done
        by (apply Allocate_leaves_allocated; [lookup_tac | lia]) ].

(** C10, as the code has it.  A vector that is not empty, or that has
    no index array, is left as it is by [CopyFrom] with itself as the
    source and by [CopyTo] with itself as the destination: sizes, element
    data and index buffer are unchanged.  On an empty vector that still
    has an index array both end in a failed assertion. *)
Theorem self_copy_is_identity (h : gmap nat object) (this : nat) (v : t) :
  h !! this = Some (Hip v) ->
  (size_ v <> 0 \/ index_size_ v = 0 ->
     CopyFrom garbage this this h = Done (tt, h)
     /\ CopyTo garbage this this h = Done (tt, h))
  /\ (size_ v = 0 -> index_size_ v <> 0 ->
        CopyFrom garbage this this h = Fatal AssertionFailed
        /\ CopyTo garbage this this h = Fatal AssertionFailed).
Proof.
  intros Hthis. split.
  - intros Hstate.
    destruct (Z.eqb_spec (size_ v) 0) as [Hempty|Hfull].
    + assert (index_size_ v = 0) as Hi by (destruct Hstate; [lia|assumption]).
      split.
      * unfold CopyFrom. repeat step.
        erewrite bindM_Done by (apply Allocate_leaves_allocated; [eassumption|lia]).
        rewrite allocated_nothing, insert_id by (assumption || lia).
        repeat step. reflexivity.
      * unfold CopyTo. repeat step.
        erewrite bindM_Done by (apply Allocate_leaves_allocated; [eassumption|lia]).
        rewrite allocated_nothing, insert_id by (assumption || lia).
        repeat step. reflexivity.
    + split.
      * unfold CopyFrom. repeat step. reflexivity.
      * unfold CopyTo. repeat step. reflexivity.
  - intros Hempty Hindex. split.
    + unfold CopyFrom. repeat step.
      erewrite bindM_Done by (apply Allocate_leaves_allocated; [eassumption|lia]).
      rewrite allocated_nothing, insert_id by (assumption || lia).
      repeat step.
      erewrite bindM_Fatal by (apply lift_assert_false; bool_eq). reflexivity.
    + unfold CopyTo. repeat step.
      erewrite bindM_Done by (apply Allocate_leaves_allocated; [eassumption|lia]).
      rewrite allocated_nothing, insert_id by (assumption || lia).
      repeat step.
      erewrite bindM_Fatal by (apply lift_assert_false; bool_eq). reflexivity.
Qed.

(** C9.  When the source is a HIP vector, [CopyFromAsync] ends as
    [CopyFrom] does, with the same heap; when the destination is a HIP
    vector, [CopyToAsync] ends as [CopyTo] does. *)
Theorem async_copy_on_device_is_copy (h : gmap nat object) (this other : nat)
    (o : t) :
  h !! other = Some (Hip o) ->
  CopyFromAsync garbage hipMemcpyAsync this other h = CopyFrom garbage this other h
  /\ CopyToAsync garbage hipMemcpyAsync this other h = CopyTo garbage this other h.
Proof.
  intros Hother. split.
  - unfold CopyFromAsync, CopyFrom.
    rewrite !(bindM_Done _ _ _ _ _ (run_deref _ _ _ Hother)). reflexivity.
  - unfold CopyToAsync, CopyTo.
    rewrite !(bindM_Done _ _ _ _ _ (run_deref _ _ _ Hother)). reflexivity.
Qed.

Lemma hipMemcpy_nothing (dst src : buffer) : hipMemcpy dst src 0 = Done dst.
Proof. reflexivity. Qed.

Lemma hipMemcpy_whole (d s : list Z) (n : Z) :
  0 < n -> Z.of_nat (length d) = n -> Z.of_nat (length s) = n ->
  hipMemcpy (Some d) (Some s) n = Done (Some s).
Proof.
  intros Hn Hd Hs. unfold hipMemcpy.
  destruct (Z.eqb_spec n 0); [lia|].
  destruct (Z.ltb_spec 0 n); [|lia].
  destruct (Z.leb_spec n (Z.of_nat (length d))); [|lia].
  destruct (Z.leb_spec n (Z.of_nat (length s))); [|lia].
  cbn [andb]. rewrite take_ge, drop_ge by lia. now rewrite app_nil_r.
Qed.

(** A transfer of [n] cells into a block of [n] cells from a buffer that
    holds [n] cells leaves the source's contents. *)
Lemma hipMemcpy_holds (dst src : buffer) (n : Z) :
  holds dst n -> holds src n -> hipMemcpy dst src n = Done src.
Proof.
  intros Hd Hs. destruct (Z.eq_dec n 0) as [->|Hn].
  - apply holds_zero in Hd, Hs. now subst.
  - destruct dst as [d|], src as [s|]; simpl in Hd, Hs; try lia.
    apply hipMemcpy_whole; lia.
Qed.

Lemma holds_allocate_hip (n : Z) : 0 < n -> holds (allocate_hip garbage n) n.
Proof.
  intros Hn. unfold allocate_hip, holds.
  rewrite length_fmap, length_seq. lia.
Qed.

Lemma holds_zeros (n : Z) : 0 < n -> holds (Some (replicate (Z.to_nat n) 0)) n.
Proof. intros Hn. unfold holds. rewrite length_replicate. lia. Qed.

Ltac holds_tac :=
  first [ apply holds_allocate_hip; lia
        | apply holds_zeros; lia
        | match goal with
          | H : holds ?b ?m |- holds ?b ?n => replace n with m by lia; exact H
          end
        | solve [cbn [holds]; lia] ].

(** A transfer between buffers of the size transferred. *)
Ltac transfer :=
  erewrite bindM_Done by (apply lift_Done, hipMemcpy_holds; holds_tac); tidy.

(** An assertion that does not hold. *)
Ltac failed_assertion :=
  erewrite bindM_Fatal by (apply lift_assert_false; bool_eq); reflexivity.

Ltac run_all :=
  repeat first
    [ step
    | transfer
    | erewrite bindM_Done
        by (apply Allocate_leaves_allocated; [lookup_tac | lia]) ].

Lemma valid_parts (v : t) :
  valid v ->
  0 <= index_size_ v <= size_ v /\ holds (vec_ v) (size_ v)
  /\ holds (index_array_ v) (index_size_ v)
  /\ holds (index_buffer_ v) (index_size_ v).
Proof. trivial. Qed.

Ltac valid_tac :=
  unfold valid; tidy; repeat split; first [lia | holds_tac].

(** [CopyFrom], device to device, into an empty vector. *)
Lemma CopyFrom_device_into_empty (h : gmap nat object) this src d s :
  h !! this = Some (Hip d) -> h !! src = Some (Hip s) -> this <> src ->
  valid d -> valid s -> size_ d = 0 ->
  exists d', CopyFrom garbage this src h = Done (tt, <[this := Hip d']> h)
    /\ size_ d' = size_ s /\ vec_ d' = vec_ s
    /\ index_size_ d' = index_size_ s /\ index_array_ d' = index_array_ s
    /\ valid d'.
Proof.
  intros Hthis Hsrc Hne Hd Hs Hempty.
  destruct (valid_empty d Hd) as (_ & Hdi & Hdv & Hda & Hdb); [lia|].
  destruct (Z.le_gt_cases (size_ s) 0) as [Hs0|Hspos].
  - destruct (valid_empty s Hs Hs0) as (Hss & Hsi & Hsv & Hsa & Hsb).
    exists d. split.
    + unfold CopyFrom. run.
      rewrite allocated_nothing, insert_id by (assumption || lia).
      run. reflexivity.
    + repeat split; try congruence; apply Hd.
  - destruct (allocated_positive (size_ s) d Hd)
      as (_ & Hd1s & Hd1v & Hd1i & Hd1a & Hd1b & Hd1); [lia|].
    remember (allocated garbage (size_ s) d) as d1 eqn:E.
    destruct (valid_parts s Hs) as (Hsr & Hsvec & Hsarr & Hsbuf).
    destruct (valid_parts d1 Hd1) as (Hdr & Hdvec & Hdarr & Hdbuf).
    destruct (Z.le_gt_cases (index_size_ s) 0) as [Hi0|Hipos];
      (eexists; split;
       [ unfold CopyFrom; run; rewrite <- E; run_all;
         rewrite !insert_insert_eq; reflexivity
       | tidy; repeat (split; [reflexivity || lia|]); valid_tac ]).
Qed.

(** [CopyFrom], device to device, into a vector that is not empty and
    whose sizes are not those of the source. *)
Lemma CopyFrom_device_mismatch (h : gmap nat object) this src d s :
  h !! this = Some (Hip d) -> h !! src = Some (Hip s) ->
  size_ d <> 0 ->
  size_ d <> size_ s \/ index_size_ d <> index_size_ s ->
  CopyFrom garbage this src h = Fatal AssertionFailed.
Proof.
  intros Hthis Hsrc Hfull Hdiff. unfold CopyFrom. run.
  destruct (Z.eq_dec (size_ d) (size_ s)) as [Heq|Hne].
  - run. failed_assertion.
  - failed_assertion.
Qed.

Lemma valid_host_parts (v : HostVector.t) :
  valid_host v ->
  0 <= HostVector.index_size_ v <= HostVector.size_ v
  /\ holds (HostVector.vec_ v) (HostVector.size_ v)
  /\ holds (HostVector.index_array_ v) (HostVector.index_size_ v).
Proof. trivial. Qed.

Lemma valid_host_empty (v : HostVector.t) :
  valid_host v -> HostVector.size_ v <= 0 ->
  HostVector.size_ v = 0 /\ HostVector.index_size_ v = 0
  /\ HostVector.vec_ v = None /\ HostVector.index_array_ v = None.
Proof.
  intros (Hsz & Hvec & Harr) Hle.
  assert (HostVector.size_ v = 0) as Hs by lia.
  assert (HostVector.index_size_ v = 0) as Hi by lia.
  rewrite Hs in Hvec. rewrite Hi in Harr.
  repeat split; try assumption; now apply holds_zero.
Qed.

(** [CopyFrom], host to device, into an empty vector. *)
Lemma CopyFrom_host_into_empty (h : gmap nat object) this src d s :
  h !! this = Some (Hip d) -> h !! src = Some (Host s) ->
  valid d -> valid_host s -> size_ d = 0 ->
  exists d', CopyFrom garbage this src h = Done (tt, <[this := Hip d']> h)
    /\ size_ d' = HostVector.size_ s /\ vec_ d' = HostVector.vec_ s
    /\ index_size_ d' = HostVector.index_size_ s
    /\ index_array_ d' = HostVector.index_array_ s
    /\ valid d'.
Proof.
  intros Hthis Hsrc Hd Hs Hempty.
  assert (this <> src) as Hne by congruence.
  destruct (valid_empty d Hd) as (_ & Hdi & Hdv & Hda & Hdb); [lia|].
  destruct (Z.le_gt_cases (HostVector.size_ s) 0) as [Hs0|Hspos].
  - destruct (valid_host_empty s Hs Hs0) as (Hss & Hsi & Hsv & Hsa).
    exists d. split.
    + unfold CopyFrom. step. unfold CopyFromHost, CopyFromHost_with. run.
      rewrite allocated_nothing, insert_id by (assumption || lia).
      run. reflexivity.
    + repeat split; try congruence; apply Hd.
  - destruct (allocated_positive (HostVector.size_ s) d Hd)
      as (_ & Hd1s & Hd1v & Hd1i & Hd1a & Hd1b & Hd1); [lia|].
    remember (allocated garbage (HostVector.size_ s) d) as d1 eqn:E.
    destruct (valid_host_parts s Hs) as (Hsr & Hsvec & Hsarr).
    destruct (valid_parts d1 Hd1) as (Hdr & Hdvec & Hdarr & Hdbuf).
    destruct (Z.le_gt_cases (HostVector.index_size_ s) 0) as [Hi0|Hipos];
      (eexists; split;
       [ unfold CopyFrom; step; unfold CopyFromHost, CopyFromHost_with;
         run; rewrite <- E; run_all;
         rewrite !insert_insert_eq; reflexivity
       | tidy; repeat (split; [reflexivity || lia|]); valid_tac ]).
Qed.

Lemma CopyFrom_host_mismatch (h : gmap nat object) this src d s :
  h !! this = Some (Hip d) -> h !! src = Some (Host s) ->
  size_ d <> 0 ->
  size_ d <> HostVector.size_ s \/ index_size_ d <> HostVector.index_size_ s ->
  CopyFrom garbage this src h = Fatal AssertionFailed.
Proof.
  intros Hthis Hsrc Hfull Hdiff.
  unfold CopyFrom. step. unfold CopyFromHost, CopyFromHost_with. run.
  destruct (Z.eq_dec (size_ d) (HostVector.size_ s)) as [Heq|Hne].
  - run. failed_assertion.
  - failed_assertion.
Qed.

(** [CopyTo], device to device, into an empty vector. *)
Lemma CopyTo_device_into_empty (h : gmap nat object) this dst v d :
  h !! this = Some (Hip v) -> h !! dst = Some (Hip d) -> this <> dst ->
  valid v -> valid d -> size_ d = 0 ->
  exists d', CopyTo garbage this dst h = Done (tt, <[dst := Hip d']> h)
    /\ size_ d' = size_ v /\ vec_ d' = vec_ v
    /\ index_size_ d' = index_size_ v /\ index_array_ d' = index_array_ v
    /\ valid d'.
Proof.
  intros Hthis Hdst Hne Hv Hd Hempty.
  destruct (valid_empty d Hd) as (_ & Hdi & Hdv & Hda & Hdb); [lia|].
  destruct (Z.le_gt_cases (size_ v) 0) as [Hs0|Hspos].
  - destruct (valid_empty v Hv Hs0) as (Hss & Hsi & Hsv & Hsa & Hsb).
    exists d. split.
    + unfold CopyTo. run.
      rewrite allocated_nothing, insert_id by (assumption || lia).
      run. reflexivity.
    + repeat split; try congruence; apply Hd.
  - destruct (allocated_positive (size_ v) d Hd)
      as (_ & Hd1s & Hd1v & Hd1i & Hd1a & Hd1b & Hd1); [lia|].
    remember (allocated garbage (size_ v) d) as d1 eqn:E.
    destruct (valid_parts v Hv) as (Hsr & Hsvec & Hsarr & Hsbuf).
    destruct (valid_parts d1 Hd1) as (Hdr & Hdvec & Hdarr & Hdbuf).
    destruct (Z.le_gt_cases (index_size_ v) 0) as [Hi0|Hipos];
      (eexists; split;
       [ unfold CopyTo; run; rewrite <- E; run_all;
         rewrite !insert_insert_eq; reflexivity
       | tidy; repeat (split; [reflexivity || lia|]); valid_tac ]).
Qed.

Lemma CopyTo_device_mismatch (h : gmap nat object) this dst v d :
  h !! this = Some (Hip v) -> h !! dst = Some (Hip d) ->
  size_ d <> 0 ->
  size_ d <> size_ v \/ index_size_ d <> index_size_ v ->
  CopyTo garbage this dst h = Fatal AssertionFailed.
Proof.
  intros Hthis Hdst Hfull Hdiff. unfold CopyTo. run.
  destruct (Z.eq_dec (size_ d) (size_ v)) as [Heq|Hne].
  - run. failed_assertion.
  - failed_assertion.
Qed.

Lemma holds_allocate_host (n : Z) : 0 < n -> holds (allocate_host garbage n) n.
Proof.
  intros Hn. unfold allocate_host, HostVector.allocate_host, holds.
  rewrite length_fmap, length_seq. lia.
Qed.

Lemma host_Allocate_positive (c : HostVector.t) (n : Z) :
  0 < n ->
  HostVector.Allocate c n
  = Done {| HostVector.size_ := n; HostVector.index_size_ := 0;
            HostVector.vec_ := Some (replicate (Z.to_nat n) 0);
            HostVector.index_array_ := None |}.
Proof.
  intros Hn. unfold HostVector.Allocate.
  destruct (Z.leb_spec 0 n); [|lia]. destruct (Z.ltb_spec 0 n); [|lia].
  reflexivity.
Qed.

Lemma host_Allocate_nothing (c : HostVector.t) (n : Z) :
  valid_host c -> HostVector.size_ c = 0 -> n = 0 ->
  HostVector.Allocate c n = Done c.
Proof.
  intros Hc Hempty ->.
  destruct (valid_host_empty c Hc) as (Hs & Hi & Hvec & Harr); [lia|].
  destruct c; simpl in *. subst. reflexivity.
Qed.

(** [CopyTo], device to host, into an empty vector. *)
Lemma CopyTo_host_into_empty (h : gmap nat object) this dst v d :
  h !! this = Some (Hip v) -> h !! dst = Some (Host d) ->
  valid v -> valid_host d -> HostVector.size_ d = 0 ->
  exists d', CopyTo garbage this dst h = Done (tt, <[dst := Host d']> h)
    /\ HostVector.size_ d' = size_ v /\ HostVector.vec_ d' = vec_ v
    /\ HostVector.index_size_ d' = index_size_ v
    /\ HostVector.index_array_ d' = index_array_ v
    /\ valid_host d'.
Proof.
  intros Hthis Hdst Hv Hd Hempty.
  assert (this <> dst) as Hne by congruence.
  destruct (valid_host_empty d Hd) as (_ & Hdi & Hdv & Hda); [lia|].
  destruct (Z.le_gt_cases (size_ v) 0) as [Hs0|Hspos].
  - destruct (valid_empty v Hv Hs0) as (Hss & Hsi & Hsv & Hsa & Hsb).
    exists d. split.
    + unfold CopyTo. step. unfold CopyToHost, CopyToHost_with. run.
      erewrite bindM_Done
        by (apply lift_Done, host_Allocate_nothing; assumption).
      run. rewrite ?insert_insert_eq. reflexivity.
    + repeat split; try congruence; apply Hd.
  - destruct (valid_parts v Hv) as (Hsr & Hsvec & Hsarr & Hsbuf).
    destruct (Z.le_gt_cases (index_size_ v) 0) as [Hi0|Hipos];
      (eexists; split;
       [ unfold CopyTo; step; unfold CopyToHost, CopyToHost_with; run;
         erewrite bindM_Done
           by (apply lift_Done, host_Allocate_positive; lia);
         run_all;
         try (erewrite bindM_Done
                by (apply lift_Done, hipMemcpy_holds;
                    first [apply holds_allocate_host; lia | holds_tac]);
              tidy; run_all);
         rewrite !insert_insert_eq; reflexivity
       | tidy; repeat (split; [reflexivity || lia|]);
         unfold valid_host; tidy; repeat split; first [lia | holds_tac] ]).
Qed.

Lemma CopyTo_host_mismatch (h : gmap nat object) this dst v d :
  h !! this = Some (Hip v) -> h !! dst = Some (Host d) ->
  HostVector.size_ d <> 0 ->
  HostVector.size_ d <> size_ v \/ HostVector.index_size_ d <> index_size_ v ->
  CopyTo garbage this dst h = Fatal AssertionFailed.
Proof.
  intros Hthis Hdst Hfull Hdiff.
  unfold CopyTo. step. unfold CopyToHost, CopyToHost_with. run.
  destruct (Z.eq_dec (HostVector.size_ d) (size_ v)) as [Heq|Hne].
  - run. failed_assertion.
  - failed_assertion.
Qed.

(** The same on vectors of which only the arrays are known to be as long
    as the sizes say: an empty destination without index array, a source
    that is not empty or has no index array. *)
Ltac wellformed_tac :=
  unfold wellformed, wellformed_host; tidy; repeat split; first [lia | holds_tac].

Lemma wellformed_none (v : t) :
  wellformed v -> size_ v = 0 -> index_size_ v = 0 ->
  vec_ v = None /\ index_array_ v = None /\ index_buffer_ v = None /\ valid v.
Proof.
  intros Hv Hs Hi. pose proof (wellformed_valid v Hv) as Hvalid.
  destruct Hv as (Hvec & Harr & Hbuf). rewrite Hs in Hvec. rewrite Hi in Harr, Hbuf.
  split; [|split; [|split]]; try (now apply holds_zero). apply Hvalid. lia.
Qed.

Lemma wellformed_host_none (v : HostVector.t) :
  wellformed_host v -> HostVector.size_ v = 0 -> HostVector.index_size_ v = 0 ->
  HostVector.vec_ v = None /\ HostVector.index_array_ v = None /\ valid_host v.
Proof.
  intros (Hvec & Harr) Hs Hi. unfold valid_host.
  rewrite Hs in *. rewrite Hi in *.
  split; [|split; [|split; [|split]]];
    try (now apply holds_zero); (assumption || lia).
Qed.

Lemma wellformed_host_sizes (v : HostVector.t) :
  wellformed_host v -> 0 <= HostVector.size_ v /\ 0 <= HostVector.index_size_ v.
Proof.
  intros (Hvec & Harr).
  destruct (HostVector.vec_ v), (HostVector.index_array_ v); cbn [holds] in *; lia.
Qed.

Lemma CopyFrom_device_allocates (h : gmap nat object) this src d s :
  h !! this = Some (Hip d) -> h !! src = Some (Hip s) -> this <> src ->
  wellformed d -> wellformed s ->
  size_ d = 0 -> index_size_ d = 0 -> (size_ s = 0 -> index_size_ s = 0) ->
  exists d', CopyFrom garbage this src h = Done (tt, <[this := Hip d']> h)
    /\ size_ d' = size_ s /\ vec_ d' = vec_ s
    /\ index_size_ d' = index_size_ s /\ index_array_ d' = index_array_ s
    /\ holds (index_buffer_ d') (index_size_ s)
    /\ wellformed d'.
Proof.
  intros Hthis Hsrc Hne Hd Hs Hempty Hnoindex Hsource.
  destruct (wellformed_none d Hd Hempty Hnoindex) as (Hdv & Hda & Hdb & Hvalid).
  destruct (wellformed_sizes s Hs) as [Hssz Hsisz].
  destruct (Z.le_gt_cases (size_ s) 0) as [Hs0|Hspos].
  - assert (size_ s = 0) as Hss by lia. pose proof (Hsource Hss) as Hsi.
    destruct (wellformed_none s Hs Hss Hsi) as (Hsv & Hsa & Hsb & _).
    exists d. split.
    + unfold CopyFrom. run.
      rewrite allocated_nothing, insert_id by (assumption || lia).
      run. reflexivity.
    + rewrite Hdb, Hsi. cbn [holds].
      repeat split; try congruence; apply Hd.
  - destruct (allocated_positive (size_ s) d Hvalid)
      as (_ & Hd1s & Hd1v & Hd1i & Hd1a & Hd1b & Hd1); [lia|].
    remember (allocated garbage (size_ s) d) as d1 eqn:E.
    destruct Hs as (Hsvec & Hsarr & Hsbuf).
    destruct (valid_parts d1 Hd1) as (Hdr & Hdvec & Hdarr & Hdbuf).
    destruct (Z.le_gt_cases (index_size_ s) 0) as [Hi0|Hipos];
      (eexists; split;
       [ unfold CopyFrom; run; rewrite <- E; run_all;
         rewrite !insert_insert_eq; reflexivity
       | tidy; repeat (split; [reflexivity || lia|]);
         split; [holds_tac | wellformed_tac] ]).
Qed.

Lemma CopyFrom_host_allocates (h : gmap nat object) this src d s :
  h !! this = Some (Hip d) -> h !! src = Some (Host s) ->
  wellformed d -> wellformed_host s ->
  size_ d = 0 -> index_size_ d = 0 ->
  (HostVector.size_ s = 0 -> HostVector.index_size_ s = 0) ->
  exists d', CopyFrom garbage this src h = Done (tt, <[this := Hip d']> h)
    /\ size_ d' = HostVector.size_ s /\ vec_ d' = HostVector.vec_ s
    /\ index_size_ d' = HostVector.index_size_ s
    /\ index_array_ d' = HostVector.index_array_ s
    /\ holds (index_buffer_ d') (HostVector.index_size_ s)
    /\ wellformed d'.
Proof.
  intros Hthis Hsrc Hd Hs Hempty Hnoindex Hsource.
  assert (this <> src) as Hne by congruence.
  destruct (wellformed_none d Hd Hempty Hnoindex) as (Hdv & Hda & Hdb & Hvalid).
  destruct (wellformed_host_sizes s Hs) as [Hssz Hsisz].
  destruct (Z.le_gt_cases (HostVector.size_ s) 0) as [Hs0|Hspos].
  - assert (HostVector.size_ s = 0) as Hss by lia. pose proof (Hsource Hss) as Hsi.
    destruct (wellformed_host_none s Hs Hss Hsi) as (Hsv & Hsa & _).
    exists d. split.
    + unfold CopyFrom. step. unfold CopyFromHost, CopyFromHost_with. run.
      rewrite allocated_nothing, insert_id by (assumption || lia).
      run. reflexivity.
    + rewrite Hdb, Hsi. cbn [holds].
      repeat split; try congruence; apply Hd.
  - destruct (allocated_positive (HostVector.size_ s) d Hvalid)
      as (_ & Hd1s & Hd1v & Hd1i & Hd1a & Hd1b & Hd1); [lia|].
    remember (allocated garbage (HostVector.size_ s) d) as d1 eqn:E.
    destruct Hs as (Hsvec & Hsarr).
    destruct (valid_parts d1 Hd1) as (Hdr & Hdvec & Hdarr & Hdbuf).
    destruct (Z.le_gt_cases (HostVector.index_size_ s) 0) as [Hi0|Hipos];
      (eexists; split;
       [ unfold CopyFrom; step; unfold CopyFromHost, CopyFromHost_with;
         run; rewrite <- E; run_all;
         rewrite !insert_insert_eq; reflexivity
       | tidy; repeat (split; [reflexivity || lia|]);
         split; [holds_tac | wellformed_tac] ]).
Qed.

Lemma CopyTo_device_allocates (h : gmap nat object) this dst v d :
  h !! this = Some (Hip v) -> h !! dst = Some (Hip d) -> this <> dst ->
  wellformed v -> wellformed d ->
  size_ d = 0 -> index_size_ d = 0 -> (size_ v = 0 -> index_size_ v = 0) ->
  exists d', CopyTo garbage this dst h = Done (tt, <[dst := Hip d']> h)
    /\ size_ d' = size_ v /\ vec_ d' = vec_ v
    /\ index_size_ d' = index_size_ v /\ index_array_ d' = index_array_ v
    /\ wellformed d'.
Proof.
  intros Hthis Hdst Hne Hv Hd Hempty Hnoindex Hsource.
  destruct (wellformed_none d Hd Hempty Hnoindex) as (Hdv & Hda & Hdb & Hvalid).
  destruct (wellformed_sizes v Hv) as [Hssz Hsisz].
  destruct (Z.le_gt_cases (size_ v) 0) as [Hs0|Hspos].
  - assert (size_ v = 0) as Hss by lia. pose proof (Hsource Hss) as Hsi.
    destruct (wellformed_none v Hv Hss Hsi) as (Hsv & Hsa & Hsb & _).
    exists d. split.
    + unfold CopyTo. run.
      rewrite allocated_nothing, insert_id by (assumption || lia).
      run. reflexivity.
    + repeat split; try congruence; apply Hd.
  - destruct (allocated_positive (size_ v) d Hvalid)
      as (_ & Hd1s & Hd1v & Hd1i & Hd1a & Hd1b & Hd1); [lia|].
    remember (allocated garbage (size_ v) d) as d1 eqn:E.
    destruct Hv as (Hsvec & Hsarr & Hsbuf).
    destruct (valid_parts d1 Hd1) as (Hdr & Hdvec & Hdarr & Hdbuf).
    destruct (Z.le_gt_cases (index_size_ v) 0) as [Hi0|Hipos];
      (eexists; split;
       [ unfold CopyTo; run; rewrite <- E; run_all;
         rewrite !insert_insert_eq; reflexivity
       | tidy; repeat (split; [reflexivity || lia|]); wellformed_tac ]).
Qed.

Lemma CopyTo_host_allocates (h : gmap nat object) this dst v d :
  h !! this = Some (Hip v) -> h !! dst = Some (Host d) ->
  wellformed v -> wellformed_host d ->
  HostVector.size_ d = 0 -> HostVector.index_size_ d = 0 ->
  (size_ v = 0 -> index_size_ v = 0) ->
  exists d', CopyTo garbage this dst h = Done (tt, <[dst := Host d']> h)
    /\ HostVector.size_ d' = size_ v /\ HostVector.vec_ d' = vec_ v
    /\ HostVector.index_size_ d' = index_size_ v
    /\ HostVector.index_array_ d' = index_array_ v
    /\ wellformed_host d'.
Proof.
  intros Hthis Hdst Hv Hd Hempty Hnoindex Hsource.
  assert (this <> dst) as Hne by congruence.
  destruct (wellformed_host_none d Hd Hempty Hnoindex) as (Hdv & Hda & Hvalid).
  destruct (wellformed_sizes v Hv) as [Hssz Hsisz].
  destruct (Z.le_gt_cases (size_ v) 0) as [Hs0|Hspos].
  - assert (size_ v = 0) as Hss by lia. pose proof (Hsource Hss) as Hsi.
    destruct (wellformed_none v Hv Hss Hsi) as (Hsv & Hsa & Hsb & _).
    exists d. split.
    + unfold CopyTo. step. unfold CopyToHost, CopyToHost_with. run.
      erewrite bindM_Done
        by (apply lift_Done, host_Allocate_nothing; assumption).
      run. rewrite ?insert_insert_eq. reflexivity.
    + repeat split; try congruence; apply Hd.
  - destruct Hv as (Hsvec & Hsarr & Hsbuf).
    destruct (Z.le_gt_cases (index_size_ v) 0) as [Hi0|Hipos];
      (eexists; split;
       [ unfold CopyTo; step; unfold CopyToHost, CopyToHost_with; run;
         erewrite bindM_Done
           by (apply lift_Done, host_Allocate_positive; lia);
         run_all;
         try (erewrite bindM_Done
                by (apply lift_Done, hipMemcpy_holds;
                    first [apply holds_allocate_host; lia | holds_tac]);
              tidy; run_all);
         rewrite !insert_insert_eq; reflexivity
       | tidy; repeat (split; [reflexivity || lia|]); wellformed_tac ]).
Qed.

(** An empty destination that still has an index array. *)
Lemma CopyFrom_rejects_leftover_index (h : gmap nat object) this src d o :
  h !! this = Some (Hip d) -> h !! src = Some o -> wellformed_object o ->
  size_ d = 0 -> index_size_ d <> 0 ->
  CopyFrom garbage this src h = Fatal AssertionFailed.
Proof.
  intros Hthis Hsrc Ho Hempty Hindex.
  assert (index_size_ (allocated garbage (object_size o) d) = index_size_ d)
    as Hkept.
  { unfold allocated. cbv zeta. rewrite Hempty. cbn [Z.ltb Z.compare].
    destruct (0 <? object_size o); reflexivity. }
  destruct o as [s|s|n]; cbn [wellformed_object] in Ho; [| |contradiction].
  - destruct (wellformed_host_sizes s Ho) as [Hssz _].
    unfold CopyFrom. step. unfold CopyFromHost, CopyFromHost_with. run.
    cbn [object_size] in Hkept. rewrite Hkept. failed_assertion.
  - destruct (wellformed_sizes s Ho) as [Hssz _].
    unfold CopyFrom. run.
    cbn [object_size] in Hkept. rewrite Hkept. failed_assertion.
Qed.

Lemma CopyTo_rejects_leftover_index (h : gmap nat object) this dst v d :
  h !! this = Some (Hip v) -> h !! dst = Some (Hip d) -> wellformed v ->
  size_ d = 0 -> index_size_ d <> 0 ->
  CopyTo garbage this dst h = Fatal AssertionFailed.
Proof.
  intros Hthis Hdst Hv Hempty Hindex.
  assert (index_size_ (allocated garbage (size_ v) d) = index_size_ d)
    as Hkept.
  { unfold allocated. cbv zeta. rewrite Hempty. cbn [Z.ltb Z.compare].
    destruct (0 <? size_ v); reflexivity. }
  destruct (wellformed_sizes v Hv) as [Hssz _].
  destruct (decide (this = dst)) as [->|Hne].
  - assert (v = d) as -> by congruence.
    unfold CopyTo. run.
    rewrite allocated_nothing, insert_id by (assumption || lia).
    run. failed_assertion.
  - unfold CopyTo. run. rewrite Hkept. failed_assertion.
Qed.

(** C6, as the code has it.  [this] being a HIP vector and [other]
    another vector, host or HIP, every array of the two being null or as
    long as its size member says.
    [CopyFrom(other)]: a [this] that is empty and has no index array is
    allocated to the size of [other] and gets its index size, an index
    buffer of that size, its element data and its index array, [other]
    not being empty with an index array left; a [this] that is empty and
    still has an index array ends in a failed assertion; so does a
    [this] that is not empty and whose size or index size is not that of
    [other].  [CopyTo(other)]: the same with [other] as the
    destination. *)
Theorem copy_allocates_or_rejects (h : gmap nat object) (this other : nat)
    (v : t) (o : object) :
  h !! this = Some (Hip v) -> h !! other = Some o -> this <> other ->
  wellformed v -> wellformed_object o ->
  (size_ v = 0 -> index_size_ v = 0 ->
   (object_size o = 0 -> object_index_size o = 0) ->
     exists v', CopyFrom garbage this other h = Done (tt, <[this := Hip v']> h)
       /\ size_ v' = object_size o /\ vec_ v' = object_vec o
       /\ index_size_ v' = object_index_size o
       /\ index_array_ v' = object_index_array o
       /\ holds (index_buffer_ v') (object_index_size o)
       /\ wellformed v')
  /\ (size_ v = 0 -> index_size_ v <> 0 ->
        CopyFrom garbage this other h = Fatal AssertionFailed)
  /\ (size_ v <> 0 ->
        size_ v <> object_size o \/ index_size_ v <> object_index_size o ->
        CopyFrom garbage this other h = Fatal AssertionFailed)
  /\ (object_size o = 0 -> object_index_size o = 0 ->
      (size_ v = 0 -> index_size_ v = 0) ->
        exists o', CopyTo garbage this other h = Done (tt, <[other := o']> h)
          /\ object_size o' = size_ v /\ object_vec o' = vec_ v
          /\ object_index_size o' = index_size_ v
          /\ object_index_array o' = index_array_ v
          /\ wellformed_object o')
  /\ (forall d, o = Hip d -> size_ d = 0 -> index_size_ d <> 0 ->
        CopyTo garbage this other h = Fatal AssertionFailed)
  /\ (object_size o <> 0 ->
        object_size o <> size_ v \/ object_index_size o <> index_size_ v ->
        CopyTo garbage this other h = Fatal AssertionFailed).
Proof.
  intros Hthis Hother Hne Hv Ho.
  split; [|split; [|split; [|split; [|split]]]].
  - intros Hempty Hnoindex Hsource.
    destruct o as [s|s|n]; cbn [wellformed_object] in Ho; [| |contradiction];
      cbn [object_size object_vec object_index_size object_index_array] in *.
    + apply (CopyFrom_host_allocates h this other v s); assumption.
    + apply (CopyFrom_device_allocates h this other v s); assumption.
  - intros Hempty Hindex.
    now apply (CopyFrom_rejects_leftover_index h this other v o).
  - destruct o as [s|s|n]; cbn [wellformed_object] in Ho; [| |contradiction];
      cbn [object_size object_index_size].
    + now apply CopyFrom_host_mismatch.
    + now apply CopyFrom_device_mismatch.
  - intros Hempty Hnoindex Hsource.
    destruct o as [s|s|n]; cbn [wellformed_object] in Ho; [| |contradiction];
      cbn [object_size object_vec object_index_size object_index_array] in *.
    + destruct (CopyTo_host_allocates h this other v s)
        as (s' & Hrun & Hs & Hvec & Hi & Ha & Hs'); try assumption.
      exists (Host s'). repeat (split; [assumption|]). assumption.
    + destruct (CopyTo_device_allocates h this other v s)
        as (s' & Hrun & Hs & Hvec & Hi & Ha & Hs'); try assumption.
      exists (Hip s'). repeat (split; [assumption|]). assumption.
  - intros d -> Hempty Hindex.
    now apply (CopyTo_rejects_leftover_index h this other v d).
  - destruct o as [s|s|n]; cbn [wellformed_object] in Ho; [| |contradiction];
      cbn [object_size object_index_size].
    + now apply CopyTo_host_mismatch.
    + now apply CopyTo_device_mismatch.
Qed.

(** *** Operations with a vector operand *)

Ltac run_op :=
  unfold AddScale, ScaleAdd, ScaleAddScale, ScaleAdd2, PointWiseMult,
    PointWiseMult2, Dot, DotNonConj, assert_same_size;
  run.

(** The operations that update [this] do nothing on an empty [this],
    whatever the operands are. *)
Lemma update_of_empty_is_noop (h : gmap nat object) (this x y : nat) (v : t)
    (alpha beta gamma : Z) :
  h !! this = Some (Hip v) -> size_ v <= 0 ->
  AddScale this x alpha h = Done (tt, h)
  /\ ScaleAdd this alpha x h = Done (tt, h)
  /\ ScaleAddScale this alpha x beta h = Done (tt, h)
  /\ ScaleAdd2 this alpha x beta y gamma h = Done (tt, h)
  /\ PointWiseMult this x h = Done (tt, h)
  /\ PointWiseMult2 this x y h = Done (tt, h).
Proof. intros Hthis Hempty. repeat split; run_op; reflexivity. Qed.

(** On a [this] that is not empty they end in a failed assertion when an
    operand has another size. *)
Lemma update_rejects_other_size (h : gmap nat object) (this x y : nat) (v : t)
    (ox oy : object) (alpha beta gamma : Z) :
  h !! this = Some (Hip v) -> h !! x = Some ox -> h !! y = Some oy ->
  0 < size_ v -> object_size ox <> size_ v ->
  AddScale this x alpha h = Fatal AssertionFailed
  /\ ScaleAdd this alpha x h = Fatal AssertionFailed
  /\ ScaleAddScale this alpha x beta h = Fatal AssertionFailed
  /\ ScaleAdd2 this alpha x beta y gamma h = Fatal AssertionFailed
  /\ ScaleAdd2 this alpha y beta x gamma h = Fatal AssertionFailed
  /\ PointWiseMult this x h = Fatal AssertionFailed
  /\ PointWiseMult2 this x y h = Fatal AssertionFailed
  /\ PointWiseMult2 this y x h = Fatal AssertionFailed.
Proof.
  intros Hthis Hx Hy Hfull Hdiff.
  repeat split; run_op; try failed_assertion;
    (destruct (Z.eq_dec (size_ v) (object_size oy));
     [run; failed_assertion | failed_assertion]).
Qed.

(** [Dot] and [DotNonConj] end in a failed assertion when the operand has
    another size, [this] being empty or not. *)
Lemma dot_rejects_other_size (h : gmap nat object) (this x : nat) (v : t)
    (ox : object) :
  h !! this = Some (Hip v) -> h !! x = Some ox ->
  object_size ox <> size_ v ->
  Dot this x h = Fatal AssertionFailed
  /\ DotNonConj this x h = Fatal AssertionFailed.
Proof. intros Hthis Hx Hdiff. split; run_op; failed_assertion. Qed.

(** On an empty [this], with an empty HIP operand, they return 0. *)
Lemma dot_of_empty_is_zero (h : gmap nat object) (this x : nat) (v xv : t) :
  h !! this = Some (Hip v) -> h !! x = Some (Hip xv) ->
  size_ v = 0 -> size_ xv = 0 ->
  Dot this x h = Done (0, h) /\ DotNonConj this x h = Done (0, h).
Proof. intros Hthis Hx Hv Hxv. split; run_op; reflexivity. Qed.

(** C4, as the code has it (primary template).
    [AddScale], [ScaleAdd], [ScaleAddScale], [ScaleAdd2] and
    [PointWiseMult]: on an empty vector they do nothing and leave the
    heap as it is, whatever the size of the operands; on a vector that
    is not empty an operand of another size ends in a failed assertion.
    [Dot] and [DotNonConj]: an operand of another size ends in a failed
    assertion, on an empty vector too; an empty vector with an empty
    operand gives 0 and is left unchanged. *)
Theorem operand_size_contract (h : gmap nat object) (this x y : nat) (v : t)
    (ox oy : object) (alpha beta gamma : Z) :
  h !! this = Some (Hip v) -> h !! x = Some ox -> h !! y = Some oy ->
  0 <= size_ v ->
  (size_ v = 0 ->
     AddScale this x alpha h = Done (tt, h)
     /\ ScaleAdd this alpha x h = Done (tt, h)
     /\ ScaleAddScale this alpha x beta h = Done (tt, h)
     /\ ScaleAdd2 this alpha x beta y gamma h = Done (tt, h)
     /\ PointWiseMult this x h = Done (tt, h)
     /\ PointWiseMult2 this x y h = Done (tt, h))
  /\ (size_ v <> 0 -> object_size ox <> size_ v ->
        AddScale this x alpha h = Fatal AssertionFailed
        /\ ScaleAdd this alpha x h = Fatal AssertionFailed
        /\ ScaleAddScale this alpha x beta h = Fatal AssertionFailed
        /\ ScaleAdd2 this alpha x beta y gamma h = Fatal AssertionFailed
        /\ ScaleAdd2 this alpha y beta x gamma h = Fatal AssertionFailed
        /\ PointWiseMult this x h = Fatal AssertionFailed
        /\ PointWiseMult2 this x y h = Fatal AssertionFailed
        /\ PointWiseMult2 this y x h = Fatal AssertionFailed)
  /\ (object_size ox <> size_ v ->
        Dot this x h = Fatal AssertionFailed
        /\ DotNonConj this x h = Fatal AssertionFailed)
  /\ (size_ v = 0 -> (exists xv, ox = Hip xv) -> object_size ox = 0 ->
        Dot this x h = Done (0, h) /\ DotNonConj this x h = Done (0, h)).
Proof.
  intros Hthis Hx Hy Hsize. split; [|split; [|split]].
  - intros Hempty. apply update_of_empty_is_noop with v; [assumption | lia].
  - intros Hfull Hdiff.
    apply update_rejects_other_size with v ox oy; (assumption || lia).
  - intros Hdiff. now apply dot_rejects_other_size with v ox.
  - intros Hempty [xv ->] Hxempty.
    now apply dot_of_empty_is_zero with v xv.
Qed.

(** The specialisations for [int] of [AddScale], [Dot] and [DotNonConj]
    end in [FATAL_ERROR] on every input. *)
Lemma int_specialisations_are_fatal (h : gmap nat object) (this x : nat)
    (alpha : Z) :
  AddScale_int this x alpha h = Fatal FatalError
  /\ Dot_int this x h = Fatal FatalError
  /\ DotNonConj_int this x h = Fatal FatalError.
Proof. repeat split. Qed.

(** *** [Amax] *)

(** The scan returns the index of a cell of largest magnitude, the one
    it started from included. *)
Lemma amax_scan_largest (l : list Z) (best_i best i : Z) :
  0 <= i ->
  exists m,
    (amax_scan best_i best i l = best_i /\ m = best
     \/ (i <= amax_scan best_i best i l < i + Z.of_nat (length l)
         /\ l !! Z.to_nat (amax_scan best_i best i l - i) = Some m))
    /\ Z.abs best <= Z.abs m
    /\ Forall (fun x => Z.abs x <= Z.abs m) l.
Proof.
  revert best_i best i. induction l as [|x rest IH]; intros best_i best i Hi.
  - exists best. split; [left; split; reflexivity|]. split; [lia|constructor].
  - cbn [amax_scan]. destruct (Z.ltb_spec (Z.abs best) (Z.abs x)) as [Hlt|Hge].
    + destruct (IH i x (i + 1)) as (m & Hwhere & Hx & Hrest); [lia|].
      exists m. split; [right|split; [lia|constructor; assumption]].
      cbn [length]. destruct Hwhere as [[-> ->]|[Hr Hm]].
      * split; [lia|]. now replace (Z.to_nat (i - i)) with 0%nat by lia.
      * split; [lia|].
        replace (Z.to_nat (amax_scan i x (i + 1) rest - i))
          with (Datatypes.S (Z.to_nat (amax_scan i x (i + 1) rest - (i + 1))))
          by lia.
        exact Hm.
    + destruct (IH best_i best (i + 1)) as (m & Hwhere & Hbest & Hrest); [lia|].
      exists m. split; [|split; [assumption|constructor; [lia|assumption]]].
      cbn [length]. destruct Hwhere as [[Hr ->]|[Hr Hm]].
      * left. split; [assumption|reflexivity].
      * right. split; [lia|].
        replace (Z.to_nat (amax_scan best_i best (i + 1) rest - i))
          with (Datatypes.S
                  (Z.to_nat (amax_scan best_i best (i + 1) rest - (i + 1))))
          by lia.
        exact Hm.
Qed.

Lemma hipblasTamax_largest (c : list Z) (n : Z) :
  0 < n -> Z.of_nat (length c) = n ->
  exists index,
    hipblasTamax n (Some c) = Done index
    /\ 1 <= index <= n
    /\ forall j, 0 <= j < n -> Z.abs (cell c j) <= Z.abs (cell c (index - 1)).
Proof.
  intros Hn Hlen. unfold hipblasTamax.
  destruct (Z.ltb_spec 0 n); [|lia].
  destruct (Z.leb_spec n (Z.of_nat (length c))); [|lia]. cbn [andb].
  rewrite take_ge by lia.
  destruct c as [|x0 rest]; [simpl in Hlen; lia|].
  destruct (amax_scan_largest rest 1 x0 2) as (m & Hwhere & Hx0 & Hrest); [lia|].
  exists (amax_scan 1 x0 2 rest). split; [reflexivity|].
  cbn [length] in Hlen.
  assert (1 <= amax_scan 1 x0 2 rest <= n
          /\ cell (x0 :: rest) (amax_scan 1 x0 2 rest - 1) = m) as [Hrange Hcell].
  { destruct Hwhere as [[-> ->]|[Hr Hm]].
    - split; [lia|reflexivity].
    - split; [lia|]. unfold cell.
      replace (Z.to_nat (amax_scan 1 x0 2 rest - 1))
        with (Datatypes.S (Z.to_nat (amax_scan 1 x0 2 rest - 2))) by lia.
      simpl. now rewrite Hm. }
  split; [assumption|]. rewrite Hcell.
  intros j Hj. unfold cell.
  destruct (Z.to_nat j) as [|j'] eqn:Ej; [exact Hx0|].
  simpl.
  destruct (lookup_lt_is_Some_2 rest j') as [y Hy]; [lia|].
  rewrite Hy. cbn [default].
  exact (proj1 (Forall_lookup _ _) Hrest j' y Hy).
Qed.

(** C5, as the code has it.  The specialisation of [Amax] for [int]
    ends in a fatal error on every vector, empty or not.  The primary
    template, on a vector of size 0, returns the index 0 and the value 0
    and leaves the vector as it is. *)
Theorem Amax_contract (h : gmap nat object) (this : nat) (v : t) :
  h !! this = Some (Hip v) ->
  Amax_int this h = Fatal FatalError
  /\ (size_ v <= 0 -> Amax this h = Done ((0, 0), h)).
Proof.
  intros Hthis. split; [reflexivity|].
  intros Hempty. unfold Amax. run. reflexivity.
Qed.


(** *** Permutations *)

Lemma bijection_cell (n : Z) (p : list Z) (i : Z) :
  bijection n p -> 0 <= i < n ->
  p !! Z.to_nat i = Some (cell p i) /\ 0 <= cell p i < n.
Proof.
  intros (Hlen & _ & Hrange) Hi. unfold cell.
  destruct (lookup_lt_is_Some_2 p (Z.to_nat i)) as [x Hx]; [lia|].
  rewrite Hx. split; [reflexivity|].
  exact (proj1 (Forall_lookup _ _) Hrange _ _ Hx).
Qed.

Lemma bijection_inj (n : Z) (p : list Z) (i j : Z) :
  bijection n p -> 0 <= i < n -> 0 <= j < n ->
  cell p i = cell p j -> i = j.
Proof.
  intros Hp Hi Hj Heq.
  destruct (bijection_cell n p i Hp Hi) as [Hpi _].
  destruct (bijection_cell n p j Hp Hj) as [Hpj _].
  rewrite Heq in Hpi. destruct Hp as (_ & Hnodup & _).
  pose proof (NoDup_lookup _ _ _ _ Hnodup Hpi Hpj). lia.
Qed.

(** The scatter [out[perm[i]] = in[i]]. *)
Lemma kernel_permute_scatters (n : Z) (p a o : list Z) :
  bijection n p -> Z.of_nat (length a) = n -> Z.of_nat (length o) = n ->
  exists o',
    kernel_permute n (Some p) (Some a) (Some o) = Done (Some o')
    /\ Z.of_nat (length o') = n
    /\ forall i, 0 <= i < n -> cell o' (cell p i) = cell a i.
Proof.
  intros Hp Ha Ho. unfold kernel_permute.
  destruct (for_range_invariant
              (fun k o' => Z.of_nat (length o') = n
                           /\ forall i, 0 <= i < k -> cell o' (cell p i) = cell a i)
              (fun i o => pi <- load p i ;; x <- load a i ;; store o pi x)
              0 n o) as (o' & Hrun & Hlen & Hcells).
  - lia.
  - intros k o1 Hk [Hlen1 Hcells1].
    destruct (bijection_cell n p k Hp Hk) as [Hpk Hrange].
    rewrite (load_in_range p k _ (proj1 Hk) Hpk). cbn [bind].
    rewrite (load_cell a k) by lia. cbn [bind].
    rewrite store_in_range by lia.
    eexists. split; [reflexivity|]. split; [now rewrite length_insert|].
    intros i Hi. destruct (Z.eq_dec i k) as [->|Hne].
    + apply cell_insert_eq. lia.
    + destruct (bijection_cell n p i Hp) as [_ Hrange']; [lia|].
      rewrite cell_insert_ne; [apply Hcells1; lia | lia | lia |].
      intros Heq. apply Hne. symmetry.
      apply (bijection_inj n p); (assumption || lia).
  - split; [assumption|]. intros i Hi. lia.
  - rewrite Hrun. cbn [bind]. exists o'. split; [reflexivity|].
    split; assumption.
Qed.

(** The gather [out[i] = in[perm[i]]]. *)
Lemma kernel_permute_backward_gathers (n : Z) (p a o : list Z) :
  bijection n p -> Z.of_nat (length a) = n -> Z.of_nat (length o) = n ->
  exists o',
    kernel_permute_backward n (Some p) (Some a) (Some o) = Done (Some o')
    /\ Z.of_nat (length o') = n
    /\ forall i, 0 <= i < n -> cell o' i = cell a (cell p i).
Proof.
  intros Hp Ha Ho. unfold kernel_permute_backward.
  destruct (for_range_invariant
              (fun k o' => Z.of_nat (length o') = n
                           /\ forall i, 0 <= i < k -> cell o' i = cell a (cell p i))
              (fun i o => pi <- load p i ;; x <- load a pi ;; store o i x)
              0 n o) as (o' & Hrun & Hlen & Hcells).
  - lia.
  - intros k o1 Hk [Hlen1 Hcells1].
    destruct (bijection_cell n p k Hp Hk) as [Hpk Hrange].
    rewrite (load_in_range p k _ (proj1 Hk) Hpk). cbn [bind].
    rewrite (load_cell a (cell p k)) by lia. cbn [bind].
    rewrite store_in_range by lia.
    eexists. split; [reflexivity|]. split; [now rewrite length_insert|].
    intros i Hi. destruct (Z.eq_dec i k) as [->|Hne].
    + apply cell_insert_eq. lia.
    + rewrite cell_insert_ne by lia. apply Hcells1. lia.
  - split; [assumption|]. intros i Hi. lia.
  - rewrite Hrun. cbn [bind]. exists o'. split; [reflexivity|].
    split; assumption.
Qed.

(** Two arrays of [n] cells with the same cells are equal. *)
Lemma cells_ext (n : Z) (a b : list Z) :
  Z.of_nat (length a) = n -> Z.of_nat (length b) = n ->
  (forall i, 0 <= i < n -> cell a i = cell b i) -> a = b.
Proof.
  intros Ha Hb Hcells. apply list_eq. intros k.
  destruct (decide (k < length a)%nat) as [Hk|Hk].
  - destruct (lookup_lt_is_Some_2 a k) as [x Hx]; [assumption|].
    destruct (lookup_lt_is_Some_2 b k) as [y Hy]; [lia|].
    specialize (Hcells (Z.of_nat k)). unfold cell in Hcells.
    rewrite Nat2Z.id, Hx, Hy in Hcells. simpl in Hcells.
    rewrite Hx, Hy. f_equal. apply Hcells. lia.
  - rewrite !lookup_ge_None_2 by lia. reflexivity.
Qed.

Lemma valid_constructed (b : Rocalution_Backend_Descriptor) :
  valid (constructed b).
Proof. unfold valid, constructed, holds. cbn. repeat split; lia. Qed.

(** [CopyFrom], device to device, into a vector of the sizes of the
    source. *)
Lemma CopyFrom_device_same_sizes (h : gmap nat object) this src d s :
  h !! this = Some (Hip d) -> h !! src = Some (Hip s) -> this <> src ->
  valid d -> valid s ->
  size_ d <> 0 -> size_ d = size_ s -> index_size_ d = index_size_ s ->
  CopyFrom garbage this src h
  = Done (tt, <[this := Hip (set_index_array_ (index_array_ s)
                               (set_vec_ (vec_ s) d))]> h).
Proof.
  intros Hthis Hsrc Hne Hd Hs Hfull Hsize Hindex.
  destruct (valid_parts d Hd) as (Hdr & Hdvec & Hdarr & Hdbuf).
  destruct (valid_parts s Hs) as (Hsr & Hsvec & Hsarr & Hsbuf).
  unfold CopyFrom. run_all. rewrite !insert_insert_eq. reflexivity.
Qed.

(** The local copy of a permutation is gone when the method returns. *)
Lemma local_is_gone (h : gmap nat object) (tmp this : nat) (x a b c d : object) :
  h !! tmp = None -> tmp <> this ->
  delete tmp (<[tmp := a]> (<[this := x]>
    (<[tmp := b]> (<[tmp := c]> (<[tmp := d]> h)))))
  = <[this := x]> h.
Proof.
  intros Htmp Hne. apply map_eq. intros k.
  destruct (decide (k = tmp)) as [->|Hk].
  - rewrite lookup_delete_eq, lookup_insert_ne by congruence. congruence.
  - rewrite lookup_delete_ne, lookup_insert_ne by congruence.
    destruct (decide (k = this)) as [->|Hk'].
    + now rewrite !lookup_insert_eq.
    + now rewrite !lookup_insert_ne by congruence.
Qed.

(** The common run of [Permute] and [PermuteBackward] on a vector that
    is not empty, up to the kernel [Hkernel]. *)
Ltac run_permutation Hthis Hv Hfull Hpc Ha Hkernel :=
  let Hfresh := fresh "Hfresh" in
  let Htmp := fresh "Htmp" in
  let tmp := fresh "tmp" in
  let Etmp := fresh "Etmp" in
  let t1 := fresh "t1" in
  let Et1 := fresh "Et1" in
  match type of Hthis with
  | ?h !! ?this = Some (Hip ?v) =>
      pose proof (is_fresh (dom h)) as Hfresh;
      remember (fresh (dom h)) as tmp eqn:Etmp;
      assert (h !! tmp = None) as Htmp by (now apply not_elem_of_dom);
      destruct (allocated_positive (size_ v) (constructed (local_backend_ v))
                  (valid_constructed _) Hfull)
        as (_ & ? & ? & ? & ? & ? & ?);
      remember (allocated garbage (size_ v) (constructed (local_backend_ v)))
        as t1 eqn:Et1;
      unfold Permute, PermuteBackward, assert_same_size; run;
      rewrite <- Etmp, <- Et1;
      erewrite bindM_Done
        by (apply CopyFrom_device_same_sizes with (d := t1) (s := v);
            [ lookup_tac | lookup_tac | congruence | assumption | assumption
            | lia | lia | lia ]);
      run; rewrite Hpc, Ha; tidy;
      erewrite bindM_Done by (apply lift_Done; exact Hkernel);
      run; unfold end_local;
      erewrite bindM_Done by (apply Clear_leaves_cleared; lookup_tac);
      rewrite local_is_gone by congruence;
      reflexivity
  end.

Lemma Permute_scatters (h : gmap nat object) (this perm : nat) (v pv : t) :
  h !! this = Some (Hip v) -> h !! perm = Some (Hip pv) -> this <> perm ->
  valid v -> valid pv -> index_size_ v = 0 -> size_ pv = size_ v ->
  bijection (size_ v) (contents (vec_ pv)) ->
  exists out,
    Permute garbage this perm h = Done (tt, <[this := Hip (set_vec_ out v)]> h)
    /\ holds out (size_ v)
    /\ forall i, 0 <= i < size_ v ->
          cell (contents out) (cell (contents (vec_ pv)) i)
          = cell (contents (vec_ v)) i.
Proof.
  intros Hthis Hperm Hne Hv Hpv Hnoindex Hsize Hp.
  destruct (valid_parts v Hv) as (Hvr & Hvvec & Hvarr & Hvbuf).
  destruct (Z.le_gt_cases (size_ v) 0) as [Hempty|Hfull].
  - exists (vec_ v). split; [|split; [assumption|intros; lia]].
    unfold Permute. run.
    replace (set_vec_ (vec_ v) v) with v by now destruct v.
    now rewrite insert_id.
  - destruct (valid_parts pv Hpv) as (Hpr & Hpvec & _).
    destruct (holds_positive _ _ Hvvec Hfull) as (a & Ha & Halen).
    destruct (holds_positive (vec_ pv) (size_ pv)) as (p & Hpc & Hplen);
      [assumption | lia |].
    rewrite Hpc in Hp |- *. cbn [contents] in Hp |- *.
    rewrite Ha. cbn [contents].
    destruct (kernel_permute_scatters (size_ v) p a a Hp Halen Halen)
      as (o' & Hkernel & Holen & Hcells).
    exists (Some o'). split; [|split; [split; assumption | exact Hcells]].
    run_permutation Hthis Hv Hfull Hpc Ha Hkernel.
Qed.

Lemma PermuteBackward_gathers (h : gmap nat object) (this perm : nat) (v pv : t) :
  h !! this = Some (Hip v) -> h !! perm = Some (Hip pv) -> this <> perm ->
  valid v -> valid pv -> index_size_ v = 0 -> size_ pv = size_ v ->
  bijection (size_ v) (contents (vec_ pv)) ->
  exists out,
    PermuteBackward garbage this perm h
    = Done (tt, <[this := Hip (set_vec_ out v)]> h)
    /\ holds out (size_ v)
    /\ forall i, 0 <= i < size_ v ->
          cell (contents out) i
          = cell (contents (vec_ v)) (cell (contents (vec_ pv)) i).
Proof.
  intros Hthis Hperm Hne Hv Hpv Hnoindex Hsize Hp.
  destruct (valid_parts v Hv) as (Hvr & Hvvec & Hvarr & Hvbuf).
  destruct (Z.le_gt_cases (size_ v) 0) as [Hempty|Hfull].
  - exists (vec_ v). split; [|split; [assumption|intros; lia]].
    unfold PermuteBackward. run.
    replace (set_vec_ (vec_ v) v) with v by now destruct v.
    now rewrite insert_id.
  - destruct (valid_parts pv Hpv) as (Hpr & Hpvec & _).
    destruct (holds_positive _ _ Hvvec Hfull) as (a & Ha & Halen).
    destruct (holds_positive (vec_ pv) (size_ pv)) as (p & Hpc & Hplen);
      [assumption | lia |].
    rewrite Hpc in Hp |- *. cbn [contents] in Hp |- *.
    rewrite Ha. cbn [contents].
    destruct (kernel_permute_backward_gathers (size_ v) p a a Hp Halen Halen)
      as (o' & Hkernel & Holen & Hcells).
    exists (Some o'). split; [|split; [split; assumption | exact Hcells]].
    run_permutation Hthis Hv Hfull Hpc Ha Hkernel.
Qed.

Lemma set_vec_valid (out : buffer) (v : t) :
  valid v -> holds out (size_ v) -> valid (set_vec_ out v).
Proof.
  intros (Hr & _ & Harr & Hbuf) Hout. unfold valid. tidy.
  repeat split; (lia || assumption).
Qed.

(** [Permute] and [PermuteBackward] on a vector that is not empty and has
    an index array: the copy into the local vector ends in a failed
    assertion. *)
Lemma permutation_rejects_index_array (h : gmap nat object) (this perm : nat)
    (v pv : t) :
  h !! this = Some (Hip v) -> h !! perm = Some (Hip pv) ->
  0 < size_ v -> size_ pv = size_ v -> index_size_ v <> 0 ->
  Permute garbage this perm h = Fatal AssertionFailed
  /\ PermuteBackward garbage this perm h = Fatal AssertionFailed.
Proof.
  intros Hthis Hperm Hfull Hsize Hindex.
  pose proof (is_fresh (dom h)) as Hfresh.
  remember (fresh (dom h)) as tmp eqn:Etmp.
  assert (h !! tmp = None) as Htmp by now apply not_elem_of_dom.
  destruct (allocated_positive (size_ v) (constructed (local_backend_ v))
              (valid_constructed _) Hfull)
    as (_ & Hs & _ & Hi & _).
  remember (allocated garbage (size_ v) (constructed (local_backend_ v)))
    as t1 eqn:Et1.
  split; unfold Permute, PermuteBackward, assert_same_size; run;
    rewrite <- Etmp, <- Et1;
    (erewrite bindM_Fatal; [reflexivity|]);
    apply CopyFrom_device_mismatch with (d := t1) (s := v);
    first [lookup_tac | lia].
Qed.


(** *** Clearing and allocating again *)

(** X7.  [Clear] on a vector in a state of the data model leaves it empty,
    without data and without index array, in a state of the data model;
    a second [Clear] changes nothing.  The two scratch buffers are freed
    exactly when the vector had an index array: without one they stay
    allocated. *)
Theorem Clear_empties (h : gmap nat object) (this : nat) (v : t) :
  h !! this = Some (Hip v) -> valid v ->
  exists v',
    Clear this h = Done (tt, <[this := Hip v']> h)
    /\ size_ v' = 0 /\ index_size_ v' = 0
    /\ vec_ v' = None /\ index_array_ v' = None /\ index_buffer_ v' = None
    /\ valid v'
    /\ Clear this (<[this := Hip v']> h) = Done (tt, <[this := Hip v']> h)
    /\ (index_size_ v = 0 ->
          host_buffer_ v' = host_buffer_ v /\ device_buffer_ v' = device_buffer_ v)
    /\ (index_size_ v <> 0 -> host_buffer_ v' = None /\ device_buffer_ v' = None).
Proof.
  intros Hthis Hv. exists (cleared v).
  split; [now apply Clear_leaves_cleared|].
  destruct (valid_parts v Hv) as (Hr & Hvec & Harr & Hbuf).
  assert (size_ (cleared v) = 0 /\ index_size_ (cleared v) = 0
          /\ vec_ (cleared v) = None /\ index_array_ (cleared v) = None
          /\ index_buffer_ (cleared v) = None
          /\ (index_size_ v = 0 ->
                host_buffer_ (cleared v) = host_buffer_ v
                /\ device_buffer_ (cleared v) = device_buffer_ v)
          /\ (index_size_ v <> 0 ->
                host_buffer_ (cleared v) = None /\ device_buffer_ (cleared v) = None))
    as (Hs & Hi & Hv1 & Ha1 & Hb1 & Hkept & Hfreed).
  { unfold cleared. cbv zeta.
    destruct (Z.ltb_spec 0 (size_ v)) as [Hpos|Hle]; tidy.
    - destruct (Z.ltb_spec 0 (index_size_ v)) as [Hipos|Hile]; tidy.
      + repeat split; (reflexivity || lia).
      + assert (index_size_ v = 0) as H0 by lia. rewrite H0 in Harr, Hbuf.
        apply holds_zero in Harr, Hbuf.
        repeat split; (reflexivity || assumption || lia).
    - destruct (valid_empty v Hv Hle) as (Hs & Hi & Hvec0 & Harr0 & Hbuf0).
      destruct (Z.ltb_spec 0 (index_size_ v)); [lia|].
      repeat split; (reflexivity || assumption || lia). }
  repeat (split; [assumption|]).
  assert (valid (cleared v)) as Hvalid.
  { unfold valid. rewrite Hs, Hi, Hv1, Ha1, Hb1. cbn [holds]. repeat split; lia. }
  split; [assumption|]. split; [|split; assumption].
  rewrite (Clear_leaves_cleared _ this (cleared v)) by apply lookup_insert_eq.
  rewrite insert_insert_eq. do 3 f_equal.
  unfold cleared at 1. cbv zeta. rewrite Hs. cbn [Z.ltb Z.compare].
  rewrite Hi. reflexivity.
Qed.

(** *** Handing the data block over *)

(** X9.  [SetDataPtr] refuses a null block and a size that is not positive,
    [LeaveDataPtr] refuses an empty vector.  Otherwise [SetDataPtr]
    followed by [LeaveDataPtr] gives the very block back and leaves the
    vector without data, with size zero and without scratch buffers;
    the index array and its size are not touched. *)
Theorem data_pointer_round_trip (h : gmap nat object) (this : nat) (v : t)
    (data : buffer) (n : Z) :
  h !! this = Some (Hip v) ->
  (data = None \/ n <= 0 ->
     SetDataPtr garbage this data n h = Fatal AssertionFailed)
  /\ (size_ v <= 0 -> LeaveDataPtr this h = Fatal AssertionFailed)
  /\ (data <> None -> 0 < n ->
        (SetDataPtr garbage this data n ~;; LeaveDataPtr this) h
        = Done (data, <[this := Hip (left v)]> h)
        /\ index_size_ (left v) = index_size_ v
        /\ index_array_ (left v) = index_array_ v
        /\ index_buffer_ (left v) = index_buffer_ v).
Proof.
  intros Hthis. split; [|split].
  - intros [->|Hn]; unfold SetDataPtr.
    + cbn [is_null negb]. failed_assertion.
    + destruct data as [c|]; cbn [is_null negb].
      * run. failed_assertion.
      * failed_assertion.
  - intros Hempty. unfold LeaveDataPtr. run. failed_assertion.
  - intros Hdata Hn. destruct data as [c|]; [|congruence].
    split; [|repeat split].
    unfold SetDataPtr, LeaveDataPtr. cbn [is_null negb].
    run. cbn [free]. run. rewrite !insert_insert_eq. reflexivity.
Qed.

(** X10.  [LeaveDataPtr] on a vector with an index array leaves a state outside
    the data model: the size is zero and the index array is still there.
    From that state [CopyFrom] of any device vector aborts, the vector
    being taken for empty and then found with an index array. *)
Theorem LeaveDataPtr_keeps_index_array (h : gmap nat object) (this src : nat)
    (v s : t) :
  h !! this = Some (Hip v) -> h !! src = Some (Hip s) -> this <> src ->
  valid v -> valid s -> 0 < index_size_ v ->
  LeaveDataPtr this h = Done (vec_ v, <[this := Hip (left v)]> h)
  /\ ~ valid (left v)
  /\ (LeaveDataPtr this ~;; CopyFrom garbage this src) h = Fatal AssertionFailed.
Proof.
  intros Hthis Hsrc Hne Hv Hs Hidx.
  destruct (valid_parts v Hv) as (Hr & _).
  destruct (valid_parts s Hs) as (Hsr & _).
  assert (LeaveDataPtr this h = Done (vec_ v, <[this := Hip (left v)]> h))
    as Hleave.
  { unfold LeaveDataPtr. run. cbn [free]. run.
    rewrite !insert_insert_eq. reflexivity. }
  split; [assumption|]. split.
  - intros Hbad. apply valid_parts in Hbad. unfold left in Hbad.
    revert Hbad. tidy. lia.
  - erewrite bindM_Done by exact Hleave.
    unfold CopyFrom, left. run.
    unfold allocated. cbv zeta. tidy. cbn [Z.ltb Z.compare].
    destruct (0 <? size_ s); tidy; failed_assertion.
Qed.

(** *** Raw arrays of the device *)

(** X11.  [CopyFromData] followed by [CopyToData] hands the array back: on a
    vector in a state of the data model and with arrays of its size, the
    array read out is the array read in. *)
Theorem data_round_trip (h : gmap nat object) (this : nat) (v : t)
    (data out : buffer) :
  h !! this = Some (Hip v) -> valid v ->
  holds data (size_ v) -> holds out (size_ v) ->
  (CopyFromData this data ~;; CopyToData this out) h
  = Done (data, <[this := Hip (set_vec_ data v)]> h).
Proof.
  intros Hthis Hv Hdata Hout.
  destruct (valid_parts v Hv) as (Hr & Hvec & _).
  destruct (Z.le_gt_cases (size_ v) 0) as [Hempty|Hpos].
  - assert (size_ v = 0) as H0 by lia. rewrite H0 in Hdata, Hout, Hvec.
    apply holds_zero in Hdata, Hout, Hvec. subst data out.
    unfold CopyFromData, CopyToData. run.
    rewrite insert_id; [reflexivity|].
    rewrite Hthis. do 2 f_equal. destruct v; cbn in *. now subst.
  - unfold CopyFromData, CopyToData. run_all.
    apply lift_Done, hipMemcpy_holds; assumption.
Qed.

(** X12.  [Zeros] sets every cell of the data to zero and nothing else; right
    after [Allocate] it changes nothing, [Allocate] having zeroed the
    data already. *)
Theorem Zeros_after_Allocate (h : gmap nat object) (this : nat) (v : t) (n : Z) :
  h !! this = Some (Hip v) -> valid v -> 0 <= n ->
  Zeros this h
  = Done (tt, <[this := Hip (set_vec_
                               (if 0 <? size_ v
                                then Some (replicate (Z.to_nat (size_ v)) 0)
                                else vec_ v) v)]> h)
  /\ (Allocate garbage this n ~;; Zeros this) h = Allocate garbage this n h.
Proof.
  intros Hthis Hv Hn.
  assert (forall (h0 : gmap nat object) (w : t),
            h0 !! this = Some (Hip w) -> valid w ->
            Zeros this h0
            = Done (tt, <[this := Hip (set_vec_
                                         (if 0 <? size_ w
                                          then Some (replicate (Z.to_nat (size_ w)) 0)
                                          else vec_ w) w)]> h0)) as Hzeros.
  { intros h0 w Hw Hvalid.
    destruct (valid_parts w Hvalid) as (Hr & Hvec & _).
    unfold Zeros. destruct (Z.ltb_spec 0 (size_ w)) as [Hpos|Hempty].
    - run.
      destruct (vec_ w) as [c|] eqn:Ec; [|cbn [holds] in Hvec; lia].
      cbn [holds] in Hvec.
      erewrite bindM_Done; cycle 1.
      { apply lift_Done. unfold set_to_zero_hip.
        destruct (Z.leb_spec (size_ w) (Z.of_nat (length c))); [|lia].
        rewrite drop_ge by lia. rewrite app_nil_r. reflexivity. }
      run. reflexivity.
    - run. rewrite insert_id; [reflexivity|].
      rewrite Hw. now destruct w. }
  split; [now apply Hzeros|].
  erewrite bindM_Done by (apply Allocate_leaves_allocated; [eassumption|lia]).
  rewrite (Allocate_leaves_allocated h this v n) by (assumption || lia).
  assert (valid (allocated garbage n v)
          /\ vec_ (allocated garbage n v)
             = (if 0 <? size_ (allocated garbage n v)
                then Some (replicate (Z.to_nat (size_ (allocated garbage n v))) 0)
                else vec_ (allocated garbage n v))) as [Hv' Hvec'].
  { destruct (Z.eq_dec n 0) as [->|Hpos].
    - pose proof (allocated_zero v Hv) as Hz. split; [apply Hz|].
      destruct (valid_empty (allocated garbage 0 v)) as (Hs0 & _);
        [apply Hz|..].
      + unfold allocated, cleared. cbv zeta. cbn [Z.ltb Z.compare].
        destruct (0 <? size_ v) eqn:E; tidy.
        * destruct (0 <? index_size_ v); tidy; lia.
        * apply Z.ltb_ge in E. lia.
      + rewrite Hs0. reflexivity.
    - destruct (allocated_positive n v Hv) as (_ & Hs1 & Hv1 & _ & _ & _ & Hvalid);
        [lia|].
      split; [assumption|]. rewrite Hs1, Hv1.
      destruct (Z.ltb_spec 0 n); [reflexivity|lia]. }
  rewrite (Hzeros _ (allocated garbage n v)) by (apply lookup_insert_eq || assumption).
  rewrite <- Hvec', insert_insert_eq. do 3 f_equal.
  destruct (allocated garbage n v); reflexivity.
Qed.

(** *** Copies between vectors *)


(** X14.  Between two device vectors in states of the data model, [a.CopyTo(b)]
    is [b.CopyFrom(a)]: the same final state or the same failure. *)
Theorem CopyTo_is_CopyFrom_reversed (h : gmap nat object) (a b : nat)
    (av bv : t) :
  h !! a = Some (Hip av) -> h !! b = Some (Hip bv) -> a <> b ->
  valid av -> valid bv ->
  CopyTo garbage a b h = CopyFrom garbage b a h.
Proof.
  intros Ha Hb Hne Hav Hbv.
  assert (b <> a) as Hne' by congruence.
  destruct (valid_parts av Hav) as (Har & Havec & Haarr & Habuf).
  destruct (valid_parts bv Hbv) as (Hbr & Hbvec & Hbarr & Hbbuf).
  assert (exists r, CopyTo garbage a b h = r /\ CopyFrom garbage b a h = r)
    as (r & -> & ->); [|reflexivity].
  destruct (Z.eq_dec (size_ bv) 0) as [Hempty|Hfull].
  - destruct (valid_empty bv Hbv) as (_ & Hbi & Hbv0 & Hba & Hbb); [lia|].
    destruct (Z.le_gt_cases (size_ av) 0) as [Ha0|Hapos].
    + destruct (valid_empty av Hav Ha0) as (Has & Hai & Hav0 & Haa & Hab).
      exists (Done (tt, h)). split.
      * unfold CopyTo. run.
        rewrite allocated_nothing, insert_id by (assumption || lia).
        run. reflexivity.
      * unfold CopyFrom. run.
        rewrite allocated_nothing, insert_id by (assumption || lia).
        run. reflexivity.
    + destruct (allocated_positive (size_ av) bv Hbv)
        as (_ & Hb1s & Hb1v & Hb1i & Hb1a & Hb1b & Hb1); [lia|].
      remember (allocated garbage (size_ av) bv) as b1 eqn:E.
      destruct (valid_parts b1 Hb1) as (Hdr & Hdvec & Hdarr & Hdbuf).
      destruct (Z.le_gt_cases (index_size_ av) 0) as [Hi0|Hipos];
        (eexists; split;
         [ unfold CopyTo; run; rewrite <- E; run_all;
           rewrite !insert_insert_eq; reflexivity
         | unfold CopyFrom; run; rewrite <- E; run_all;
           rewrite !insert_insert_eq; reflexivity ]).
  - destruct (Z.eq_dec (size_ bv) (size_ av)) as [Hsize|Hsize];
      [destruct (Z.eq_dec (index_size_ bv) (index_size_ av)) as [Hindex|Hindex]|].
    + eexists; split.
      * unfold CopyTo. run_all. rewrite !insert_insert_eq. reflexivity.
      * unfold CopyFrom. run_all. rewrite !insert_insert_eq. reflexivity.
    + exists (Fatal AssertionFailed). split.
      * apply (CopyTo_device_mismatch h a b av bv); auto.
      * apply (CopyFrom_device_mismatch h b a bv av); auto.
    + exists (Fatal AssertionFailed). split.
      * apply (CopyTo_device_mismatch h a b av bv); auto.
      * apply (CopyFrom_device_mismatch h b a bv av); auto.
Qed.

(** X15.  [CopyFrom] into a device vector that is not empty and has the sizes
    of the source replaces the data and the index array by the source's
    and nothing else; the source is left as it is, the result is a state
    of the data model, and copying once more changes nothing. *)
Theorem CopyFrom_overwrites (h : gmap nat object) (this src : nat) (d s : t) :
  h !! this = Some (Hip d) -> h !! src = Some (Hip s) -> this <> src ->
  valid d -> valid s ->
  size_ d <> 0 -> size_ d = size_ s -> index_size_ d = index_size_ s ->
  let d' := set_index_array_ (index_array_ s) (set_vec_ (vec_ s) d) in
  let h' := <[this := Hip d']> h in
  CopyFrom garbage this src h = Done (tt, h')
  /\ h' !! src = Some (Hip s)
  /\ valid d'
  /\ CopyFrom garbage this src h' = Done (tt, h').
Proof.
  intros Hthis Hsrc Hne Hd Hs Hfull Hsize Hindex d' h'.
  destruct (valid_parts d Hd) as (Hdr & Hdvec & Hdarr & Hdbuf).
  destruct (valid_parts s Hs) as (Hsr & Hsvec & Hsarr & Hsbuf).
  assert (valid d') as Hd' by (subst d'; valid_tac).
  split; [now apply CopyFrom_device_same_sizes|].
  split; [subst h'; lookup_tac|]. split; [assumption|].
  rewrite (CopyFrom_device_same_sizes h' this src d' s);
    try assumption; try (subst h'; lookup_tac).
  subst h' d'. rewrite insert_insert_eq. reflexivity.
Qed.

(** X16.  [SetIndexArray(size, index)] refuses a size that is not positive or
    exceeds the vector's.  Otherwise the vector gets the index array
    [index] of that size and a fresh index buffer; size and data are not
    touched and the result is a state of the data model. *)
Theorem SetIndexArray_contract (h : gmap nat object) (this : nat) (v : t)
    (size : Z) (index : buffer) :
  h !! this = Some (Hip v) -> valid v ->
  (size <= 0 \/ size_ v < size ->
     SetIndexArray garbage this size index h = Fatal AssertionFailed)
  /\ (0 < size <= size_ v -> holds index size ->
        exists v',
          SetIndexArray garbage this size index h
          = Done (tt, <[this := Hip v']> h)
          /\ index_size_ v' = size /\ index_array_ v' = index
          /\ size_ v' = size_ v /\ vec_ v' = vec_ v
          /\ valid v').
Proof.
  intros Hthis Hv.
  destruct (valid_parts v Hv) as (Hr & Hvec & Harr & Hbuf).
  split.
  - intros [Hsize|Hsize]; unfold SetIndexArray.
    + failed_assertion.
    + run. failed_assertion.
  - intros Hsize Hindex. eexists. split.
    + unfold SetIndexArray. run.
      erewrite bindM_Done; cycle 1.
      { apply lift_Done.
        rewrite (hipMemcpy_holds _ index size) by holds_tac. reflexivity. }
      run. rewrite !insert_insert_eq. reflexivity.
    + tidy. repeat (split; [reflexivity|]). valid_tac.
Qed.

(** *** Windows of the data *)

Lemma splice_cell (c vals : list Z) (start end_ k : Z) :
  0 <= start <= end_ -> end_ <= Z.of_nat (length c) ->
  Z.of_nat (length vals) = end_ - start -> 0 <= k ->
  cell (take (Z.to_nat start) c ++ vals ++ drop (Z.to_nat end_) c) k
  = if (start <=? k) && (k <? end_) then cell vals (k - start) else cell c k.
Proof.
  intros Hse Hend Hlen Hk. unfold cell.
  assert (length (take (Z.to_nat start) c) = Z.to_nat start) as Htake
    by (apply length_take_le; lia).
  destruct (Z.leb_spec start k) as [Hge|Hlt]; cbn [andb].
  - rewrite lookup_app_r by lia. rewrite Htake.
    destruct (Z.ltb_spec k end_) as [Hin|Hout].
    + rewrite lookup_app_l by lia. do 2 f_equal. lia.
    + rewrite lookup_app_r by lia. rewrite lookup_drop. do 2 f_equal. lia.
  - rewrite lookup_app_l by lia. now rewrite lookup_take_lt by lia.
Qed.

Lemma splice_window (c vals : list Z) (start end_ : Z) :
  0 <= start <= end_ -> end_ <= Z.of_nat (length c) ->
  Z.of_nat (length vals) = end_ - start ->
  window (take (Z.to_nat start) c ++ vals ++ drop (Z.to_nat end_) c) start end_
  = vals.
Proof.
  intros Hse Hend Hlen. unfold window.
  rewrite drop_app_length' by (rewrite length_take_le; lia).
  apply take_app_length'. lia.
Qed.

Lemma splice_length (c vals : list Z) (start end_ : Z) :
  0 <= start <= end_ -> end_ <= Z.of_nat (length c) ->
  Z.of_nat (length vals) = end_ - start ->
  length (take (Z.to_nat start) c ++ vals ++ drop (Z.to_nat end_) c) = length c.
Proof.
  intros Hse Hend Hlen.
  rewrite !length_app, length_take_le, length_drop by lia. lia.
Qed.

(** X17.  [SetContinuousValues] and [GetContinuousValues] refuse a window that
    is not inside the vector.  Otherwise [SetContinuousValues(start, end,
    values)] puts the values into the cells [start .. end - 1] and leaves
    every other cell and every other member as it is, and
    [GetContinuousValues] of the same window reads these values back and
    changes nothing. *)
Theorem continuous_values_round_trip (h : gmap nat object) (this : nat) (v : t)
    (start end_ : Z) (vals out : list Z) :
  h !! this = Some (Hip v) -> valid v ->
  (start < 0 \/ end_ < start \/ size_ v < end_ ->
     SetContinuousValues this start end_ (Some vals) h = Fatal AssertionFailed
     /\ GetContinuousValues this start end_ (Some out) h = Fatal AssertionFailed)
  /\ (0 <= start <= end_ -> end_ <= size_ v ->
      Z.of_nat (length vals) = end_ - start ->
      Z.of_nat (length out) = end_ - start ->
      exists b,
        let h' := <[this := Hip (set_vec_ b v)]> h in
        SetContinuousValues this start end_ (Some vals) h = Done (tt, h')
        /\ holds b (size_ v)
        /\ (forall k, 0 <= k < size_ v ->
              cell (contents b) k
              = if (start <=? k) && (k <? end_) then cell vals (k - start)
                else cell (contents (vec_ v)) k)
        /\ GetContinuousValues this start end_ (Some out) h'
           = Done (Some vals, h')).
Proof.
  intros Hthis Hv.
  destruct (valid_parts v Hv) as (Hr & Hvec & _).
  split.
  - intros Hbad. unfold SetContinuousValues, GetContinuousValues.
    destruct (Z.lt_ge_cases start 0); [split; failed_assertion|].
    destruct (Z.lt_ge_cases end_ start); [split; run; failed_assertion|].
    split; run; failed_assertion.
  - intros Hse Hend Hvals Hout.
    destruct (Z.eq_dec start end_) as [Heq|Hne].
    + exists (vec_ v). cbv zeta.
      assert (vals = []) as -> by (destruct vals; [reflexivity|cbn in Hvals; lia]).
      assert (out = []) as -> by (destruct out; [reflexivity|cbn in Hout; lia]).
      assert (<[this := Hip (set_vec_ (vec_ v) v)]> h = h) as ->.
      { apply insert_id. rewrite Hthis. now destruct v. }
      subst end_. unfold SetContinuousValues, GetContinuousValues.
      cbn [is_null negb]. rewrite Z.sub_diag.
      split; [|split; [assumption|split]].
      * run. unfold hipMemcpy_at. cbn [Z.eqb]. run.
        rewrite insert_id; [reflexivity|]. rewrite Hthis. now destruct v.
      * intros k Hk. destruct (Z.leb_spec start k), (Z.ltb_spec k start);
          cbn [andb]; (reflexivity || lia).
      * run. reflexivity.
    + destruct (holds_positive _ _ Hvec) as (c & Hc & Hlen); [lia|].
      assert (hipMemcpy_at (Some c) start (Some vals) 0 (end_ - start)
              = Done (Some (take (Z.to_nat start) c ++ vals
                            ++ drop (Z.to_nat end_) c))) as Hwrite.
      { unfold hipMemcpy_at.
        destruct (Z.eqb_spec (end_ - start) 0); [lia|].
        destruct (Z.ltb_spec 0 (end_ - start)); [|lia].
        destruct (Z.leb_spec 0 start); [|lia].
        destruct (Z.leb_spec (start + (end_ - start)) (Z.of_nat (length c)));
          [|lia].
        destruct (Z.leb_spec (0 + (end_ - start)) (Z.of_nat (length vals)));
          [|lia].
        cbn [andb Z.leb Z.compare]. rewrite Z2Nat.inj_0, drop_0.
        rewrite (take_ge vals) by lia.
        replace (start + (end_ - start)) with end_ by lia. reflexivity. }
      exists (Some (take (Z.to_nat start) c ++ vals ++ drop (Z.to_nat end_) c)).
      cbv zeta. split; [|split; [|split]].
      * unfold SetContinuousValues. cbn [is_null negb]. run. rewrite Hc.
        erewrite bindM_Done by (apply lift_Done; exact Hwrite).
        run. reflexivity.
      * cbn [holds]. rewrite splice_length by lia. lia.
      * intros k Hk. rewrite Hc. cbn [contents]. apply splice_cell; lia.
      * unfold GetContinuousValues. cbn [is_null negb]. run.
        apply lift_Done. unfold hipMemcpy_at.
        destruct (Z.eqb_spec (end_ - start) 0); [lia|].
        destruct (Z.ltb_spec 0 (end_ - start)); [|lia].
        destruct (Z.leb_spec 0 start); [|lia].
        rewrite splice_length by lia.
        destruct (Z.leb_spec (start + (end_ - start)) (Z.of_nat (length c)));
          [|lia].
        destruct (Z.leb_spec (0 + (end_ - start)) (Z.of_nat (length out)));
          [|lia].
        cbn [andb Z.leb Z.compare]. rewrite Z2Nat.inj_0, take_0.
        rewrite (drop_ge out) by lia. rewrite app_nil_r. cbn [app].
        pose proof (splice_window c vals start end_) as Hw.
        unfold window in Hw. rewrite Hw by lia. reflexivity.
Qed.

Lemma kernel_copy_offset_from_copies (n src_offset dst_offset : Z)
    (a o : list Z) :
  0 <= src_offset -> 0 <= dst_offset -> 0 <= n ->
  src_offset + n <= Z.of_nat (length a) ->
  dst_offset + n <= Z.of_nat (length o) ->
  exists o',
    kernel_copy_offset_from n src_offset dst_offset (Some a) (Some o)
    = Done (Some o')
    /\ length o' = length o
    /\ forall k, 0 <= k ->
         cell o' k
         = if (dst_offset <=? k) && (k <? dst_offset + n)
           then cell a (k - dst_offset + src_offset) else cell o k.
Proof.
  intros Hso Hdo Hn Ha Ho. unfold kernel_copy_offset_from.
  destruct (for_range_invariant
              (fun i o' =>
                 length o' = length o
                 /\ forall k, 0 <= k ->
                      cell o' k
                      = if (dst_offset <=? k) && (k <? dst_offset + i)
                        then cell a (k - dst_offset + src_offset) else cell o k)
              (fun i o => x <- load a (i + src_offset) ;;
                          store o (i + dst_offset) x)
              0 n o) as (o' & Hrun & Hlen & Hcells).
  - assumption.
  - intros i o1 Hi (Hlen1 & Hcells1).
    rewrite load_cell by lia. cbn [bind].
    rewrite store_in_range by lia.
    eexists. split; [reflexivity|]. split; [now rewrite length_insert|].
    intros k Hk. destruct (Z.eq_dec k (i + dst_offset)) as [->|Hne].
    + rewrite cell_insert_eq by lia.
      destruct (Z.leb_spec dst_offset (i + dst_offset)); [|lia].
      destruct (Z.ltb_spec (i + dst_offset) (dst_offset + (i + 1))); [|lia].
      cbn [andb]. f_equal. lia.
    + rewrite cell_insert_ne by lia. rewrite Hcells1 by assumption.
      destruct (Z.leb_spec dst_offset k); cbn [andb]; [|reflexivity].
      destruct (Z.ltb_spec k (dst_offset + i)),
               (Z.ltb_spec k (dst_offset + (i + 1))); (reflexivity || lia).
  - split; [reflexivity|]. intros k Hk.
    destruct (Z.leb_spec dst_offset k); cbn [andb]; [|reflexivity].
    destruct (Z.ltb_spec k (dst_offset + 0)); [lia|reflexivity].
  - exists o'. rewrite Hrun. cbn [bind]. auto.
Qed.

(** A loop one of whose iterations is an access outside an array, the
    others being such an access or a step that keeps [Inv]. *)
Lemma for_iter_fails {S : Type} (Inv : S -> Prop)
    (body : Z -> S -> outcome S) (n : nat) (lo k : Z) (st : S) :
  lo <= k < lo + Z.of_nat n ->
  (forall i st, Inv st ->
     (exists st', body i st = Done st' /\ Inv st') \/ body i st = Undefined) ->
  (forall st, Inv st -> body k st = Undefined) ->
  Inv st ->
  for_iter n lo body st = Undefined.
Proof.
  revert lo st. induction n as [|n IH]; intros lo st Hk Hbody Hstop Hinv; [lia|].
  cbn [for_iter]. destruct (Z.eq_dec lo k) as [->|Hne].
  - now rewrite (Hstop st Hinv).
  - destruct (Hbody lo st Hinv) as [(st' & -> & Hinv')| ->]; [|reflexivity].
    cbn [bind]. apply IH; (assumption || lia).
Qed.

Lemma int_wrap_le (z : Z) : -2147483648 <= z -> int_wrap z <= z.
Proof.
  intros Hz. unfold int_wrap.
  pose proof (Z.mod_le (z + 2147483648) 4294967296). lia.
Qed.

(** A window that is not inside its array: the kernel accesses a cell
    outside of it. *)
Lemma kernel_copy_offset_from_outside (n src_offset dst_offset : Z)
    (a o : list Z) :
  0 < n ->
  src_offset < 0 \/ Z.of_nat (length a) < src_offset + n
  \/ dst_offset < 0 \/ Z.of_nat (length o) < dst_offset + n ->
  kernel_copy_offset_from n src_offset dst_offset (Some a) (Some o) = Undefined.
Proof.
  intros Hn Houtside. unfold kernel_copy_offset_from, for_range.
  set (body := fun (i : Z) (o : list Z) =>
                 x <- load a (i + src_offset) ;; store o (i + dst_offset) x).
  assert (forall k, 0 <= k < n ->
            (forall o', length o' = length o -> body k o' = Undefined) ->
            for_iter (Z.to_nat (n - 0)) 0 body o = Undefined) as Hfails.
  { intros k Hk Hstop.
    apply (for_iter_fails (fun o' => length o' = length o) body _ 0 k);
      [lia | | assumption | reflexivity].
    intros i o' Hlen. unfold body, load, store.
    destruct (0 <=? i + src_offset); [|now right].
    destruct (a !! Z.to_nat (i + src_offset)); [|now right]. cbn [bind].
    destruct ((0 <=? i + dst_offset) && (i + dst_offset <? Z.of_nat (length o')));
      [|now right].
    left. eexists. split; [reflexivity|]. now rewrite length_insert. }
  assert (for_iter (Z.to_nat (n - 0)) 0 body o = Undefined) as ->;
    [|reflexivity].
  destruct (Z.lt_ge_cases src_offset 0) as [Hso|Hso].
  { apply (Hfails 0); [lia|]. intros o' _. unfold body, load.
    destruct (Z.leb_spec 0 (0 + src_offset)); [lia|reflexivity]. }
  destruct (Z.lt_ge_cases (Z.of_nat (length a)) (src_offset + n)) as [Hsend|Hsend].
  { apply (Hfails (Z.max 0 (Z.of_nat (length a) - src_offset))); [lia|].
    intros o' _. unfold body, load.
    destruct (Z.leb_spec 0 (Z.max 0 (Z.of_nat (length a) - src_offset) + src_offset));
      [|reflexivity].
    rewrite lookup_ge_None_2 by lia. reflexivity. }
  destruct (Z.lt_ge_cases dst_offset 0) as [Hdo|Hdo].
  { apply (Hfails 0); [lia|]. intros o' _. unfold body, load, store.
    destruct (0 <=? 0 + src_offset); [|reflexivity].
    destruct (a !! Z.to_nat (0 + src_offset)); [|reflexivity]. cbn [bind].
    destruct (Z.leb_spec 0 (0 + dst_offset)); [lia|reflexivity]. }
  apply (Hfails (Z.max 0 (Z.of_nat (length o) - dst_offset))); [lia|].
  intros o' Hlen. unfold body, load, store.
  destruct (0 <=? Z.max 0 (Z.of_nat (length o) - dst_offset) + src_offset);
    [|reflexivity].
  destruct (a !! Z.to_nat (Z.max 0 (Z.of_nat (length o) - dst_offset) + src_offset));
    [|reflexivity].
  cbn [bind].
  destruct (Z.ltb_spec (Z.max 0 (Z.of_nat (length o) - dst_offset) + dst_offset)
              (Z.of_nat (length o'))); [lia|].
  rewrite andb_false_r. reflexivity.
Qed.

(** X18.  [CopyFrom(src, src_offset, dst_offset, size)] from another
    device vector, every array of the two being null or as long as its
    size member says.  It ends in a failed assertion on an empty vector
    (nothing is allocated, unlike [CopyFrom(src)]), on an empty source,
    on a size that is not positive and when [src_offset + size] or
    [dst_offset + size], computed in [int], exceeds the size of its
    vector.  When both windows lie inside their vectors, the cells
    [dst_offset .. dst_offset + size - 1] get the source's cells from
    [src_offset] on, and every other cell and member is left as it is.
    The assertions do not check more: with a negative offset, or with a
    sum that wraps around, they hold and the kernel accesses a cell
    outside an array. *)
Theorem CopyFrom_window_contract (h : gmap nat object) (this src : nat)
    (v s : t) (src_offset dst_offset n : Z) :
  h !! this = Some (Hip v) -> h !! src = Some (Hip s) -> this <> src ->
  wellformed v -> wellformed s ->
  (size_ v <= 0 \/ size_ s <= 0 \/ n <= 0
   \/ size_ s < int_wrap (src_offset + n)
   \/ size_ v < int_wrap (dst_offset + n) ->
     CopyFrom_window this src src_offset dst_offset n h = Fatal AssertionFailed)
  /\ (0 < n -> 0 <= src_offset -> src_offset + n <= size_ s ->
      0 <= dst_offset -> dst_offset + n <= size_ v ->
      exists out,
        CopyFrom_window this src src_offset dst_offset n h
        = Done (tt, <[this := Hip (set_vec_ (Some out) v)]> h)
        /\ Z.of_nat (length out) = size_ v
        /\ forall k, 0 <= k < size_ v ->
             cell out k
             = if (dst_offset <=? k) && (k <? dst_offset + n)
               then cell (contents (vec_ s)) (k - dst_offset + src_offset)
               else cell (contents (vec_ v)) k)
  /\ (0 < size_ v -> 0 < size_ s -> 0 < n ->
      int_wrap (src_offset + n) <= size_ s ->
      int_wrap (dst_offset + n) <= size_ v ->
      src_offset < 0 \/ size_ s < src_offset + n
      \/ dst_offset < 0 \/ size_ v < dst_offset + n ->
      CopyFrom_window this src src_offset dst_offset n h = Undefined).
Proof.
  intros Hthis Hsrc Hne (Hvec & _) (Hsvec & _).
  assert (same_object this src = false) as Hdistinct by bool_eq.
  split; [|split].
  - intros Hbad. unfold CopyFrom_window.
    destruct (Z.le_gt_cases (size_ v) 0); [run; failed_assertion|].
    destruct (Z.le_gt_cases (size_ s) 0); [run; failed_assertion|].
    destruct (Z.le_gt_cases n 0); [run; failed_assertion|].
    destruct (Z.lt_ge_cases (size_ s) (int_wrap (src_offset + n)));
      [run; failed_assertion|].
    run. failed_assertion.
  - intros Hn Hso Hsend Hdo Hdend.
    pose proof (int_wrap_le (src_offset + n)) as Hswrap.
    pose proof (int_wrap_le (dst_offset + n)) as Hdwrap.
    destruct (holds_positive _ _ Hvec) as (o & Ho & Holen); [lia|].
    destruct (holds_positive _ _ Hsvec) as (a & Ha & Halen); [lia|].
    destruct (kernel_copy_offset_from_copies n src_offset dst_offset a o)
      as (out & Hkernel & Hlen & Hcells); try lia.
    exists out. split; [|split].
    + unfold CopyFrom_window. run. rewrite Hdistinct, Ha, Ho.
      erewrite bindM_Done by (apply lift_Done; exact Hkernel).
      run. reflexivity.
    + lia.
    + intros k Hk. rewrite Ha, Ho. cbn [contents]. apply Hcells. lia.
  - intros Hvpos Hspos Hn Hswrap Hdwrap Houtside.
    destruct (holds_positive _ _ Hvec Hvpos) as (o & Ho & Holen).
    destruct (holds_positive _ _ Hsvec Hspos) as (a & Ha & Halen).
    unfold CopyFrom_window. run. rewrite Hdistinct, Ha, Ho.
    rewrite (kernel_copy_offset_from_outside n src_offset dst_offset a o)
      by (assumption || lia).
    reflexivity.
Qed.

Lemma kernel_copy_offset_from_in_place_copies (n src_offset dst_offset : Z)
    (o : list Z) :
  0 <= src_offset -> 0 <= dst_offset -> 0 <= n ->
  src_offset + n <= Z.of_nat (length o) ->
  dst_offset + n <= Z.of_nat (length o) ->
  src_offset + n <= dst_offset \/ dst_offset + n <= src_offset ->
  exists o',
    kernel_copy_offset_from_in_place n src_offset dst_offset (Some o)
    = Done (Some o')
    /\ length o' = length o
    /\ forall k, 0 <= k ->
         cell o' k
         = if (dst_offset <=? k) && (k <? dst_offset + n)
           then cell o (k - dst_offset + src_offset) else cell o k.
Proof.
  intros Hso Hdo Hn Ha Ho Hdisjoint. unfold kernel_copy_offset_from_in_place.
  destruct (for_range_invariant
              (fun i o' =>
                 length o' = length o
                 /\ forall k, 0 <= k ->
                      cell o' k
                      = if (dst_offset <=? k) && (k <? dst_offset + i)
                        then cell o (k - dst_offset + src_offset) else cell o k)
              (fun i o => x <- load o (i + src_offset) ;;
                          store o (i + dst_offset) x)
              0 n o) as (o' & Hrun & Hlen & Hcells).
  - assumption.
  - intros i o1 Hi (Hlen1 & Hcells1).
    rewrite load_cell by lia. cbn [bind].
    rewrite store_in_range by lia.
    assert (cell o1 (i + src_offset) = cell o (i + src_offset)) as Hread.
    { rewrite Hcells1 by lia.
      destruct (Z.leb_spec dst_offset (i + src_offset)); cbn [andb];
        [|reflexivity].
      destruct (Z.ltb_spec (i + src_offset) (dst_offset + i)); [lia|reflexivity]. }
    eexists. split; [reflexivity|]. split; [now rewrite length_insert|].
    intros k Hk. destruct (Z.eq_dec k (i + dst_offset)) as [->|Hne].
    + rewrite cell_insert_eq by lia. rewrite Hread.
      destruct (Z.leb_spec dst_offset (i + dst_offset)); [|lia].
      destruct (Z.ltb_spec (i + dst_offset) (dst_offset + (i + 1))); [|lia].
      cbn [andb]. f_equal. lia.
    + rewrite cell_insert_ne by lia. rewrite Hcells1 by assumption.
      destruct (Z.leb_spec dst_offset k); cbn [andb]; [|reflexivity].
      destruct (Z.ltb_spec k (dst_offset + i)),
               (Z.ltb_spec k (dst_offset + (i + 1))); (reflexivity || lia).
  - split; [reflexivity|]. intros k Hk.
    destruct (Z.leb_spec dst_offset k); cbn [andb]; [|reflexivity].
    destruct (Z.ltb_spec k (dst_offset + 0)); [lia|reflexivity].
  - exists o'. rewrite Hrun. cbn [bind]. auto.
Qed.

(** X19.  [CopyFrom(src, src_offset, dst_offset, size)] with the vector itself
    as the source, which the code does not exclude: when the two windows
    do not overlap, the destination window gets the cells of the source
    window and every other cell is left as it is. *)
Theorem CopyFrom_window_within (h : gmap nat object) (this : nat) (v : t)
    (src_offset dst_offset n : Z) :
  h !! this = Some (Hip v) -> valid v ->
  0 <= src_offset -> 0 <= dst_offset -> 0 < n ->
  src_offset + n <= size_ v -> dst_offset + n <= size_ v ->
  src_offset + n <= dst_offset \/ dst_offset + n <= src_offset ->
  exists out,
    CopyFrom_window this this src_offset dst_offset n h
    = Done (tt, <[this := Hip (set_vec_ (Some out) v)]> h)
    /\ Z.of_nat (length out) = size_ v
    /\ forall k, 0 <= k < size_ v ->
         cell out k
         = if (dst_offset <=? k) && (k <? dst_offset + n)
           then cell (contents (vec_ v)) (k - dst_offset + src_offset)
           else cell (contents (vec_ v)) k.
Proof.
  intros Hthis Hv Hso Hdo Hn Hsend Hdend Hdisjoint.
  pose proof (int_wrap_le (src_offset + n)) as Hswrap.
  pose proof (int_wrap_le (dst_offset + n)) as Hdwrap.
  destruct (valid_parts v Hv) as (Hr & Hvec & _).
  destruct (holds_positive _ _ Hvec) as (o & Ho & Holen); [lia|].
  destruct (kernel_copy_offset_from_in_place_copies n src_offset dst_offset o)
    as (out & Hkernel & Hlen & Hcells); try lia.
  assert (same_object this this = true) as Hsame by bool_eq.
  exists out. split; [|split].
  - unfold CopyFrom_window. run. rewrite Hsame, Ho.
    erewrite bindM_Done by (apply lift_Done; exact Hkernel).
    run. reflexivity.
  - lia.
  - intros k Hk. rewrite Ho. cbn [contents]. apply Hcells. lia.
Qed.

(** *** Permuted copies *)

(** X20.  [CopyFromPermute] from another device vector scatters the source
    along the permutation, whether or not the vectors have an index
    array; [CopyFromPermuteBackward] with the same permutation then gives
    the source its own data back, that is, changes nothing. *)
Theorem permuted_copy_round_trip (h : gmap nat object) (a b perm : nat)
    (av bv pv : t) (pc : list Z) :
  h !! a = Some (Hip av) -> h !! b = Some (Hip bv) ->
  h !! perm = Some (Hip pv) ->
  a <> b -> a <> perm -> b <> perm ->
  valid av -> valid bv ->
  0 < size_ av -> size_ bv = size_ av -> size_ pv = size_ av ->
  vec_ pv = Some pc -> bijection (size_ av) pc ->
  exists out,
    let h' := <[a := Hip (set_vec_ (Some out) av)]> h in
    CopyFromPermute a b perm h = Done (tt, h')
    /\ Z.of_nat (length out) = size_ av
    /\ (forall i, 0 <= i < size_ av ->
          cell out (cell pc i) = cell (contents (vec_ bv)) i)
    /\ CopyFromPermuteBackward b a perm h' = Done (tt, h').
Proof.
  intros Ha Hb Hperm Hab Hap Hbp Hav Hbv Hpos Hbsize Hpsize Hpc Hbij.
  destruct (valid_parts av Hav) as (_ & Havec & _).
  destruct (valid_parts bv Hbv) as (_ & Hbvec & _).
  destruct (holds_positive _ _ Havec Hpos) as (ac & Hac & Haclen).
  destruct (holds_positive _ _ Hbvec) as (bc & Hbc & Hbclen); [lia|].
  destruct (kernel_permute_scatters (size_ av) pc bc ac)
    as (out & Hkernel & Hlen & Hcells); try assumption; try lia.
  destruct (kernel_permute_backward_gathers (size_ av) pc out bc)
    as (back & Hkernel' & Hlen' & Hcells'); try assumption; try lia.
  assert (back = bc) as ->.
  { apply (cells_ext (size_ av)); try lia.
    intros i Hi. rewrite Hcells' by assumption. now apply Hcells. }
  assert (same_object a b = false) as Hdistinct by bool_eq.
  assert (same_object b a = false) as Hdistinct' by bool_eq.
  exists out. cbv zeta. split; [|split; [assumption|split]].
  - unfold CopyFromPermute. run. rewrite Hdistinct, Hpc, Hbc, Hac.
    erewrite bindM_Done by (apply lift_Done; exact Hkernel).
    run. reflexivity.
  - intros i Hi. rewrite Hbc. cbn [contents]. now apply Hcells.
  - unfold CopyFromPermuteBackward. run. rewrite Hbsize.
    run. rewrite Hdistinct', Hpc, Hbc. rewrite <- Hbsize at 1.
    erewrite bindM_Done; cycle 1.
    { apply lift_Done. rewrite Hbsize. exact Hkernel'. }
    run. rewrite insert_id; [reflexivity|].
    rewrite lookup_insert_ne by congruence. rewrite Hb.
    do 2 f_equal. destruct bv; cbn in *. rewrite Hbc. reflexivity.
Qed.

(** *** What every state has *)

(** X23.  The state the constructor leaves has arrays as long as its
    sizes say, and [Clear], [Allocate], [SetDataPtr] with a block of the
    size given, [LeaveDataPtr] and [SetIndexArray] keep this; the bound
    [index_size_ <= size_] of the data model they do not all keep. *)
Theorem wellformed_is_kept (h : gmap nat object) (this : nat) (v : t) :
  h !! this = Some (Hip v) -> wellformed v ->
  wellformed (constructed (local_backend_ v))
  /\ (exists v', Clear this h = Done (tt, <[this := Hip v']> h) /\ wellformed v')
  /\ (forall n, 0 <= n ->
        exists v', Allocate garbage this n h = Done (tt, <[this := Hip v']> h)
                   /\ wellformed v')
  /\ (forall data n, holds data n -> 0 < n ->
        exists v', SetDataPtr garbage this data n h
                   = Done (tt, <[this := Hip v']> h)
                   /\ wellformed v')
  /\ (0 < size_ v ->
        exists v', LeaveDataPtr this h = Done (vec_ v, <[this := Hip v']> h)
                   /\ wellformed v')
  /\ (forall size index, 0 < size <= size_ v -> holds index size ->
        exists v', SetIndexArray garbage this size index h
                   = Done (tt, <[this := Hip v']> h)
                   /\ wellformed v').
Proof.
  intros Hthis Hv. destruct (wellformed_sizes v Hv) as [Hsz Hisz].
  split; [|split; [|split; [|split; [|split]]]].
  - apply valid_wellformed, valid_constructed.
  - exists (cleared v). split; [now apply Clear_leaves_cleared|].
    destruct Hv as (Hvec & Harr & Hbuf).
    unfold cleared, wellformed. cbv zeta.
    destruct (Z.ltb_spec 0 (size_ v)) as [Hpos|Hle]; tidy;
      destruct (Z.ltb_spec 0 (index_size_ v)) as [Hipos|Hile]; tidy;
      cbn [holds]; repeat split; (assumption || lia).
  - intros n Hn. exists (allocated garbage n v).
    split; [now apply Allocate_leaves_allocated|].
    destruct (Z.eq_dec n 0) as [->|Hpos].
    + apply (allocated_zero_of_wellformed v Hv).
    + apply (allocated_of_wellformed n v Hv). lia.
  - intros data n Hdata Hn. destruct data as [c|]; cbn [holds] in Hdata; [|lia].
    destruct Hv as (Hvec & Harr & Hbuf).
    eexists. split.
    + unfold SetDataPtr. cbn [is_null negb]. run.
      rewrite !insert_insert_eq. reflexivity.
    + wellformed_tac.
  - intros Hpos. destruct Hv as (Hvec & Harr & Hbuf).
    eexists. split.
    + unfold LeaveDataPtr. run. cbn [free]. run.
      rewrite !insert_insert_eq. reflexivity.
    + wellformed_tac.
  - intros size index Hsize Hindex. destruct Hv as (Hvec & Harr & Hbuf).
    eexists. split.
    + unfold SetIndexArray. run.
      erewrite bindM_Done; cycle 1.
      { apply lift_Done.
        rewrite (hipMemcpy_holds _ index size) by holds_tac. reflexivity. }
      run. rewrite !insert_insert_eq. reflexivity.
    + wellformed_tac.
Qed.

End HIPVector.

(** ** The properties on the sample objects *)

Section OnSamples.
Import HIPAcceleratorVector Samples.

Ltac sample_valid :=
  unfold valid, valid_host, holds; simpl; repeat split; lia.

Ltac sample_bijection :=
  unfold bijection; simpl; split; [reflexivity|];
  split; [apply (bool_decide_unpack _); vm_compute; exact I
         | repeat constructor; lia].

Lemma valid_indexed : valid indexed.
Proof. sample_valid. Defined.

Lemma valid_vector (data : list Z) : data <> [] -> valid (vector data).
Proof.
  intros Hdata. unfold valid, vector, holds. simpl.
  destruct data; [congruence|]. simpl. repeat split; lia.
Defined.

(** C8 at the indexed vector: after [Allocate(5)] it has five zeros and
    no index array. *)
Lemma Allocate_contract_witness :
  exists v',
    Allocate stale 3 5 objects = Done (tt, <[3%nat := Hip v']> objects)
    /\ size_ v' = 5 /\ vec_ v' = Some [0; 0; 0; 0; 0]
    /\ index_size_ v' = 0 /\ index_array_ v' = None.
Proof.
  destruct (Allocate_contract stale objects 3 indexed eq_refl)
    as (_ & _ & Hpositive).
  destruct (Hpositive 5) as (v' & Hrun & Hs & Hvec & Hcleared & _); [lia|].
  destruct Hcleared as (Hi & Ha & _); [simpl; lia | simpl; lia |].
  exists v'. repeat split; assumption.
Defined.

(** A vector that was constructed, allocated with two elements, given an
    index array and emptied by [LeaveDataPtr]: [Allocate(5)] returns,
    and the vector has five zeros and still the index array and its
    size.  So has the indexed vector. *)
Lemma Allocate_keeps_leftover_index :
  let v' := object_after 0
              ((Allocate stale 0 2 ~;; SetIndexArray stale 0 1 (Some [1]) ~;;
                LeaveDataPtr 0 ~;; Allocate stale 0 5) objects) in
  let w' := object_after 3 ((LeaveDataPtr 3 ~;; Allocate stale 3 5) objects) in
  object_size <$> v' = Some 5
  /\ object_vec <$> v' = Some (Some [0; 0; 0; 0; 0])
  /\ object_index_size <$> v' = Some 1
  /\ object_index_array <$> v' = Some (Some [1])
  /\ object_size <$> w' = Some 5
  /\ object_index_size <$> w' = Some 1
  /\ object_index_array <$> w' = Some (Some [1]).
Proof. vm_compute. repeat split. Qed.

(** C10 at the indexed vector. *)
Lemma self_copy_is_identity_witness :
  CopyFrom stale 3 3 objects = Done (tt, objects)
  /\ CopyTo stale 3 3 objects = Done (tt, objects).
Proof.
  apply (self_copy_is_identity stale objects 3 indexed eq_refl).
  left. simpl. lia.
Defined.

(** A vector that was constructed, allocated with two elements, given an
    index array and emptied by [LeaveDataPtr]: the copy onto itself ends
    in a failed assertion.  So it does on the indexed vector. *)
Lemma self_copy_with_leftover_index :
  (Allocate stale 0 2 ~;; SetIndexArray stale 0 1 (Some [1]) ~;;
   LeaveDataPtr 0 ~;; CopyFrom stale 0 0) objects = Fatal AssertionFailed
  /\ (Allocate stale 0 2 ~;; SetIndexArray stale 0 1 (Some [1]) ~;;
      LeaveDataPtr 0 ~;; CopyTo stale 0 0) objects = Fatal AssertionFailed
  /\ (LeaveDataPtr 3 ~;; CopyFrom stale 3 3) objects = Fatal AssertionFailed
  /\ (LeaveDataPtr 3 ~;; CopyTo stale 3 3) objects = Fatal AssertionFailed.
Proof. vm_compute. repeat split. Qed.

(** C9 from and to the indexed vector, the asynchronous primitive being
    one that transfers nothing before the call returns. *)
Lemma async_copy_on_device_is_copy_witness :
  CopyFromAsync stale pending 0 3 objects = CopyFrom stale 0 3 objects
  /\ CopyToAsync stale pending 0 3 objects = CopyTo stale 0 3 objects.
Proof.
  exact (async_copy_on_device_is_copy stale pending objects 0 3 indexed eq_refl).
Defined.

(** With that primitive and a host source the two entry points differ. *)
Lemma async_copy_from_host_differs :
  CopyFromAsync stale pending 0 4 objects <> CopyFrom stale 0 4 objects.
Proof. vm_compute. discriminate. Qed.

(** C6 into the empty vector from the indexed vector. *)
Lemma copy_allocates_or_rejects_witness :
  exists v',
    CopyFrom stale 0 3 objects = Done (tt, <[0%nat := Hip v']> objects)
    /\ size_ v' = 2 /\ vec_ v' = Some [10; 20]
    /\ index_size_ v' = 1 /\ index_array_ v' = Some [1].
Proof.
  destruct (copy_allocates_or_rejects stale objects 0 3
              (constructed backend) (Hip indexed) eq_refl eq_refl)
    as (Hempty & _);
    [ lia | apply valid_wellformed, valid_constructed
    | exact (valid_wellformed _ valid_indexed) | ].
  destruct Hempty as (v' & Hrun & Hs & Hvec & Hi & Ha & _);
    [reflexivity | reflexivity | simpl; lia |].
  exists v'. repeat split; assumption.
Defined.

(** A vector that was constructed, allocated with two elements, given an
    index array and emptied by [LeaveDataPtr], and the indexed vector
    emptied by [LeaveDataPtr].  As a destination such a vector is not
    allocated: [CopyFrom] into it and [CopyTo] to it end in a failed
    assertion.  As a source it hands over the size of its index array and
    not the array: the empty vector gets a block that was not written. *)
Lemma copy_with_leftover_index :
  (Allocate stale 0 2 ~;; SetIndexArray stale 0 1 (Some [1]) ~;;
   LeaveDataPtr 0 ~;; CopyFrom stale 0 1) objects = Fatal AssertionFailed
  /\ (LeaveDataPtr 3 ~;; CopyFrom stale 3 1) objects = Fatal AssertionFailed
  /\ (LeaveDataPtr 3 ~;; CopyTo stale 1 3) objects = Fatal AssertionFailed
  /\ (let v' := object_after 0 ((LeaveDataPtr 3 ~;; CopyFrom stale 0 3) objects) in
      object_index_size <$> v' = Some 1
      /\ index_array_ (left indexed) = Some [1]
      /\ object_index_array <$> v' = Some (Some [stale 0])).
Proof. vm_compute. repeat split. Qed.

(** C4 on the vector of three elements with the indexed vector, of two
    elements, as the operand. *)
Lemma operand_size_contract_witness :
  AddScale 1 3 2 objects = Fatal AssertionFailed
  /\ Dot 1 3 objects = Fatal AssertionFailed.
Proof.
  destruct (operand_size_contract objects 1 3 2 (vector [3; -7; 5])
              (Hip indexed) (Hip (vector [2; 0; 1])) 2 1 1
              eq_refl eq_refl eq_refl)
    as (_ & Hupdate & Hdot & _); [simpl; lia|].
  split.
  - apply Hupdate; simpl; lia.
  - apply Hdot; simpl; lia.
Defined.

(** C5 on the empty vector. *)
Lemma Amax_contract_witness :
  Amax_int 0 objects = Fatal FatalError
  /\ Amax 0 objects = Done ((0, 0), objects).
Proof.
  destruct (Amax_contract objects 0 (constructed backend) eq_refl)
    as (Hint & Hempty).
  split; [exact Hint|]. apply Hempty. simpl. lia.
Defined.

(** The specialisation for [int] on the empty vector; and the primary
    template on the vector (3, -7, 5), whose cell of largest magnitude is
    the cell 1, of absolute value 7. *)
Lemma Amax_of_int_and_of_3_7_5 :
  Amax_int 0 objects = Fatal FatalError
  /\ Amax 1 objects = Done ((2, 5), objects).
Proof. split; reflexivity. Qed.


(** An empty vector takes an operand of three elements in [AddScale],
    which returns; [Dot] on the same vectors ends in a failed assertion. *)
Lemma empty_vector_with_operand_of_size_3 :
  size_ (constructed backend) = 0
  /\ size_ (vector [3; -7; 5]) = 3
  /\ AddScale 0 1 2 objects = Done (tt, objects)
  /\ Dot 0 1 objects = Fatal AssertionFailed.
Proof. repeat split. Qed.

(** C7.  [Permute] on the indexed vector (10, 20), with the permutation
    (1, 0), ends in a failed assertion, where the scatter is (20, 10);
    so it does on a vector that was constructed, allocated with two
    elements and given an index array, and so does [PermuteBackward].
    The temporary copy that [Permute] makes has no index array, and
    [CopyFrom] refuses index sizes that differ. *)
Theorem Permute_of_indexed_vector :
  valid indexed
  /\ bijection (size_ indexed) [1; 0]
  /\ Permute stale 3 5 objects = Fatal AssertionFailed
  /\ PermuteBackward stale 3 5 objects = Fatal AssertionFailed
  /\ (Allocate stale 0 2 ~;; SetIndexArray stale 0 1 (Some [1]) ~;;
      Permute stale 0 5) objects = Fatal AssertionFailed.
Proof.
  split; [exact valid_indexed|]. split; [sample_bijection|].
  repeat split; vm_compute; reflexivity.
Qed.

End OnSamples.


(** ** More on the stencil *)

Section StencilOperator.
Import HostStencilLaplace2D.

Lemma grid_range (s i j : Z) : 0 <= i < s -> 0 <= j < s -> 0 <= i * s + j < s * s.
Proof. nia. Qed.

(** Two vectors over the grid that agree at every grid point are equal. *)
Lemma grid_ext (s : Z) (a b : list Z) :
  0 < s -> Z.of_nat (length a) = s * s -> Z.of_nat (length b) = s * s ->
  (forall i j, 0 <= i < s -> 0 <= j < s ->
     a !! Z.to_nat (i * s + j) = b !! Z.to_nat (i * s + j)) ->
  a = b.
Proof.
  intros Hs Ha Hb Hcells. apply list_eq. intros k.
  destruct (decide (k < length a)%nat) as [Hk|Hk].
  - pose proof (Z.div_mod (Z.of_nat k) s) as Hdm.
    pose proof (Z.mod_pos_bound (Z.of_nat k) s Hs) as Hmod.
    assert (0 <= Z.of_nat k / s < s) as Hdiv.
    { split; [apply Z.div_pos; lia|]. apply Z.div_lt_upper_bound; lia. }
    specialize (Hcells (Z.of_nat k / s) (Z.of_nat k mod s) Hdiv Hmod).
    replace (Z.to_nat (Z.of_nat k / s * s + Z.of_nat k mod s)) with k in Hcells
      by lia.
    exact Hcells.
  - rewrite !lookup_ge_None_2 by lia. reflexivity.
Qed.


(** X4.  Without a grid ([size_ <= 0]) [Apply] and [ApplyAdd] return and leave
    [out] as it is, whatever the sizes of the vectors; with a grid whose
    number of points [size_ * size_] is an [int], a vector [in] or [out]
    whose size is not that number ends in a failed assertion. *)
Theorem stencil_size_checks (s scalar : Z) (inp out : list Z) :
  (s <= 0 ->
     Apply (laplace2d s) inp out = Done out
     /\ ApplyAdd (laplace2d s) inp scalar out = Done out)
  /\ (0 < s -> s * s <= INT_MAX ->
        Z.of_nat (length inp) <> s * s \/ Z.of_nat (length out) <> s * s ->
        Apply (laplace2d s) inp out = Fatal AssertionFailed
        /\ ApplyAdd (laplace2d s) inp scalar out = Fatal AssertionFailed).
Proof.
  unfold Apply, ApplyAdd, guarded, get_nrow, get_size.
  cbn [ndim_ size_ laplace2d]. split.
  - intros Hs. destruct (Z.ltb_spec 0 s); [lia|]. split; reflexivity.
  - intros Hs _ Hdiff. destruct (Z.ltb_spec 0 s); [|lia]. cbn [andb Z.ltb Z.compare].
    destruct (Z.leb_spec 0 (Z.of_nat (length inp))); [|lia].
    destruct (Z.leb_spec 0 (Z.of_nat (length out))); [|lia].
    cbn [assert bind].
    destruct (Z.eqb_spec (Z.of_nat (length inp)) (s * s)); [|split; reflexivity].
    cbn [assert bind].
    destruct (Z.eqb_spec (Z.of_nat (length out)) (s * s)); [lia|split; reflexivity].
Qed.

End StencilOperator.

(** ** The hierarchy setters, one after the other *)

Section HierarchySetters.
Import MultiGrid.

(** A loop is its first iterations followed by the others. *)
Lemma for_iter_app {S : Type} (body : Z -> S -> outcome S) (n m : nat)
    (lo : Z) (st : S) :
  for_iter (n + m) lo body st
  = (st' <- for_iter n lo body st ;; for_iter m (lo + Z.of_nat n) body st').
Proof.
  revert lo st. induction n as [|n IH]; intros lo st.
  - cbn [for_iter bind Nat.add]. f_equal. lia.
  - cbn [for_iter Nat.add]. destruct (body lo st) as [st1| |]; cbn [bind];
      [|reflexivity..].
    rewrite IH. do 2 f_equal. lia.
Qed.

(** A loop whose iteration [mid] is an access outside an array. *)
Lemma for_range_stops {S : Type} (Inv : Z -> S -> Prop)
    (body : Z -> S -> outcome S) (lo mid hi : Z) (st : S) :
  lo <= mid < hi ->
  (forall k st, lo <= k < mid -> Inv k st ->
     exists st', body k st = Done st' /\ Inv (k + 1) st') ->
  Inv lo st ->
  (forall st, Inv mid st -> body mid st = Undefined) ->
  for_range lo hi body st = Undefined.
Proof.
  intros Hmid Hbody Hinv Hstop. unfold for_range.
  replace (Z.to_nat (hi - lo))
    with (Z.to_nat (mid - lo) + Datatypes.S (Z.to_nat (hi - mid - 1)))%nat by lia.
  rewrite for_iter_app.
  destruct (for_iter_invariant Inv body (Z.to_nat (mid - lo)) lo st)
    as (st' & -> & Hinv'); [|assumption|].
  - intros k st' Hk. apply Hbody. lia.
  - cbn [bind for_iter].
    replace (lo + Z.of_nat (Z.to_nat (mid - lo))) with mid in * by lia.
    now rewrite (Hstop st' Hinv').
Qed.

Lemma SetRestrictOperator_runs (mg : t) (op : option (list Operator)) :
  (forall a, op = Some a -> levels_ mg - 1 <= Z.of_nat (length a)) ->
  SetRestrictOperator mg op
  = (if build_ mg || is_null op || (levels_ mg <=? 0)
     then Fatal AssertionFailed
     else Done (with_restrict_op_level_
                  (first_pointers (levels_ mg) (default [] op)) mg)).
Proof.
  intros Hop. unfold SetRestrictOperator.
  destruct (build_ mg); [reflexivity|].
  destruct op as [a|]; [|reflexivity].
  cbn [negb assert bind is_null orb default].
  destruct (Z.ltb_spec 0 (levels_ mg)), (Z.leb_spec (levels_ mg) 0); try lia;
    cbn [assert bind]; [|reflexivity].
  rewrite copy_pointers_first by (assumption || now apply Hop). reflexivity.
Qed.

Lemma SetProlongOperator_runs (mg : t) (op : option (list Operator)) :
  (forall a, op = Some a -> levels_ mg - 1 <= Z.of_nat (length a)) ->
  SetProlongOperator mg op
  = (if build_ mg || is_null op || (levels_ mg <=? 0)
     then Fatal AssertionFailed
     else Done (with_prolong_op_level_
                  (first_pointers (levels_ mg) (default [] op)) mg)).
Proof.
  intros Hop. unfold SetProlongOperator.
  destruct (build_ mg); [reflexivity|].
  destruct op as [a|]; [|reflexivity].
  cbn [negb assert bind is_null orb default].
  destruct (Z.ltb_spec 0 (levels_ mg)), (Z.leb_spec (levels_ mg) 0); try lia;
    cbn [assert bind]; [|reflexivity].
  rewrite copy_pointers_first by (assumption || now apply Hop). reflexivity.
Qed.

(** X5.  The three setters do not depend on one another: with arrays that are
    long enough for the number of levels, any two of them give the same
    solver, or the same failure, in either order. *)
Theorem hierarchy_setters_commute (mg : t) (op r p : option (list Operator)) :
  (forall a, r = Some a -> levels_ mg - 1 <= Z.of_nat (length a)) ->
  (forall a, p = Some a -> levels_ mg - 1 <= Z.of_nat (length a)) ->
  (mg' <- SetRestrictOperator mg r ;; SetProlongOperator mg' p)
  = (mg' <- SetProlongOperator mg p ;; SetRestrictOperator mg' r)
  /\ (mg' <- SetOperatorHierarchy mg op ;; SetRestrictOperator mg' r)
     = (mg' <- SetRestrictOperator mg r ;; SetOperatorHierarchy mg' op)
  /\ (mg' <- SetOperatorHierarchy mg op ;; SetProlongOperator mg' p)
     = (mg' <- SetProlongOperator mg p ;; SetOperatorHierarchy mg' op).
Proof.
  intros Hr Hp.
  rewrite (SetRestrictOperator_runs mg r Hr), (SetProlongOperator_runs mg p Hp).
  unfold SetOperatorHierarchy.
  destruct (build_ mg) eqn:Hbuild; [repeat split; reflexivity|].
  destruct (Z.leb_spec (levels_ mg) 0) as [Hnone|Hpos].
  - destruct op, r, p; repeat split; cbn [is_null orb negb assert bind];
      rewrite ?SetRestrictOperator_runs, ?SetProlongOperator_runs by assumption;
      cbn [build_ levels_ with_op_level_ with_restrict_op_level_
           with_prolong_op_level_];
      rewrite ?Hbuild; cbn [is_null orb negb assert bind];
      destruct (Z.leb_spec (levels_ mg) 0); (reflexivity || lia).
  - destruct op, r, p; repeat split; cbn [is_null orb negb assert bind];
      rewrite ?SetRestrictOperator_runs, ?SetProlongOperator_runs by assumption;
      cbn [build_ levels_ with_op_level_ with_restrict_op_level_
           with_prolong_op_level_];
      rewrite ?Hbuild; cbn [is_null orb negb assert bind];
      try (destruct (Z.leb_spec (levels_ mg) 0); [lia|]);
      reflexivity.
Qed.

(** X6.  The transfer setters read the first [levels_ - 1] pointers of the
    caller's array without a check of its length: a shorter array is read
    behind its end.  With an array that is long enough they return an
    array of [levels_] slots whose first [levels_ - 1] slots are the
    caller's pointers and whose last slot is never assigned; the flags
    and the number of levels are left as they are. *)
Theorem transfer_setters_bounds (mg : t) (a : list Operator) :
  build_ mg = false -> 0 < levels_ mg ->
  (Z.of_nat (length a) < levels_ mg - 1 ->
     SetRestrictOperator mg (Some a) = Undefined
     /\ SetProlongOperator mg (Some a) = Undefined)
  /\ (levels_ mg - 1 <= Z.of_nat (length a) ->
      exists arr,
        SetRestrictOperator mg (Some a) = Done (with_restrict_op_level_ arr mg)
        /\ SetProlongOperator mg (Some a) = Done (with_prolong_op_level_ arr mg)
        /\ Z.of_nat (length arr) = levels_ mg
        /\ (forall i x, 0 <= i < levels_ mg - 1 ->
              a !! Z.to_nat i = Some x -> arr !! Z.to_nat i = Some (Some x))
        /\ arr !! Z.to_nat (levels_ mg - 1) = Some None).
Proof.
  intros Hbuild Hpos. split.
  - intros Hshort.
    assert (copy_pointers (levels_ mg) a (new_array (levels_ mg)) = Undefined)
      as Hcopy.
    { unfold copy_pointers.
      apply (for_range_stops
               (fun k dst => Z.of_nat (length dst) = levels_ mg)
               _ 0 (Z.of_nat (length a))).
      - lia.
      - intros k dst Hk Hlen.
        destruct (lookup_lt_is_Some_2 a (Z.to_nat k)) as [x Hx]; [lia|].
        rewrite (load_in_range a k x) by (lia || assumption). cbn [bind].
        rewrite store_in_range by lia.
        eexists. split; [reflexivity|]. now rewrite length_insert.
      - unfold new_array. rewrite length_replicate. lia.
      - intros dst _. unfold load.
        destruct (Z.leb_spec 0 (Z.of_nat (length a))); [|lia].
        rewrite lookup_ge_None_2 by lia. reflexivity. }
    unfold SetRestrictOperator, SetProlongOperator.
    rewrite Hbuild. cbn [negb assert bind is_null].
    destruct (Z.ltb_spec 0 (levels_ mg)); [|lia]. cbn [assert bind].
    rewrite Hcopy. split; reflexivity.
  - intros Hlong. exists (first_pointers (levels_ mg) a).
    rewrite SetRestrictOperator_runs, SetProlongOperator_runs
      by (intros ? [= <-]; assumption).
    rewrite Hbuild. cbn [is_null orb default].
    destruct (Z.leb_spec (levels_ mg) 0); [lia|].
    split; [reflexivity|]. split; [reflexivity|].
    assert (length (Some <$> take (Z.to_nat (levels_ mg - 1)) a)
            = Z.to_nat (levels_ mg - 1)) as Hlen
      by (rewrite length_fmap, length_take_le; lia).
    unfold first_pointers. split; [|split].
    + rewrite length_app, Hlen. cbn [length]. lia.
    + intros i x Hi Hx. rewrite lookup_app_l by lia.
      rewrite list_lookup_fmap, lookup_take_lt by lia. now rewrite Hx.
    + rewrite lookup_app_r by lia. rewrite Hlen, Nat.sub_diag. reflexivity.
Qed.

End HierarchySetters.

(** ** The properties on the samples *)

Section OnMoreSamples.
Import HostStencilLaplace2D HIPAcceleratorVector Samples.

Ltac sample_states :=
  first [ exact valid_indexed
        | apply valid_constructed
        | apply valid_vector; discriminate
        | unfold valid, valid_host, holds; simpl; repeat split; lia ].

Ltac sample_permutation :=
  unfold bijection; simpl; split; [reflexivity|];
  split; [apply (bool_decide_unpack _); vm_compute; exact I
         | repeat constructor; lia].


(** A grid of 2 x 2 points with an input of three entries. *)
Lemma stencil_size_checks_witness :
  Apply (laplace2d 2) [1; 2; 3] [0; 0; 0; 0] = Fatal AssertionFailed
  /\ ApplyAdd (laplace2d 2) [1; 2; 3] 1 [0; 0; 0; 0] = Fatal AssertionFailed.
Proof.
  apply (stencil_size_checks 2 1 [1; 2; 3] [0; 0; 0; 0]);
    [lia | unfold INT_MAX; lia |].
  left. simpl. lia.
Defined.

(** Three levels, arrays of two pointers. *)
Lemma hierarchy_setters_commute_witness :
  (mg' <- MultiGrid.SetRestrictOperator three_levels (Some [10; 20]) ;;
   MultiGrid.SetProlongOperator mg' (Some [30; 40]))
  = (mg' <- MultiGrid.SetProlongOperator three_levels (Some [30; 40]) ;;
     MultiGrid.SetRestrictOperator mg' (Some [10; 20])).
Proof.
  apply (hierarchy_setters_commute three_levels (Some [1; 2; 3])
           (Some [10; 20]) (Some [30; 40]));
    intros a [= <-]; simpl; lia.
Defined.

(** Three levels and an array of one pointer. *)
Lemma transfer_setters_bounds_witness :
  MultiGrid.SetRestrictOperator three_levels (Some [10]) = Undefined
  /\ MultiGrid.SetProlongOperator three_levels (Some [10]) = Undefined.
Proof.
  apply (transfer_setters_bounds three_levels [10]);
    [reflexivity | simpl; lia | simpl; lia].
Defined.

(** [Clear] on the indexed vector frees the scratch buffers. *)
Lemma Clear_empties_witness :
  exists v',
    Clear 3 objects = Done (tt, <[3%nat := Hip v']> objects)
    /\ size_ v' = 0 /\ host_buffer_ v' = None /\ device_buffer_ v' = None.
Proof.
  destruct (Clear_empties objects 3 indexed eq_refl valid_indexed)
    as (v' & Hrun & Hs & _ & _ & _ & _ & _ & _ & _ & Hfreed).
  exists v'. split; [exact Hrun|]. split; [exact Hs|].
  apply Hfreed. simpl. lia.
Defined.

Lemma data_pointer_round_trip_witness :
  (SetDataPtr stale 0 (Some [4; 5]) 2 ~;; LeaveDataPtr 0) objects
  = Done (Some [4; 5], <[0%nat := Hip (left (constructed backend))]> objects).
Proof.
  destruct (data_pointer_round_trip stale objects 0 (constructed backend)
              (Some [4; 5]) 2 eq_refl) as (_ & _ & Hround).
  destruct Hround as (Hrun & _); [discriminate | lia | exact Hrun].
Defined.

Lemma LeaveDataPtr_keeps_index_array_witness :
  (LeaveDataPtr 3 ~;; CopyFrom stale 3 1) objects = Fatal AssertionFailed.
Proof.
  destruct (LeaveDataPtr_keeps_index_array stale objects 3 1 indexed
              (vector [3; -7; 5]) eq_refl eq_refl)
    as (_ & _ & Hrun);
    [lia | sample_states | sample_states | simpl; lia | exact Hrun].
Defined.

Lemma data_round_trip_witness :
  (CopyFromData 1 (Some [1; 1; 1]) ~;; CopyToData 1 (Some [0; 0; 0])) objects
  = Done (Some [1; 1; 1],
          <[1%nat := Hip (set_vec_ (Some [1; 1; 1]) (vector [3; -7; 5]))]>
            objects).
Proof.
  apply (data_round_trip objects 1 (vector [3; -7; 5]) (Some [1; 1; 1])
           (Some [0; 0; 0]) eq_refl);
    [sample_states | simpl; lia | simpl; lia].
Defined.

Lemma Zeros_after_Allocate_witness :
  (Allocate stale 3 4 ~;; Zeros 3) objects = Allocate stale 3 4 objects.
Proof.
  destruct (Zeros_after_Allocate stale objects 3 indexed 4 eq_refl
              valid_indexed) as (_ & Hrun); [lia | exact Hrun].
Defined.


Lemma CopyTo_is_CopyFrom_reversed_witness :
  CopyTo stale 3 0 objects = CopyFrom stale 0 3 objects.
Proof.
  apply (CopyTo_is_CopyFrom_reversed stale objects 3 0 indexed
           (constructed backend) eq_refl eq_refl);
    [lia | sample_states | sample_states].
Defined.

Lemma CopyFrom_overwrites_witness :
  CopyFrom stale 7 5 more_objects
  = Done (tt, <[7%nat := Hip (set_index_array_ None
                                (set_vec_ (Some [1; 0]) (vector [7; 8])))]>
                more_objects).
Proof.
  destruct (CopyFrom_overwrites stale more_objects 7 5 (vector [7; 8])
              (vector [1; 0]) eq_refl eq_refl)
    as (Hrun & _);
    [lia | sample_states | sample_states | simpl; lia | reflexivity
    | reflexivity | exact Hrun].
Defined.

Lemma SetIndexArray_contract_witness :
  exists v',
    SetIndexArray stale 1 2 (Some [0; 2]) objects
    = Done (tt, <[1%nat := Hip v']> objects)
    /\ index_size_ v' = 2 /\ index_array_ v' = Some [0; 2].
Proof.
  destruct (SetIndexArray_contract stale objects 1 (vector [3; -7; 5]) 2
              (Some [0; 2]) eq_refl) as (_ & Hset); [sample_states|].
  destruct Hset as (v' & Hrun & Hsize & Harr & _);
    [simpl; lia | simpl; lia |].
  exists v'. repeat split; assumption.
Defined.

(** The cells 1 and 2 of the vector (3, -7, 5). *)
Lemma continuous_values_round_trip_witness :
  exists b,
    SetContinuousValues 1 1 3 (Some [8; 9]) objects
    = Done (tt, <[1%nat := Hip (set_vec_ b (vector [3; -7; 5]))]> objects)
    /\ GetContinuousValues 1 1 3 (Some [0; 0])
         (<[1%nat := Hip (set_vec_ b (vector [3; -7; 5]))]> objects)
       = Done (Some [8; 9],
               <[1%nat := Hip (set_vec_ b (vector [3; -7; 5]))]> objects).
Proof.
  destruct (continuous_values_round_trip objects 1 (vector [3; -7; 5]) 1 3
              [8; 9] [0; 0] eq_refl) as (_ & Hround); [sample_states|].
  destruct Hround as (b & Hset & _ & _ & Hget);
    [lia | simpl; lia | reflexivity | reflexivity |].
  exists b. split; assumption.
Defined.

(** Two cells of (2, 0, 1) into the cells 1 and 2 of (3, -7, 5); and one
    cell from the offset [INT_MAX], with which the sum of the assertion
    wraps around. *)
Lemma CopyFrom_window_contract_witness :
  (exists out,
     CopyFrom_window 1 2 0 1 2 objects
     = Done (tt, <[1%nat := Hip (set_vec_ (Some out) (vector [3; -7; 5]))]>
                   objects)
     /\ Z.of_nat (length out) = 3)
  /\ CopyFrom_window 1 2 INT_MAX 0 1 objects = Undefined.
Proof.
  destruct (CopyFrom_window_contract objects 1 2 (vector [3; -7; 5])
              (vector [2; 0; 1]) 0 1 2 eq_refl eq_refl)
    as (_ & Hcopy & _);
    [lia | apply valid_wellformed; sample_states
    | apply valid_wellformed; sample_states |].
  destruct (CopyFrom_window_contract objects 1 2 (vector [3; -7; 5])
              (vector [2; 0; 1]) INT_MAX 0 1 eq_refl eq_refl)
    as (_ & _ & Hwraps);
    [lia | apply valid_wellformed; sample_states
    | apply valid_wellformed; sample_states |].
  split.
  - destruct Hcopy as (out & Hrun & Hlen & _);
      [lia | lia | simpl; lia | lia | simpl; lia |].
    exists out. split; assumption.
  - apply Hwraps;
      [ simpl; lia | simpl; lia | lia
      | vm_compute; discriminate | vm_compute; discriminate | ].
    right. left. unfold INT_MAX. simpl. lia.
Defined.

(** The cell 0 of (3, -7, 5) into its cell 2. *)
Lemma CopyFrom_window_within_witness :
  exists out,
    CopyFrom_window 1 1 0 2 1 objects
    = Done (tt, <[1%nat := Hip (set_vec_ (Some out) (vector [3; -7; 5]))]>
                  objects)
    /\ Z.of_nat (length out) = 3.
Proof.
  destruct (CopyFrom_window_within objects 1 (vector [3; -7; 5]) 0 2 1 eq_refl)
    as (out & Hrun & Hlen & _);
    [sample_states | lia | lia | lia | simpl; lia | simpl; lia | lia |].
  exists out. split; assumption.
Defined.

(** The vector (7, 8) into the indexed vector along the permutation
    (1, 0), and back. *)
Lemma permuted_copy_round_trip_witness :
  exists out,
    CopyFromPermute 3 7 5 more_objects
    = Done (tt, <[3%nat := Hip (set_vec_ (Some out) indexed)]> more_objects)
    /\ CopyFromPermuteBackward 7 3 5
         (<[3%nat := Hip (set_vec_ (Some out) indexed)]> more_objects)
       = Done (tt, <[3%nat := Hip (set_vec_ (Some out) indexed)]> more_objects).
Proof.
  destruct (permuted_copy_round_trip more_objects 3 7 5 indexed (vector [7; 8])
              (vector [1; 0]) [1; 0] eq_refl eq_refl eq_refl)
    as (out & Hrun & _ & _ & Hback);
    [ lia | lia | lia | sample_states | sample_states | simpl; lia
    | reflexivity | reflexivity | reflexivity | sample_permutation | ].
  exists out. split; assumption.
Defined.


(** The indexed vector, [Allocate(4)] and [LeaveDataPtr]. *)
Lemma wellformed_is_kept_witness :
  (exists v', Allocate stale 3 4 objects = Done (tt, <[3%nat := Hip v']> objects)
              /\ wellformed v')
  /\ (exists v', LeaveDataPtr 3 objects
                 = Done (Some [10; 20], <[3%nat := Hip v']> objects)
                 /\ wellformed v').
Proof.
  destruct (wellformed_is_kept stale objects 3 indexed eq_refl
              (valid_wellformed _ valid_indexed))
    as (_ & _ & Hallocate & _ & Hleave & _).
  split; [apply Hallocate; lia | apply Hleave; simpl; lia].
Defined.

End OnMoreSamples.
